(** * kubegateway: the SNI handshake callback, the health probe, the
      reconfiguration of a cluster, option validation and the HTTP
      error-log writer

    A shallow embedding of the Go sources of the gateway's command
    ([cmd/kube-gateway/app]), of its upstream cluster manager
    ([pkg/gateway/controllers]) and of its proxy options, followed by the
    properties the specification states about them. Of the packages
    [pkg/clusters], [pkg/flowcontrol] and [pkg/gateway/net] only tests and
    callers are at hand: what is used of them is modelled from the
    specification, and each such definition says so.

    Conventions of the embedding:
    - a Go [string] is a [string]; a [[]byte] is a [list byte];
    - a Go pointer that may be [nil] is an [option];
    - a Go [(value, ok)] or [(value, error)] result is the pair itself, so
      that both components can be inspected as the callers do;
    - a nil-pointer dereference is the explicit outcome [Panicked];
    - writes to global sinks ([klog]) thread the sink as a list of entries. *)

From Stdlib Require Import ZArith Ascii String DecimalString Lia.
From Stdlib.Strings Require Import Byte.
From stdpp Require Import base option list strings gmap.

Local Open Scope string_scope.
Local Open Scope list_scope.

(* ===================================================================== *)
(** * Part I: the embedding                                               *)
(* ===================================================================== *)

(** ** Go runtime values shared by the packages *)

Module metav1.
(** [metav1.Status], restricted to the two fields the gateway reads. *)
Record Status := { Reason : string; Message : string }.
End metav1.

(** A Go [error] value, seen through the three observations the gateway
    makes of one: its [Error()] text, [os.IsTimeout], and the type switch
    on [errors.APIStatus] (whose [Status()] is then read). *)
Record error := {
  Error : string;
  IsTimeout : bool;
  APIStatus : option metav1.Status;
}.

Module fmt.
(** [fmt.Errorf] applied to a format without verbs. *)
Definition Errorf (msg : string) : error :=
  {| Error := msg; IsTimeout := false; APIStatus := None |}.

(** [fmt.Sprint] of an [int], which is what the verb [%v] prints: its
    decimal representation. *)
Definition Sprint (n : Z) : string := NilZero.string_of_int (Z.to_int n).
End fmt.

#[global] Instance byte_eq_decision : EqDecision byte := Byte.byte_eq_dec.

Module bytes.
(** [bytes.HasPrefix(s, prefix)]:
    [len(s) >= len(prefix) && Equal(s[:len(prefix)], prefix)]. *)
Definition HasPrefix (s prefix : list byte) : bool :=
  (length prefix <=? length s)%nat
  && bool_decide (take (length prefix) s = prefix).
End bytes.

Module klog.
(** The process-wide log sink: the calls made to [klog], in order. A
    formatted call is recorded as its format and its arguments. *)
Inductive Entry :=
| InfoDepth (depth : Z) (msg : string)
| Errorf (format : string) (args : list string)
| VInfof (level : Z) (format : string) (args : list string).

Definition Sink := list Entry.

Definition log (e : Entry) (sink : Sink) : Sink := sink ++ [e].
End klog.

(** ** The Go standard library, as far as the gateway calls it *)

Module strings.
(** Go strings are indexed by [int]; a missing byte is index [-1]. *)
Fixpoint IndexByte (s : string) (c : ascii) : Z :=
  match s with
  | EmptyString => -1
  | String a s' =>
      if Ascii.eqb a c then 0
      else let i := IndexByte s' c in if (i <? 0)%Z then -1 else i + 1
  end%Z.

Fixpoint LastIndexByte (s : string) (c : ascii) : Z :=
  match s with
  | EmptyString => -1
  | String a s' =>
      let i := LastIndexByte s' c in
      if (0 <=? i)%Z then i + 1 else if Ascii.eqb a c then 0 else -1
  end%Z.

Definition len (s : string) : Z := Z.of_nat (String.length s).

(** [s[lo:hi]] for [0 <= lo <= hi <= len(s)]. *)
Definition slice (s : string) (lo hi : Z) : string :=
  String.substring (Z.to_nat lo) (Z.to_nat (hi - lo)) s.

(** [s[i]] *)
Definition at_ (s : string) (i : Z) : option ascii :=
  String.get (Z.to_nat i) s.
End strings.

Module net.
Import strings.

(** [(&AddrError{Err: why, Addr: addr}).Error()] *)
Definition AddrError (addr why : string) : error :=
  {| Error := if (len addr =? 0)%Z then why
              else "address " +:+ addr +:+ ": " +:+ why;
     IsTimeout := false;
     APIStatus := None |}.

Definition missingPort := "missing port in address".
Definition tooManyColons := "too many colons in address".

(** [net.SplitHostPort]: [(host, port, err)]. *)
Definition SplitHostPort (hostport : string) : string * string * option error :=
  let addrErr why := (EmptyString, EmptyString, Some (AddrError hostport why)) in
  (* The port starts after the last colon. *)
  let i := LastIndexByte hostport ":" in
  if (i <? 0)%Z then addrErr missingPort else
  let bracketed : (string * Z * Z) + string :=
    if bool_decide (at_ hostport 0 = Some "["%char) then
      (* Expect the first ']' just before the last ':'. *)
      let end_ := IndexByte hostport "]" in
      if (end_ <? 0)%Z then inr "missing ']' in address"
      else if (end_ + 1 =? len hostport)%Z then inr missingPort
      else if (end_ + 1 =? i)%Z then inl (slice hostport 1 end_, 1, end_ + 1)%Z
      else if bool_decide (at_ hostport (end_ + 1) = Some ":"%char)
           then inr tooManyColons
           else inr missingPort
    else
      let host := slice hostport 0 i in
      if (0 <=? IndexByte host ":")%Z then inr tooManyColons
      else inl (host, 0, 0)%Z
  in
  match bracketed with
  | inr why => addrErr why
  | inl (host, j, k) =>
      if (0 <=? IndexByte (slice hostport j (len hostport)) "[")%Z
      then addrErr "unexpected '[' in address"
      else if (0 <=? IndexByte (slice hostport k (len hostport)) "]")%Z
      then addrErr "unexpected ']' in address"
      else (host, slice hostport (i + 1) (len hostport), None)
  end.
End net.

Module x509.
(** A parsed certificate, kept as its DER bytes. *)
Definition Certificate := list byte.
Definition CertPool := list Certificate.

Record VerifyOptions := {
  DNSName : string;
  Roots : option CertPool;
  KeyUsages : list Z;
}.

(** [x509.VerifyOptions{}] *)
Definition zeroVerifyOptions : VerifyOptions :=
  {| DNSName := EmptyString; Roots := None; KeyUsages := [] |}.
End x509.

Module tls.
Inductive ClientAuthType :=
| NoClientCert
| RequestClientCert
| RequireAnyClientCert
| VerifyClientCertIfGiven
| RequireAndVerifyClientCert.

(** A certificate chain with its private key, kept opaque. *)
Definition Certificate := list byte.

(** A function-valued field is kept as a handle: the gateway only ever
    resets such fields to nil. *)
Definition Callback := nat.

(** [tls.Config]: the fields the gateway writes, and three of the fields
    it leaves alone. *)
Record Config := {
  Certificates : list Certificate;
  GetCertificate : option Callback;
  GetConfigForClient : option Callback;
  ClientAuth : ClientAuthType;
  ClientCAs : option x509.CertPool;
  NextProtos : list string;
  MinVersion : Z;
  CipherSuites : list Z;
}.

(** [Clone] of a pointer to a [Config]: nil for nil, else a copy of
    every field. *)
Definition Clone (c : option Config) : option Config :=
  match c with
  | None => None
  | Some c =>
      Some {| Certificates := Certificates c;
              GetCertificate := GetCertificate c;
              GetConfigForClient := GetConfigForClient c;
              ClientAuth := ClientAuth c;
              ClientCAs := ClientCAs c;
              NextProtos := NextProtos c;
              MinVersion := MinVersion c;
              CipherSuites := CipherSuites c |}
  end.

(** [tls.ClientHelloInfo]; [LocalAddr] is [Conn.LocalAddr().String()]. *)
Record ClientHelloInfo := {
  ServerName : string;
  LocalAddr : string;
}.
End tls.

(** ** pkg/apis/proxy/v1alpha1: the configuration document *)

Module proxyv1alpha1.
(** The declarations of this package are not among the sources: the fields
    are those the tests set, and [Disabled] is the disabled flag the spec
    gives a server. *)
Record UpstreamClusterServer := {
  Endpoint : string;
  Disabled : bool;
}.

Record SecureServing := {
  KeyData : list byte;
  CertData : list byte;
  ClientCAData : list byte;
}.

(** Modelled from the spec: the declaration of the schema types is not
    among the sources; a schema is a name and exactly one of exempt,
    maxRequestsInflight{max}, tokenBucket{qps, burst}. *)
Inductive FlowControlSchemaConfiguration :=
| Exempt
| MaxRequestsInflight (Max : Z)
| TokenBucket (QPS Burst : Z).

Record FlowControlSchema := {
  Name : string;
  Configuration : FlowControlSchemaConfiguration;
}.

#[global] Instance FlowControlSchemaConfiguration_eq_dec :
  EqDecision FlowControlSchemaConfiguration.
Proof. solve_decision. Defined.
End proxyv1alpha1.

(** ** pkg/flowcontrol: the limiters *)

Module flowcontrol.
Import proxyv1alpha1.

(** Modelled from the spec: package flowcontrol is not among the sources.
    A limiter is one of the three variants with its parameters; it counts
    the permits it has handed out and not yet got back, holds the token
    level of a bucket, and can be marked as retired. *)
Record FlowControl := {
  name : string;
  config : FlowControlSchemaConfiguration;
  outstanding : nat;
  tokens : Z;
  retired : bool;
}.

(** Modelled from the spec: [NewFlowControl] is not among the sources; a
    new limiter has no permit out, and a bucket starts full. *)
Definition NewFlowControl (schema : FlowControlSchema) : FlowControl :=
  {| name := Name schema;
     config := Configuration schema;
     outstanding := 0;
     tokens := match Configuration schema with
               | TokenBucket _ burst => burst
               | _ => 0%Z
               end;
     retired := false |}.

(** Two configurations differ in numeric parameters only. *)
Definition sameVariant (c1 c2 : FlowControlSchemaConfiguration) : bool :=
  match c1, c2 with
  | Exempt, Exempt => true
  | MaxRequestsInflight _, MaxRequestsInflight _ => true
  | TokenBucket _ _, TokenBucket _ _ => true
  | _, _ => false
  end.

(** Modelled from the spec: [Resize] is not among the sources. A token
    bucket takes the new qps and burst and keeps its tokens; max-inflight
    takes the new max and keeps the permits that are out (capacity
    shrinks lazily). The spec gives no rule for a change of variant: the
    limiter is then not resizable. *)
Definition Resize (l : FlowControl) (c : FlowControlSchemaConfiguration)
  : option FlowControl :=
  if sameVariant (config l) c
  then Some {| name := name l; config := c; outstanding := outstanding l;
               tokens := tokens l; retired := retired l |}
  else None.

(** Modelled from the spec: [Admit] on one limiter, [None] when the
    request is rejected. Exempt always admits; max-inflight admits while
    fewer than max permits are out; a bucket admits by taking one token.
    No time passes inside a call, so no token accrues here. *)
Definition TryAcquire (l : FlowControl) : option FlowControl :=
  let granted tokens' :=
    Some {| name := name l; config := config l;
            outstanding := S (outstanding l);
            tokens := tokens'; retired := retired l |} in
  match config l with
  | Exempt => granted (tokens l)
  | MaxRequestsInflight max =>
      if (Z.of_nat (outstanding l) <? max)%Z then granted (tokens l) else None
  | TokenBucket _ _ =>
      if (1 <=? tokens l)%Z then granted (tokens l - 1)%Z else None
  end.

(** Modelled from the spec: [Release] gives one permit back. *)
Definition Release (l : FlowControl) : FlowControl :=
  {| name := name l; config := config l;
     outstanding := pred (outstanding l);
     tokens := tokens l; retired := retired l |}.

(** Modelled from the spec: the limiter is marked as retired. *)
Definition retire (l : FlowControl) : FlowControl :=
  {| name := name l; config := config l; outstanding := outstanding l;
     tokens := tokens l; retired := true |}.
End flowcontrol.

(** ** pkg/clusters: the runtime state of one cluster and the registry *)

Module clusters.
Import proxyv1alpha1.

(** Modelled from the spec: the declaration of [EndpointInfo] is not
    among the sources; it holds the endpoint URL, the name of its
    cluster, the ready flag and the reason and message of the last
    probe. *)
Record EndpointInfo := {
  Cluster : string;
  Endpoint : string;
  ready : bool;
  reason : string;
  message : string;
}.

(** Modelled from the spec: readiness is a readable latch. *)
Definition IsReady (e : EndpointInfo) : bool := ready e.

(** Modelled from the spec: [UpdateStatus] is not among the sources; it
    publishes the ready flag with the reason and message of the probe. *)
Definition UpdateStatus (ready' : bool) (reason' message' : string)
    (e : EndpointInfo) : EndpointInfo :=
  {| Cluster := Cluster e; Endpoint := Endpoint e;
     ready := ready'; reason := reason'; message := message' |}.

(** Modelled from the spec: the declaration of [ClusterInfo] is not
    among the sources. It holds the cluster name, the map from endpoint
    URL to [EndpointInfo], the TLS serving config and the verify options
    that are published together, and the map from schema name to
    limiter. Limiters are objects with an identity: [objects] is the
    store of every limiter allocated so far, addressed by position, and
    [flowcontrol] maps a schema name to the address of its limiter. *)
Record ClusterInfo := {
  ClusterName : string;
  Endpoints : gmap string EndpointInfo;
  tlsConfig : option tls.Config;
  verifyOptions : option x509.VerifyOptions;
  objects : list flowcontrol.FlowControl;
  flowcontrol : gmap string nat;
}.

Definition NewClusterInfo (name : string) : ClusterInfo :=
  {| ClusterName := name; Endpoints := ∅;
     tlsConfig := None; verifyOptions := None;
     objects := []; flowcontrol := ∅ |}.

Definition setEndpoints (es : gmap string EndpointInfo) (c : ClusterInfo) :=
  {| ClusterName := ClusterName c; Endpoints := es;
     tlsConfig := tlsConfig c; verifyOptions := verifyOptions c;
     objects := objects c; flowcontrol := flowcontrol c |}.

Definition setServing (t : option tls.Config) (v : option x509.VerifyOptions)
    (c : ClusterInfo) :=
  {| ClusterName := ClusterName c; Endpoints := Endpoints c;
     tlsConfig := t; verifyOptions := v;
     objects := objects c; flowcontrol := flowcontrol c |}.

Definition setFlowControl (os : list flowcontrol.FlowControl)
    (fc : gmap string nat) (c : ClusterInfo) :=
  {| ClusterName := ClusterName c; Endpoints := Endpoints c;
     tlsConfig := tlsConfig c; verifyOptions := verifyOptions c;
     objects := os; flowcontrol := fc |}.

(** *** Read API *)

(** Modelled from the spec: [LoadTLSConfig()] returns a pointer to the
    TLS config and ok. *)
Definition LoadTLSConfig (c : ClusterInfo) : option tls.Config * bool :=
  match tlsConfig c with
  | Some cfg => (Some cfg, true)
  | None => (None, false)
  end.

(** Modelled from the spec:
    [LoadVerifyOptions() → (x509.VerifyOptions, ok)]. *)
Definition LoadVerifyOptions (c : ClusterInfo) : x509.VerifyOptions * bool :=
  match verifyOptions c with
  | Some v => (v, true)
  | None => (x509.zeroVerifyOptions, false)
  end.

(** Modelled from the spec: [AllEndpoints()] enumerates the URLs. *)
Definition AllEndpoints (c : ClusterInfo) : list string :=
  (map_to_list (Endpoints c)).*1.

(** *** Endpoints *)

Definition newEndpointInfo (cluster url : string) : EndpointInfo :=
  {| Cluster := cluster; Endpoint := url;
     ready := false; reason := EmptyString; message := EmptyString |}.

(** The URLs of the servers that are not disabled, in list order. *)
Definition enabledURLs (servers : list UpstreamClusterServer) : list string :=
  proxyv1alpha1.Endpoint <$> filter (λ s, Disabled s = false) servers.

(** Modelled from the spec: [syncEndpoints] is not among the sources. It
    computes additions and removals by URL set difference, creates the
    [EndpointInfo] of every added URL, then drops every removed one. *)
Definition syncEndpoints (servers : list UpstreamClusterServer)
    (c : ClusterInfo) : ClusterInfo * option error :=
  let wanted := enabledURLs servers in
  let current := (map_to_list (Endpoints c)).*1 in
  let additions := filter (λ url, url ∉ current) wanted in
  let removals := filter (λ url, url ∉ wanted) current in
  let started :=
    foldl (λ es url, <[url := newEndpointInfo (ClusterName c) url]> es)
          (Endpoints c) additions in
  let kept := foldl (λ es url, delete url es) started removals in
  (setEndpoints kept c, None).

(** *** Secure serving *)

Section secure_serving.
(** The PEM parsers: [tls.X509KeyPair(certPEM, keyPEM)] and the
    construction of a certificate pool from PEM bytes. *)
Variable X509KeyPair : list byte → list byte → tls.Certificate * option error.
Variable NewPoolFromBytes : list byte → x509.CertPool * option error.

Definition emptyTLSConfig : tls.Config :=
  {| tls.Certificates := []; tls.GetCertificate := None;
     tls.GetConfigForClient := None; tls.ClientAuth := tls.NoClientCert;
     tls.ClientCAs := None; tls.NextProtos := [];
     tls.MinVersion := 0; tls.CipherSuites := [] |}.

Definition withCertificates (certs : list tls.Certificate) (c : tls.Config) :=
  {| tls.Certificates := certs; tls.GetCertificate := tls.GetCertificate c;
     tls.GetConfigForClient := tls.GetConfigForClient c;
     tls.ClientAuth := tls.ClientAuth c; tls.ClientCAs := tls.ClientCAs c;
     tls.NextProtos := tls.NextProtos c; tls.MinVersion := tls.MinVersion c;
     tls.CipherSuites := tls.CipherSuites c |}.

Definition withClientCAs (pool : option x509.CertPool) (c : tls.Config) :=
  {| tls.Certificates := tls.Certificates c;
     tls.GetCertificate := tls.GetCertificate c;
     tls.GetConfigForClient := tls.GetConfigForClient c;
     tls.ClientAuth := tls.ClientAuth c; tls.ClientCAs := pool;
     tls.NextProtos := tls.NextProtos c; tls.MinVersion := tls.MinVersion c;
     tls.CipherSuites := tls.CipherSuites c |}.

(** Modelled from the spec: [syncSecureServingConfigLocked] is not
    among the sources. The PEM server key and certificate are parsed
    into the certificates, the PEM client CA into a pool and the verify
    options rooted at it; empty inputs store a nil TLS config and nil
    verify options; both are published together. A parse error aborts
    the step and the previous bundle is retained. The tests of the
    method fix which of the two results is nil when only the key pair
    or only the client CA is given. *)
Definition syncSecureServingConfigLocked (secureServing : SecureServing)
    (c : ClusterInfo) : ClusterInfo * option error :=
  let hasPair :=
    negb (length (KeyData secureServing) =? 0)%nat
    || negb (length (CertData secureServing) =? 0)%nat in
  let hasCA := negb (length (ClientCAData secureServing) =? 0)%nat in
  let '(certs, err1) :=
    if hasPair
    then let '(crt, err) :=
           X509KeyPair (CertData secureServing) (KeyData secureServing) in
         ([crt], err)
    else ([], None) in
  match err1 with
  | Some err => (c, Some err)
  | None =>
      let '(pool, err2) :=
        if hasCA
        then let '(p, err) := NewPoolFromBytes (ClientCAData secureServing) in
             (Some p, err)
        else (None, None) in
      match err2 with
      | Some err => (c, Some err)
      | None =>
          let tlsCfg :=
            if hasPair || hasCA
            then Some (withClientCAs pool (withCertificates certs emptyTLSConfig))
            else None in
          let verify :=
            match pool with
            | Some p => Some {| x509.DNSName := EmptyString; x509.Roots := Some p;
                                x509.KeyUsages := [] |}
            | None => None
            end in
          (setServing tlsCfg verify c, None)
      end
  end.
End secure_serving.

(** *** Flow control *)

(** Modelled from the spec: [flowcontrol.Load(name)], as the test of
    [syncFlowControlLocked] calls it, returns the limiter of a name and
    ok. *)
Definition Load (name : string) (c : ClusterInfo)
  : option flowcontrol.FlowControl * bool :=
  match flowcontrol c !! name with
  | Some a =>
      match objects c !! a with
      | Some l => (Some l, true)
      | None => (None, false)
      end
  | None => (None, false)
  end.

(** The limiter a name is bound to, with its address. *)
Definition limiterAt (name : string) (c : ClusterInfo)
  : option (nat * flowcontrol.FlowControl) :=
  match flowcontrol c !! name with
  | Some a =>
      match objects c !! a with
      | Some l => Some (a, l)
      | None => None
      end
  | None => None
  end.

(** The same, for a limiter that is not retired. *)
Definition liveLimiter (name : string) (c : ClusterInfo)
  : option (nat * flowcontrol.FlowControl) :=
  match limiterAt name c with
  | Some (a, l) => if flowcontrol.retired l then None else Some (a, l)
  | None => None
  end.

(** Modelled from the spec: adding a schema creates a new limiter. It is
    allocated after the limiters there are, and the name is bound to it. *)
Definition createLimiter (schema : FlowControlSchema) (c : ClusterInfo) :=
  setFlowControl (objects c ++ [flowcontrol.NewFlowControl schema])
                 (<[Name schema := length (objects c)]> (flowcontrol c)) c.

(** Modelled from the spec: one schema of the new configuration. A name
    with a live limiter is resized in place; any other name, and a name
    whose limiter cannot be resized, gets a new limiter. *)
Definition syncSchema (c : ClusterInfo) (schema : FlowControlSchema) :=
  match liveLimiter (Name schema) c with
  | Some (a, l) =>
      match flowcontrol.Resize l (Configuration schema) with
      | Some l' => setFlowControl (<[a := l']> (objects c)) (flowcontrol c) c
      | None => createLimiter schema c
      end
  | None => createLimiter schema c
  end.

(** Modelled from the spec: one name that left the configuration. Its
    limiter is dropped when no permit is out, and marked as retired
    otherwise. *)
Definition retireSchema (c : ClusterInfo) (name : string) :=
  match flowcontrol c !! name with
  | Some a =>
      match objects c !! a with
      | Some l =>
          if (flowcontrol.outstanding l =? 0)%nat
          then setFlowControl (objects c) (delete name (flowcontrol c)) c
          else setFlowControl (<[a := flowcontrol.retire l]> (objects c))
                              (flowcontrol c) c
      | None => setFlowControl (objects c) (delete name (flowcontrol c)) c
      end
  | None => c
  end.

(** Modelled from the spec: [syncFlowControlLocked] is not among the
    sources; its test shows that it takes the new schemas only, so the
    old schemas are the names with a live limiter. For each name in new
    and not in old a limiter is created; for each name in both the
    limiter is resized in place; each name in old and not in new has its
    limiter marked as retired, and dropped once no permit is out. *)
Definition syncFlowControlLocked (newObj : list FlowControlSchema)
    (c : ClusterInfo) : ClusterInfo :=
  let c1 := foldl syncSchema c newObj in
  let gone :=
    filter (λ n, n ∉ Name <$> newObj) (map_to_list (flowcontrol c1)).*1 in
  foldl retireSchema c1 gone.

(** A permit: the address of the limiter that granted it, or the
    sentinel of a request that met no limiter. *)
Inductive Permit :=
| Unlimited
| Held (a : nat).

(** Modelled from the spec: [Admit(schemaName) → (permit | rejected)];
    an unknown schema is treated as exempt. *)
Definition Admit (name : string) (c : ClusterInfo) : option Permit * ClusterInfo :=
  match liveLimiter name c with
  | Some (a, l) =>
      match flowcontrol.TryAcquire l with
      | Some l' =>
          (Some (Held a), setFlowControl (<[a := l']> (objects c)) (flowcontrol c) c)
      | None => (None, c)
      end
  | None => (Some Unlimited, c)
  end.

(** Modelled from the spec: [Release(permit)] returns the permit to the
    limiter that granted it; a retired limiter is dropped when its last
    permit comes back. *)
Definition Release (p : Permit) (c : ClusterInfo) : ClusterInfo :=
  match p with
  | Unlimited => c
  | Held a =>
      match objects c !! a with
      | Some l =>
          let l' := flowcontrol.Release l in
          let os := <[a := l']> (objects c) in
          if flowcontrol.retired l' && (flowcontrol.outstanding l' =? 0)%nat
             && bool_decide (flowcontrol c !! flowcontrol.name l' = Some a)
          then setFlowControl os (delete (flowcontrol.name l') (flowcontrol c)) c
          else setFlowControl os (flowcontrol c) c
      | None => c
      end
  end.

(** The limiters behind the names are well bound: a name is bound to an
    allocated limiter, which carries that name. *)
Definition bound (c : ClusterInfo) : Prop :=
  ∀ n a, flowcontrol c !! n = Some a →
    ∃ l, objects c !! a = Some l ∧ flowcontrol.name l = n.

(** The configuration a list of schemas gives to a name: that of the last
    schema of the name. *)
Definition lastConfig (n : string) (schemas : list FlowControlSchema)
  : option FlowControlSchemaConfiguration :=
  Configuration <$> last (filter (λ s, Name s = n) schemas).

(** The cluster's flow control is in sync with a list of schemas: the
    names with a live limiter are the names of the list, each limiter with
    the configuration the list gives to its name. *)
Definition inSync (schemas : list FlowControlSchema) (c : ClusterInfo) : Prop :=
  bound c
  ∧ ∀ n, (flowcontrol.config ∘ snd) <$> liveLimiter n c = lastConfig n schemas.

(** What retiring does to the binding of a name. *)
Definition retiredBinding (b : option (nat * flowcontrol.FlowControl))
  : option (nat * flowcontrol.FlowControl) :=
  match b with
  | Some (a, l) =>
      if (flowcontrol.outstanding l =? 0)%nat then None
      else Some (a, flowcontrol.retire l)
  | None => None
  end.

(** *** The registry *)

(** The [Manager] interface, restricted to the lookup the gateway's
    callbacks use: [Get(host)] returns a pointer to the [ClusterInfo] and
    ok. *)
Record Manager := { Get : string → option ClusterInfo * bool }.

(** An implementation of the interface for the examples: the clusters are
    kept in a finite map and looked up by the host as given. *)
Definition staticManager (registered : gmap string ClusterInfo) : Manager :=
  {| Get host := match registered !! host with
                 | Some c => (Some c, true)
                 | None => (None, false)
                 end |}.
End clusters.

(** ** pkg/gateway/net *)

Module gatewaynet.
(** Modelled from the spec: [HostWithoutPort] is not among the sources;
    it strips any [:port] suffix, that is, the last colon of the host and
    what follows it. *)
Definition HostWithoutPort (hostport : string) : string :=
  let i := strings.LastIndexByte hostport ":" in
  if (i <? 0)%Z then hostport else strings.slice hostport 0 i.
End gatewaynet.

(** ** pkg/gateway/controllers/upstream_cluster_manager.go *)

Module controllers.
Import clusters.

(** What a call comes to: it returns, or it panics on a nil pointer. *)
Inductive Outcome (A : Type) :=
| Returned (a : A)
| Panicked.
Arguments Returned {A} a.
Arguments Panicked {A}.

Definition bind {A B} (o : Outcome A) (k : A → Outcome B) : Outcome B :=
  match o with
  | Returned a => k a
  | Panicked => Panicked
  end.

(** A write [p.field = v] through a pointer to a [tls.Config]. *)
Definition store (p : option tls.Config) (f : tls.Config → tls.Config)
  : Outcome (option tls.Config) :=
  match p with
  | Some c => Returned (Some (f c))
  | None => Panicked
  end.

Definition setClientAuth (v : tls.ClientAuthType) (c : tls.Config) :=
  {| tls.Certificates := tls.Certificates c;
     tls.GetCertificate := tls.GetCertificate c;
     tls.GetConfigForClient := tls.GetConfigForClient c;
     tls.ClientAuth := v; tls.ClientCAs := tls.ClientCAs c;
     tls.NextProtos := tls.NextProtos c; tls.MinVersion := tls.MinVersion c;
     tls.CipherSuites := tls.CipherSuites c |}.

Definition setClientCAs (v : option x509.CertPool) (c : tls.Config) :=
  {| tls.Certificates := tls.Certificates c;
     tls.GetCertificate := tls.GetCertificate c;
     tls.GetConfigForClient := tls.GetConfigForClient c;
     tls.ClientAuth := tls.ClientAuth c; tls.ClientCAs := v;
     tls.NextProtos := tls.NextProtos c; tls.MinVersion := tls.MinVersion c;
     tls.CipherSuites := tls.CipherSuites c |}.

Definition setCertificates (v : list tls.Certificate) (c : tls.Config) :=
  {| tls.Certificates := v;
     tls.GetCertificate := tls.GetCertificate c;
     tls.GetConfigForClient := tls.GetConfigForClient c;
     tls.ClientAuth := tls.ClientAuth c; tls.ClientCAs := tls.ClientCAs c;
     tls.NextProtos := tls.NextProtos c; tls.MinVersion := tls.MinVersion c;
     tls.CipherSuites := tls.CipherSuites c |}.

Definition setGetCertificate (v : option tls.Callback) (c : tls.Config) :=
  {| tls.Certificates := tls.Certificates c;
     tls.GetCertificate := v;
     tls.GetConfigForClient := tls.GetConfigForClient c;
     tls.ClientAuth := tls.ClientAuth c; tls.ClientCAs := tls.ClientCAs c;
     tls.NextProtos := tls.NextProtos c; tls.MinVersion := tls.MinVersion c;
     tls.CipherSuites := tls.CipherSuites c |}.

Definition setGetConfigForClient (v : option tls.Callback) (c : tls.Config) :=
  {| tls.Certificates := tls.Certificates c;
     tls.GetCertificate := tls.GetCertificate c;
     tls.GetConfigForClient := v;
     tls.ClientAuth := tls.ClientAuth c; tls.ClientCAs := tls.ClientCAs c;
     tls.NextProtos := tls.NextProtos c; tls.MinVersion := tls.MinVersion c;
     tls.CipherSuites := tls.CipherSuites c |}.

(** [dynamiccertificates.GetConfigForClientFunc] *)
Definition GetConfigForClientFunc : Type :=
  tls.ClientHelloInfo → option tls.Config * option error.

(** The host name the callback looks up: the SNI name, or else the host
    of the local address of the connection. *)
Definition requestedHostname (clientHello : tls.ClientHelloInfo)
  : string * option error :=
  let hostname := tls.ServerName clientHello in
  if (strings.len hostname =? 0)%Z
  then let '(hostname, _, err) := net.SplitHostPort (tls.LocalAddr clientHello) in
       (hostname, err)
  else (hostname, None).

(** The overlay of the cluster's TLS config on the copy of the base. *)
Definition overlay (tlsConfig : tls.Config) (tlsConfigCopy : option tls.Config)
  : Outcome (option tls.Config) :=
  bind
    (if bool_decide (tls.ClientCAs tlsConfig ≠ None)
     then
       (* Populate PeerCertificates in requests, but don't reject
          connections without certificates *)
       bind (store tlsConfigCopy (setClientAuth tls.RequestClientCert))
            (λ p, store p (setClientCAs (tls.ClientCAs tlsConfig)))
     else Returned tlsConfigCopy)
    (λ tlsConfigCopy,
       if (0 <? length (tls.Certificates tlsConfig))%nat
       then
         (* provide specific certificates *)
         bind (store tlsConfigCopy (setCertificates (tls.Certificates tlsConfig)))
              (λ p, bind (store p (setGetCertificate None))
                         (λ p, store p (setGetConfigForClient None)))
       else Returned tlsConfigCopy).

(** The function [WrapGetConfigForClient] returns, applied to a
    [ClientHelloInfo]: the [(config, err)] it returns, and the log. A
    registry or a cluster that answers ok with a nil pointer makes the next
    call read through nil. *)
Definition WrapGetConfigForClient (m : Manager)
    (getConfigFunc : GetConfigForClientFunc)
    (clientHello : tls.ClientHelloInfo) (sink : klog.Sink)
  : Outcome (option tls.Config * option error) * klog.Sink :=
  let '(baseTLSConfig, err) := getConfigFunc clientHello in
  match err with
  | Some _ => (Returned (baseTLSConfig, err), sink)
  | None =>
      let '(hostname, err) := requestedHostname clientHello in
      match err with
      | Some err =>
          (Returned (baseTLSConfig, None),
           klog.log (klog.Errorf
                       "failed to get hostname from clientHello's conn: %v"
                       [Error err]) sink)
      | None =>
          let sink :=
            klog.log (klog.VInfof 5 "get tls config for %q" [hostname]) sink in
          match Get m hostname with
          | (_, false) => (Returned (baseTLSConfig, None), sink)
          | (None, true) => (Panicked, sink)
          | (Some cluster, true) =>
              match LoadTLSConfig cluster with
              | (_, false) => (Returned (baseTLSConfig, None), sink)
              | (None, true) => (Panicked, sink)
              | (Some tlsConfig, true) =>
                  let tlsConfigCopy := tls.Clone baseTLSConfig in
                  (bind (overlay tlsConfig tlsConfigCopy)
                        (λ tlsConfigCopy, Returned (tlsConfigCopy, None)),
                   sink)
              end
          end
      end
  end.

(** [SNIVerifyOptions] *)
Definition SNIVerifyOptions (m : Manager) (host : string)
  : Outcome (x509.VerifyOptions * bool) :=
  let hostname := gatewaynet.HostWithoutPort host in
  let empty := x509.zeroVerifyOptions in
  match Get m hostname with
  | (_, false) => Returned (empty, false)
  | (None, true) => Panicked
  | (Some cluster, true) => Returned (LoadVerifyOptions cluster)
  end.

(** What the probe request came to: [result.Error()] and the status code
    [result.StatusCode] stores. *)
Record Result := {
  ResultError : option error;
  ResultStatusCode : Z;
}.

Definition StatusOK : Z := 200.

(** [GatewayHealthCheck], given the result of its GET of [/readyz]:
    [done], the endpoint after the call, and the log. *)
Definition GatewayHealthCheck (result : Result) (e : EndpointInfo)
    (sink : klog.Sink) : bool * EndpointInfo * klog.Sink :=
  let done := false in
  let failed reason message :=
    (done, UpdateStatus false reason message e,
     klog.log (klog.Errorf
       "upstream health check failed, cluster=%q endpoint=%q reason=%q message=%q"
       [Cluster e; Endpoint e; reason; message]) sink) in
  match ResultError result with
  | Some err =>
      if IsTimeout err then failed "Timeout" (Error err)
      else match APIStatus err with
           | Some status =>
               failed (metav1.Reason status) (metav1.Message status)
           | None => failed "Failure" (Error err)
           end
  | None =>
      let statusCode := ResultStatusCode result in
      if (statusCode =? StatusOK)%Z
      then (done, UpdateStatus true EmptyString EmptyString e, sink)
      else failed "NotReady"
                  ("request " +:+ Endpoint e
                   +:+ "/readyz, got response code is " +:+ fmt.Sprint statusCode)
  end.
End controllers.

(** ** cmd/kube-gateway/app/proxy.go *)

Module app.
(** [proxyHTTPErrorLogWriter.Write]: returns [(n, err)] and the sink after
    the call. *)
Definition Write (data : list byte) (sink : klog.Sink)
  : (Z * option error) * klog.Sink :=
  if bytes.HasPrefix data (list_byte_of_string "http: TLS handshake error from")
  then ((0%Z, None), sink)
  else ((Z.of_nat (length data), None),
        klog.log (klog.InfoDepth 1 (string_of_list_byte data)) sink).
End app.

(** ** pkg/gateway/proxy/options: the upstream cluster options *)

Module options.
Record UpstreamClusterOptions := { Path : string }.

Definition NewUpstreamClusterOptions : UpstreamClusterOptions :=
  {| Path := EmptyString |}.

(** [Validate], a method of a pointer to [UpstreamClusterOptions]; the
    receiver may be nil. *)
Definition Validate (s : option UpstreamClusterOptions) : list error :=
  match s with
  | None => []
  | Some s =>
      let errs := [] in
      let errs :=
        if (String.length (Path s) =? 0)%nat
        then errs ++ [fmt.Errorf "--upstream-cluster-file must be set"]
        else errs in
      errs
  end.
End options.

(** ** The vocabulary of the properties and the inputs of their examples *)

Section vocabulary.

Import proxyv1alpha1 clusters controllers.

(** A host or a port with neither colon nor bracket. *)
Definition plain (s : string) : Prop :=
  strings.IndexByte s ":" = (-1)%Z
  ∧ strings.IndexByte s "[" = (-1)%Z
  ∧ strings.IndexByte s "]" = (-1)%Z.

(** The prefix of the lines the error-log writer drops. *)
Definition tlsHandshakeNoise : list byte :=
  list_byte_of_string "http: TLS handshake error from".

(** The error [Validate] gives for an unset flag. *)
Definition mustBeSet : error := fmt.Errorf "--upstream-cluster-file must be set".

(** What an endpoint publishes about its last probe. *)
Definition status (e : EndpointInfo) : bool * string * string :=
  (ready e, reason e, message e).

(** The endpoint of the test cluster, before its first probe. *)
Definition probed : EndpointInfo :=
  newEndpointInfo "testing.cluster" "https://127.0.0.1:443".

(** An API status, and an error that carries it. *)
Definition serviceUnavailable : metav1.Status :=
  {| metav1.Reason := "ServiceUnavailable"; metav1.Message := "etcd is not ready" |}.

Definition statusError : error :=
  {| Error := "the server is currently unable to handle the request";
     IsTimeout := false;
     APIStatus := Some serviceUnavailable |}.

(** An error that [os.IsTimeout] recognises. *)
Definition timeoutError : error :=
  {| Error := "context deadline exceeded"; IsTimeout := true; APIStatus := None |}.

(** The result of a probe request. *)
Definition probeOf (err : option error) (code : Z) : Result :=
  {| ResultError := err; ResultStatusCode := code |}.

(** Verify options rooted at a client CA, and a cluster that has them. *)
Definition clientRoots : x509.VerifyOptions :=
  {| x509.DNSName := EmptyString;
     x509.Roots := Some [list_byte_of_string "client-ca"];
     x509.KeyUsages := [] |}.

Definition verifying : ClusterInfo :=
  setServing None (Some clientRoots) (NewClusterInfo "a.example").

(** The TLS config of a cluster that serves with its own key pair and has
    no client CA, as the test "replace serving key and crt" loads it. *)
Definition keyPairOnly : tls.Config :=
  withCertificates [list_byte_of_string "a.example key pair"] emptyTLSConfig.

(** The TLS config of a cluster with a key pair and a client CA. *)
Definition keyPairAndCA : tls.Config :=
  withClientCAs (Some [list_byte_of_string "a.example client CA"]) keyPairOnly.

(** The base config of a gateway that was started without a client CA. *)
Definition gatewayConfig : tls.Config :=
  {| tls.Certificates := [list_byte_of_string "gateway key pair"];
     tls.GetCertificate := Some 1%nat;
     tls.GetConfigForClient := Some 2%nat;
     tls.ClientAuth := tls.NoClientCert;
     tls.ClientCAs := None;
     tls.NextProtos := ["h2"; "http/1.1"];
     tls.MinVersion := 771;
     tls.CipherSuites := [] |}.

(** The base callback of that gateway. *)
Definition baseCallback : GetConfigForClientFunc :=
  λ _, (Some gatewayConfig, None).

(** The cluster a.example, serving with [cfg] and verifying against the
    client CAs of [cfg], and a registry with that one cluster. *)
Definition servingWith (cfg : tls.Config) : ClusterInfo :=
  setServing (Some cfg)
    ((λ pool, {| x509.DNSName := EmptyString; x509.Roots := Some pool;
                 x509.KeyUsages := [] |}) <$> tls.ClientCAs cfg)
    (NewClusterInfo "a.example").

Definition registryWith (cfg : tls.Config) : Manager :=
  staticManager {["a.example" := servingWith cfg]}.

(** A handshake on the local address 10.0.0.1:6443. *)
Definition helloFor (serverName : string) : tls.ClientHelloInfo :=
  {| tls.ServerName := serverName; tls.LocalAddr := "10.0.0.1:6443" |}.

(** A registry whose one cluster, 10.0.0.1, has no TLS config. *)
Definition unloaded : Manager :=
  staticManager {["10.0.0.1" := NewClusterInfo "10.0.0.1"]}.

(** The cluster of the tests, with the endpoint https://127.0.0.1:443. *)
Definition oneEndpoint : ClusterInfo :=
  (syncEndpoints [{| proxyv1alpha1.Endpoint := "https://127.0.0.1:443";
                     Disabled := false |}]
                 (NewClusterInfo "testing.cluster")).1.

(** What the pass over the new schemas leaves under a name of the list:
    a live limiter with the last configuration of the name; allocated by
    the pass when the name had no live limiter; and the limiter the name
    had, with its permits and tokens, when every schema of the name has
    the variant of that limiter. *)
Definition synced_name (c c' : ClusterInfo) (new : list FlowControlSchema)
    (n : string) : Prop :=
  ∃ a l,
    limiterAt n c' = Some (a, l)
    ∧ flowcontrol.retired l = false
    ∧ lastConfig n new = Some (flowcontrol.config l)
    ∧ (liveLimiter n c = None →
         (length (objects c) ≤ a)%nat ∧ flowcontrol.outstanding l = 0%nat)
    ∧ (∀ a0 l0,
         liveLimiter n c = Some (a0, l0) →
         (∀ s, s ∈ new → Name s = n →
            flowcontrol.sameVariant (flowcontrol.config l0) (Configuration s)
            = true) →
         a = a0
         ∧ flowcontrol.outstanding l = flowcontrol.outstanding l0
         ∧ flowcontrol.tokens l = flowcontrol.tokens l0).

(** The schemas of the test of [syncFlowControlLocked]. *)
Definition exempt : FlowControlSchema :=
  {| Name := "exempt"; Configuration := Exempt |}.
Definition maxInflight10 : FlowControlSchema :=
  {| Name := "max-inflight"; Configuration := MaxRequestsInflight 10 |}.
Definition tokenBucket10 : FlowControlSchema :=
  {| Name := "tokenbucket"; Configuration := TokenBucket 10 20 |}.
Definition maxInflight20 : FlowControlSchema :=
  {| Name := "max-inflight"; Configuration := MaxRequestsInflight 20 |}.
Definition tokenBucket20 : FlowControlSchema :=
  {| Name := "tokenbucket"; Configuration := TokenBucket 20 40 |}.
Definition batch : FlowControlSchema :=
  {| Name := "batch"; Configuration := MaxRequestsInflight 5 |}.

(** A cluster synced to three schemas, with two exempt requests and one
    max-inflight request in flight. *)
Definition busy : ClusterInfo :=
  (Admit "max-inflight"
     (Admit "exempt"
        (Admit "exempt"
           (syncFlowControlLocked [exempt; maxInflight10; tokenBucket10]
              (NewClusterInfo "testing.cluster"))).2).2).2.

End vocabulary.

(** ** The standard logger behind [SecureServing.ErrorLog] *)

Module stdlog.
(** [CreateProxyConfig] sets the error log of the server to
    [log.New(proxyHTTPErrorLogWriter{}, "", 0)]. [Output] of such a logger
    writes no header (empty prefix, no flag); it appends a newline to a
    message that is empty or does not end in one, hands the bytes to the
    writer in one [Write], and returns the error of that [Write]. *)
Definition withNewline (s : list byte) : list byte :=
  match last s with
  | Some x0a => s
  | _ => s ++ [x0a]
  end.

Definition Output (s : list byte) (sink : klog.Sink) : option error * klog.Sink :=
  let '((_, err), sink) := app.Write (withNewline s) sink in
  (err, sink).
End stdlog.

(** ** pkg/clusters: the health check of the tests *)

Module clusterstest.
Import clusters.

(** [alwaysReadyHealthCheck]: [done] and the endpoint after the call. *)
Definition alwaysReadyHealthCheck (e : EndpointInfo) : bool * EndpointInfo :=
  let done := false in
  if IsReady e then (done, e)
  else (done, UpdateStatus true EmptyString EmptyString e).
End clusterstest.

(** ** More inputs of examples *)

Section more_examples.

Import clusters controllers.

(** A base callback whose serving config is not ready yet. *)
Definition notReady : error :=
  fmt.Errorf "dynamiccertificates: configuration not ready".

Definition failingCallback : GetConfigForClientFunc :=
  λ _, (None, Some notReady).

(** A base callback that leaves the choice of the config to the server:
    a nil config and a nil error. *)
Definition nilCallback : GetConfigForClientFunc :=
  λ _, (None, None).

(** A registry never answers ok with a nil cluster at the host a
    handshake asks for. *)
Definition answersWithCluster (m : Manager) (clientHello : tls.ClientHelloInfo)
  : Prop :=
  ∀ host, requestedHostname clientHello = (host, None) →
          Get m host ≠ (None, true).

(** The cluster's TLS config has something to overlay. *)
Definition hasMaterial (tlsConfig : tls.Config) : Prop :=
  tls.ClientCAs tlsConfig ≠ None ∨ tls.Certificates tlsConfig ≠ [].

(** A registry whose one cluster is registered under the address
    10.0.0.1 and serves with [cfg]. *)
Definition mappedByAddress (cfg : tls.Config) : Manager :=
  staticManager
    {["10.0.0.1" := setServing (Some cfg) None (NewClusterInfo "10.0.0.1")]}.

End more_examples.

(** ** The libraries behind the options *)

Module external.
(** The types the options take from outside the sources at hand, all
    opaque: option types, interfaces and configs of [k8s.io/apiserver],
    and the authorization options of the gateway. *)
Class Types := {
  RequestHeaderAuthenticationOptions : Type;
  RequestHeaderConfig : Type;
  ClientCertAuthenticationOptions : Type;
  CAContentProvider : Type;
  AuthorizationOptions : Type;
  GenericSecureServingOptions : Type;
  FeatureOptions : Type;
  ServerRunRest : Type;
  SNIVerifyOptionsProvider : Type;
  ClientProvider : Type;
  Authenticator : Type;
  SecurityDefinitions : Type;
  SecureServingInfo : Type;
  OpenAPIRest : Type;
}.
End external.

Module genericoptions.
Import external.

(** [genericoptions.ServerRunOptions]: the two fields the gateway reads
    and writes, and the rest. *)
Record ServerRunOptions `{!Types} := {
  AdvertiseAddress : list byte;
  ExternalHost : string;
  serverRunRest : ServerRunRest;
}.

Definition setExternalHost `{!Types} (host : string) (s : ServerRunOptions) :=
  {| AdvertiseAddress := AdvertiseAddress s; ExternalHost := host;
     serverRunRest := serverRunRest s |}.
End genericoptions.

Module genericserver.
Import external.

(** [genericserver.AuthenticationInfo] *)
Record AuthenticationInfo `{!Types} := {
  APIAudiences : list string;
  Authenticator_ : option Authenticator;
  SupportsBasicAuth : bool;
}.

(** [openapicommon.Config]: the field the gateway writes, and the rest. *)
Record OpenAPIConfig `{!Types} := {
  SecurityDefinitions_ : option SecurityDefinitions;
  openAPIRest : OpenAPIRest;
}.
End genericserver.

(** ** pkg/gateway/proxy/authenticator: the config the options build *)

Module proxyauthenticator.
Import external.

(** The declarations of this package are not among the sources: the
    fields are those [ToAuthenticationConfig] and [ApplyTo] read and write,
    under the names they have there. *)
Record ClientCertAuthenticationConfig `{!Types} := {
  CAContentProvider_ : option CAContentProvider;
  SNIVerifyOptionsPorvider : option SNIVerifyOptionsProvider;
}.

Record TokenAuthenticationConfig `{!Types} := {
  ClusterClientProvider : option ClientProvider;
}.

Record AuthenricatorConfig `{!Types} := {
  TokenSuccessCacheTTL : Z;
  TokenFailureCacheTTL : Z;
  APIAudiences : list string;
  Anonymous : bool;
  ClientCert : option ClientCertAuthenticationConfig;
  RequestHeaderConfig_ : option RequestHeaderConfig;
  TokenRequest : option TokenAuthenticationConfig;
}.

Definition setClientCert `{!Types} (v : option ClientCertAuthenticationConfig)
    (c : AuthenricatorConfig) :=
  {| TokenSuccessCacheTTL := TokenSuccessCacheTTL c;
     TokenFailureCacheTTL := TokenFailureCacheTTL c;
     APIAudiences := APIAudiences c; Anonymous := Anonymous c;
     ClientCert := v; RequestHeaderConfig_ := RequestHeaderConfig_ c;
     TokenRequest := TokenRequest c |}.

Definition setRequestHeaderConfig `{!Types} (v : option RequestHeaderConfig)
    (c : AuthenricatorConfig) :=
  {| TokenSuccessCacheTTL := TokenSuccessCacheTTL c;
     TokenFailureCacheTTL := TokenFailureCacheTTL c;
     APIAudiences := APIAudiences c; Anonymous := Anonymous c;
     ClientCert := ClientCert c; RequestHeaderConfig_ := v;
     TokenRequest := TokenRequest c |}.

Definition setTokenRequest `{!Types} (v : option TokenAuthenticationConfig)
    (c : AuthenricatorConfig) :=
  {| TokenSuccessCacheTTL := TokenSuccessCacheTTL c;
     TokenFailureCacheTTL := TokenFailureCacheTTL c;
     APIAudiences := APIAudiences c; Anonymous := Anonymous c;
     ClientCert := ClientCert c; RequestHeaderConfig_ := RequestHeaderConfig_ c;
     TokenRequest := v |}.
End proxyauthenticator.

(** ** pkg/gateway/proxy/options: authentication and secure serving *)

Module proxyoptions.
Import controllers external.

(** [AuthenticationOptions]; a [time.Duration] is its count of
    nanoseconds. *)
Record AuthenticationOptions `{!Types} := {
  APIAudiences : list string;
  ClientCert : option ClientCertAuthenticationOptions;
  RequestHeader : option RequestHeaderAuthenticationOptions;
  TokenSuccessCacheTTL : Z;
  TokenFailureCacheTTL : Z;
}.

(** [genericoptions.SecureServingOptionsWithLoopback] embeds a pointer to
    the generic options, and the gateway's [SecureServingOptions] embeds a
    pointer to that. *)
Record SecureServingOptionsWithLoopback `{!Types} := {
  SecureServingOptions_ : option GenericSecureServingOptions;
}.

Record SecureServingOptions `{!Types} := {
  SecureServingOptionsWithLoopback_ : option SecureServingOptionsWithLoopback;
}.

(** The methods the options call outside the sources at hand, each the
    function the library makes of it. A method that the sources call on
    a pointer they have not checked takes the pointer, and may panic. *)
Class Library `{!Types} := {
  (** [RequestHeaderAuthenticationOptions.Validate] and
      [ToAuthenticationRequestHeaderConfig]; the field [CAContentProvider]
      of the config *)
  RequestHeaderValidate : RequestHeaderAuthenticationOptions → list error;
  ToAuthenticationRequestHeaderConfig :
    RequestHeaderAuthenticationOptions → option RequestHeaderConfig * option error;
  RequestHeaderCAContentProvider : RequestHeaderConfig → option CAContentProvider;
  (** [ClientCertAuthenticationOptions.GetClientCAContentProvider] *)
  GetClientCAContentProvider :
    ClientCertAuthenticationOptions → option CAContentProvider * option error;
  (** [Validate] of the gateway's authorization options *)
  AuthorizationValidate : option AuthorizationOptions → Outcome (list error);
  (** [Validate], called on the embedded pointer to the loopback wrapper *)
  WithLoopbackValidate :
    option SecureServingOptionsWithLoopback → Outcome (list error);
  (** [FeatureOptions.Validate] and [ServerRunOptions.Validate] *)
  FeaturesValidate : FeatureOptions → list error;
  ServerRunValidate : genericoptions.ServerRunOptions → list error;
  (** [ServerRunOptions.DefaultAdvertiseAddress(secure)]: the options after
      the call, and its error *)
  DefaultAdvertiseAddress :
    genericoptions.ServerRunOptions → option GenericSecureServingOptions →
    genericoptions.ServerRunOptions * option error;
  (** [MaybeDefaultWithSelfSignedCerts(publicAddress, alternateDNS,
      alternateIPs)], called on the gateway's secure serving options: the
      options after the call, and its error *)
  MaybeDefaultWithSelfSignedCerts :
    SecureServingOptions → string → list string → list (list byte) →
    Outcome (SecureServingOptions * option error);
  (** [net.IP.String] *)
  IPString : list byte → string;
  (** [AuthenticationInfo.ApplyClientCert(clientCA, servingInfo)]: the two
      objects after the call, and its error *)
  ApplyClientCert :
    option CAContentProvider →
    genericserver.AuthenticationInfo → option SecureServingInfo →
    genericserver.AuthenticationInfo * option SecureServingInfo * option error;
  (** [New] of the authenticator config: the authenticator, the security
      definitions, and its error *)
  New :
    proxyauthenticator.AuthenricatorConfig →
    option Authenticator * option SecurityDefinitions * option error;
}.

Section methods.
Context `{!Types} `{!Library}.

(** [AuthenticationOptions.Validate]: the receiver is read without a
    check for nil. *)
Definition AuthenticationValidate (o : option AuthenticationOptions)
  : Outcome (list error) :=
  match o with
  | None => Panicked
  | Some o =>
      let errs := [] in
      let errs :=
        match RequestHeader o with
        | Some rh => errs ++ RequestHeaderValidate rh
        | None => errs
        end in
      Returned errs
  end.

(** [SecureServingOptions.Validate] *)
Definition SecureServingValidate (s : option SecureServingOptions)
  : Outcome (list error) :=
  match s with
  | None => Returned []
  | Some s =>
      let errs := [] in
      bind (WithLoopbackValidate (SecureServingOptionsWithLoopback_ s))
           (λ more, Returned (errs ++ more))
  end.

(** [AuthenticationOptions.ToAuthenticationConfig]: the pointer to the
    config, and the error. *)
Definition ToAuthenticationConfig (o : option AuthenticationOptions)
    (sniVerifyOptionsProvider : option SNIVerifyOptionsProvider)
    (clientProvider : option ClientProvider)
  : option proxyauthenticator.AuthenricatorConfig * option error :=
  match o with
  | None => (None, None)
  | Some o =>
      let cfg :=
        {| proxyauthenticator.TokenSuccessCacheTTL := TokenSuccessCacheTTL o;
           proxyauthenticator.TokenFailureCacheTTL := TokenFailureCacheTTL o;
           proxyauthenticator.APIAudiences := APIAudiences o;
           proxyauthenticator.Anonymous := true;
           proxyauthenticator.ClientCert := None;
           proxyauthenticator.RequestHeaderConfig_ := None;
           proxyauthenticator.TokenRequest := None |} in
      let withClientCert : proxyauthenticator.AuthenricatorConfig + error :=
        match ClientCert o with
        | Some cc =>
            let '(clientCAContentProvider, err) := GetClientCAContentProvider cc in
            match err with
            | Some err => inr err
            | None =>
                inl (proxyauthenticator.setClientCert
                       (Some {| proxyauthenticator.CAContentProvider_ :=
                                  clientCAContentProvider;
                                proxyauthenticator.SNIVerifyOptionsPorvider := None |})
                       cfg)
            end
        | None => inl cfg
        end in
      match withClientCert with
      | inr err => (None, Some err)
      | inl cfg =>
          let withRequestHeader : proxyauthenticator.AuthenricatorConfig + error :=
            match RequestHeader o with
            | Some rh =>
                let '(requestHeader, err) := ToAuthenticationRequestHeaderConfig rh in
                match err with
                | Some err => inr err
                | None => inl (proxyauthenticator.setRequestHeaderConfig requestHeader cfg)
                end
            | None => inl cfg
            end in
          match withRequestHeader with
          | inr err => (None, Some err)
          | inl cfg =>
              let cfg :=
                match sniVerifyOptionsProvider with
                | Some provider =>
                    (* dynamic sni verify options provider *)
                    let clientCert :=
                      match proxyauthenticator.ClientCert cfg with
                      | Some cc => cc
                      | None =>
                          {| proxyauthenticator.CAContentProvider_ := None;
                             proxyauthenticator.SNIVerifyOptionsPorvider := None |}
                      end in
                    proxyauthenticator.setClientCert
                      (Some {| proxyauthenticator.CAContentProvider_ :=
                                 proxyauthenticator.CAContentProvider_ clientCert;
                               proxyauthenticator.SNIVerifyOptionsPorvider :=
                                 Some provider |})
                      cfg
                | None => cfg
                end in
              let cfg :=
                match clientProvider with
                | Some provider =>
                    proxyauthenticator.setTokenRequest
                      (Some {| proxyauthenticator.ClusterClientProvider :=
                                 Some provider |})
                      cfg
                | None => cfg
                end in
              (Some cfg, None)
          end
      end
  end.

(** The objects [ApplyTo] writes to. *)
Record Applied := {
  authenticationInfo : genericserver.AuthenticationInfo;
  servingInfo : option SecureServingInfo;
  openAPIConfig : option genericserver.OpenAPIConfig;
}.

Definition setAuthenticator (v : option Authenticator)
    (a : genericserver.AuthenticationInfo) :=
  {| genericserver.APIAudiences := genericserver.APIAudiences a;
     genericserver.Authenticator_ := v;
     genericserver.SupportsBasicAuth := genericserver.SupportsBasicAuth a |}.

Definition setAPIAudiences (v : list string)
    (a : genericserver.AuthenticationInfo) :=
  {| genericserver.APIAudiences := v;
     genericserver.Authenticator_ := genericserver.Authenticator_ a;
     genericserver.SupportsBasicAuth := genericserver.SupportsBasicAuth a |}.

Definition setSupportsBasicAuth (v : bool)
    (a : genericserver.AuthenticationInfo) :=
  {| genericserver.APIAudiences := genericserver.APIAudiences a;
     genericserver.Authenticator_ := genericserver.Authenticator_ a;
     genericserver.SupportsBasicAuth := v |}.

(** [AuthenticationOptions.ApplyTo], on a non-nil [authenticationInfo]:
    the three objects after the call, and the error. *)
Definition ApplyTo (o : option AuthenticationOptions) (st : Applied)
    (sniVerifyOptionsProvider : option SNIVerifyOptionsProvider)
    (clientProvider : option ClientProvider)
  : Applied * option error :=
  match o with
  | None =>
      ({| authenticationInfo := setAuthenticator None (authenticationInfo st);
          servingInfo := servingInfo st; openAPIConfig := openAPIConfig st |},
       None)
  | Some _ =>
      match ToAuthenticationConfig o sniVerifyOptionsProvider clientProvider with
      | (_, Some err) => (st, Some err)
      | (None, None) =>
          (* the config of non-nil options is not nil *)
          (st, None)
      | (Some cfg, None) =>
          (* get the clientCA information *)
          let apply (provider : option CAContentProvider) (st : Applied) :=
            let '(info, serving, err) :=
              ApplyClientCert provider (authenticationInfo st) (servingInfo st) in
            ({| authenticationInfo := info; servingInfo := serving;
                openAPIConfig := openAPIConfig st |}, err) in
          let '(st, err) :=
            match proxyauthenticator.ClientCert cfg with
            | Some {| proxyauthenticator.CAContentProvider_ := Some provider |} =>
                let '(st, err) := apply (Some provider) st in
                (st, (λ err, fmt.Errorf ("unable to assign client CA file: "
                                         +:+ Error err)) <$> err)
            | _ => (st, None)
            end in
          match err with
          | Some err => (st, Some err)
          | None =>
              let '(st, err) :=
                match proxyauthenticator.RequestHeaderConfig_ cfg with
                | Some rh =>
                    let '(st, err) := apply (RequestHeaderCAContentProvider rh) st in
                    (st, (λ err, fmt.Errorf
                                   ("unable to load request-header-client-ca-file: "
                                    +:+ Error err)) <$> err)
                | None => (st, None)
                end in
              match err with
              | Some err => (st, Some err)
              | None =>
                  let info :=
                    setAPIAudiences (proxyauthenticator.APIAudiences cfg)
                                    (authenticationInfo st) in
                  (* create authenticator *)
                  let '(req, securityDefinitions, err) := New cfg in
                  match err with
                  | Some err =>
                      ({| authenticationInfo := info; servingInfo := servingInfo st;
                          openAPIConfig := openAPIConfig st |}, Some err)
                  | None =>
                      let info := setAuthenticator req info in
                      let openAPI :=
                        match openAPIConfig st with
                        | Some openAPI =>
                            Some {| genericserver.SecurityDefinitions_ :=
                                      securityDefinitions;
                                    genericserver.openAPIRest :=
                                      genericserver.openAPIRest openAPI |}
                        | None => None
                        end in
                      let info := setSupportsBasicAuth false info in
                      ({| authenticationInfo := info; servingInfo := servingInfo st;
                          openAPIConfig := openAPI |}, None)
                  end
              end
          end
      end
  end.
End methods.
End proxyoptions.

(** ** cmd/kube-gateway/app/options *)

Module cmdoptions.
Import controllers external.

(** [ProxyOptions], without the fields that neither [Validate] nor
    [Complete] reads (ProcessInfo, Logging, FeatureGate). *)
Record ProxyOptions `{!Types} := {
  Authentication : option proxyoptions.AuthenticationOptions;
  Authorization : option AuthorizationOptions;
  SecureServing : option proxyoptions.SecureServingOptions;
  UpstreamCluster : option options.UpstreamClusterOptions;
  Features : option FeatureOptions;
  ServerRun : option genericoptions.ServerRunOptions;
}.

Record Options `{!Types} := { Proxy : option ProxyOptions }.

Section methods.
Context `{!Types} `{!proxyoptions.Library}.

Definition setServerRun (v : option genericoptions.ServerRunOptions)
    (o : ProxyOptions) :=
  {| Authentication := Authentication o; Authorization := Authorization o;
     SecureServing := SecureServing o; UpstreamCluster := UpstreamCluster o;
     Features := Features o; ServerRun := v |}.

Definition setSecureServing (v : option proxyoptions.SecureServingOptions)
    (o : ProxyOptions) :=
  {| Authentication := Authentication o; Authorization := Authorization o;
     SecureServing := v; UpstreamCluster := UpstreamCluster o;
     Features := Features o; ServerRun := ServerRun o |}.

(** [ProxyOptions.Validate], on a non-nil receiver. *)
Definition ProxyValidate (o : ProxyOptions) : Outcome (list error) :=
  let errs := [] in
  bind (proxyoptions.AuthenticationValidate (Authentication o)) (λ more,
  let errs := errs ++ more in
  bind (proxyoptions.AuthorizationValidate (Authorization o)) (λ more,
  let errs := errs ++ more in
  bind (proxyoptions.SecureServingValidate (SecureServing o)) (λ more,
  let errs := errs ++ more in
  let errs := errs ++ options.Validate (UpstreamCluster o) in
  let errs :=
    match Features o with
    | Some features => errs ++ proxyoptions.FeaturesValidate features
    | None => errs
    end in
  let errs :=
    match ServerRun o with
    | Some serverRun => errs ++ proxyoptions.ServerRunValidate serverRun
    | None => errs
    end in
  Returned errs))).

(** [Options.Validate]: the method of the proxy options is called on the
    pointer as it is. *)
Definition Validate (o : Options) : Outcome (list error) :=
  let errs := [] in
  match Proxy o with
  | None => Panicked
  | Some proxy => bind (ProxyValidate proxy) (λ more, Returned (errs ++ more))
  end.

(** The alternate DNS names of the self-signed certificate. *)
Definition alternateDNS : list string :=
  ["kubernetes.default.svc"; "kubernetes.default"; "kubernetes"].

(** The first half of [ProxyOptions.Complete]: the advertise address and
    the external host of the server run options. [osHostname] is what
    [os.Hostname()] returns. *)
Definition completeServerRun (o : ProxyOptions)
    (osHostname : string * option error) (sink : klog.Sink)
  : Outcome (ProxyOptions * option error) * klog.Sink :=
  match ServerRun o with
  | None => (Returned (o, None), sink)
  | Some serverRun =>
      let defaulted : Outcome (genericoptions.ServerRunOptions * option error) :=
        match SecureServing o with
        | Some secureServing =>
            match proxyoptions.SecureServingOptionsWithLoopback_ secureServing with
            | Some withLoopback =>
                Returned (proxyoptions.DefaultAdvertiseAddress serverRun
                            (proxyoptions.SecureServingOptions_ withLoopback))
            | None => Panicked
            end
        | None => Returned (serverRun, None)
        end in
      match defaulted with
      | Panicked => (Panicked, sink)
      | Returned (serverRun, Some err) =>
          (Returned (setServerRun (Some serverRun) o, Some err), sink)
      | Returned (serverRun, None) =>
          if (strings.len (genericoptions.ExternalHost serverRun) =? 0)%Z
          then
            let chosen : string + error :=
              if (0 <? length (genericoptions.AdvertiseAddress serverRun))%nat
              then inl (proxyoptions.IPString
                          (genericoptions.AdvertiseAddress serverRun))
              else
                match osHostname with
                | (hostname, None) => inl hostname
                | (_, Some err) =>
                    inr (fmt.Errorf ("error finding host name: " +:+ Error err))
                end in
            match chosen with
            | inr err => (Returned (setServerRun (Some serverRun) o, Some err), sink)
            | inl host =>
                (Returned
                   (setServerRun
                      (Some (genericoptions.setExternalHost host serverRun)) o,
                    None),
                 klog.log
                   (klog.InfoDepth 0
                      ("external host was not specified, using " +:+ host))
                   sink)
            end
          else (Returned (setServerRun (Some serverRun) o, None), sink)
      end
  end.

(** The second half: the self-signed certificates of secure serving. The
    advertise address is read from the server run options without a check
    for nil. *)
Definition completeSecureServing (o : ProxyOptions)
  : Outcome (ProxyOptions * option error) :=
  match SecureServing o with
  | Some secureServing =>
      match ServerRun o with
      | None => Panicked
      | Some serverRun =>
          bind (proxyoptions.MaybeDefaultWithSelfSignedCerts secureServing
                  (proxyoptions.IPString
                     (genericoptions.AdvertiseAddress serverRun))
                  alternateDNS [])
               (λ '(secureServing, err),
                  Returned
                    (setSecureServing (Some secureServing) o,
                     (λ err, fmt.Errorf
                               ("error creating self-signed certificates: "
                                +:+ Error err)) <$> err))
      end
  | None => Returned (o, None)
  end.

(** [ProxyOptions.Complete], on a non-nil receiver: the options after the
    call and the error it returns, and the log. [klog.Infof] is recorded as
    the formatted message at depth 0. *)
Definition ProxyComplete (o : ProxyOptions)
    (osHostname : string * option error) (sink : klog.Sink)
  : Outcome (ProxyOptions * option error) * klog.Sink :=
  match completeServerRun o osHostname sink with
  | (Returned (o, None), sink) => (completeSecureServing o, sink)
  | stopped => stopped
  end.

(** [Options.Complete] *)
Definition Complete (o : Options) (osHostname : string * option error)
    (sink : klog.Sink) : Outcome (Options * option error) * klog.Sink :=
  match Proxy o with
  | None => (Panicked, sink)
  | Some proxy =>
      let '(done, sink) := ProxyComplete proxy osHostname sink in
      (bind done (λ '(proxy, err), Returned ({| Proxy := Some proxy |}, err)),
       sink)
  end.
End methods.
End cmdoptions.

(** ** cmd/kube-gateway/app/server.go *)

Module cmdapp.
Import controllers external.

(** How [RunE] of the command ends: the process exits after printing the
    version; an error is returned before the server is run, from
    [Complete] or as the aggregate of the errors of [Validate]; or [Run]
    is called and [RunE] returns what it returns. *)
Inductive Ended `{!Types} :=
| VersionPrinted
| NotCompleted (err : error)
| Invalid (errs : list error)
| Ran (completeOptions : cmdoptions.Options) (err : option error).

Section command.
Context `{!Types} `{!proxyoptions.Library}.

(** [RunE] of [NewKubeGatewayCommand], on the options [s] after the flags
    are parsed. [versionRequested] is the state of the version flag, which
    [verflag.PrintAndExitIfRequested] reads; [printedFlags] is what
    [utilflag.PrintFlags] writes to the log; and [Run] is the function
    [Run] with the stop channel of the signal handler, which returns an
    error and writes to the log. *)
Definition RunE (versionRequested : bool) (printedFlags : list klog.Entry)
    (Run : cmdoptions.Options → klog.Sink → option error * klog.Sink)
    (s : cmdoptions.Options) (osHostname : string * option error)
    (sink : klog.Sink) : Outcome Ended * klog.Sink :=
  if versionRequested then (Returned VersionPrinted, sink)
  else
    let sink := sink ++ printedFlags in
    (* set default options *)
    match cmdoptions.Complete s osHostname sink with
    | (Panicked, sink) => (Panicked, sink)
    | (Returned (s, Some err), sink) => (Returned (NotCompleted err), sink)
    | (Returned (s, None), sink) =>
        (* validate options *)
        match cmdoptions.Validate s with
        | Panicked => (Panicked, sink)
        | Returned errs =>
            if negb (length errs =? 0)%nat
            then (Returned (Invalid errs), sink)
            else let '(err, sink) := Run s sink in
                 (Returned (Ran s err), sink)
        end
    end.
End command.
End cmdapp.

(** ** A library for the examples *)

Module example.
Import controllers external.

(** Every opaque type is a string or the unit. *)
#[local] Instance types : Types :=
  {| RequestHeaderAuthenticationOptions := string;
     RequestHeaderConfig := string;
     ClientCertAuthenticationOptions := string;
     CAContentProvider := string;
     AuthorizationOptions := unit;
     GenericSecureServingOptions := unit;
     FeatureOptions := unit;
     ServerRunRest := unit;
     SNIVerifyOptionsProvider := string;
     ClientProvider := string;
     Authenticator := string;
     SecurityDefinitions := string;
     SecureServingInfo := list string;
     OpenAPIRest := unit |}.

(** A library in which request-header and client-cert options are the
    names of their CA files (the empty name for none, no file under the
    name missing.crt, and a CA that cannot be applied under the name
    expired.crt), validation finds nothing, an unset advertise address defaults to 10.0.0.1, and the
    self-signed certificates are always generated. *)
#[local] Instance library : proxyoptions.Library :=
  {| proxyoptions.RequestHeaderValidate := λ _, [];
     proxyoptions.ToAuthenticationRequestHeaderConfig := λ file,
       (if (String.length file =? 0)%nat then None else Some file, None);
     proxyoptions.RequestHeaderCAContentProvider := λ file, Some file;
     proxyoptions.GetClientCAContentProvider := λ file,
       if bool_decide (file = "missing.crt")
       then (None, Some (fmt.Errorf "open missing.crt: no such file or directory"))
       else (if (String.length file =? 0)%nat then None else Some file, None);
     proxyoptions.AuthorizationValidate := λ _, Returned [];
     proxyoptions.WithLoopbackValidate := λ withLoopback,
       match withLoopback with
       | Some _ => Returned []
       | None => Panicked
       end;
     proxyoptions.FeaturesValidate := λ _, [];
     proxyoptions.ServerRunValidate := λ _, [];
     proxyoptions.DefaultAdvertiseAddress := λ serverRun _,
       (if (length (genericoptions.AdvertiseAddress serverRun) =? 0)%nat
        then {| genericoptions.AdvertiseAddress := [x0a; x00; x00; x01];
                genericoptions.ExternalHost :=
                  genericoptions.ExternalHost serverRun;
                genericoptions.serverRunRest := tt |}
        else serverRun, None);
     proxyoptions.MaybeDefaultWithSelfSignedCerts := λ secureServing _ _ _,
       Returned (secureServing, None);
     proxyoptions.IPString := λ ip,
       if bool_decide (ip = [x0a; x00; x00; x01]) then "10.0.0.1" else "?";
     proxyoptions.ApplyClientCert := λ provider info serving,
       if bool_decide (provider = Some "expired.crt")
       then (info, serving, Some (fmt.Errorf "x509: certificate has expired"))
       else
         (info,
          match provider, serving with
          | Some ca, Some cas => Some (cas ++ [ca])
          | _, _ => serving
          end,
          None);
     proxyoptions.New := λ _, (Some "union", Some "BearerToken", None) |}.

(** The options of [NewOptions], with and without the flag
    [--upstream-cluster-file]. *)
Definition proxyOptions (path : string) : @cmdoptions.ProxyOptions types :=
  {| cmdoptions.Authentication :=
       Some {| proxyoptions.APIAudiences := [];
               proxyoptions.ClientCert := Some EmptyString;
               proxyoptions.RequestHeader := Some EmptyString;
               proxyoptions.TokenSuccessCacheTTL := 600000000000;
               proxyoptions.TokenFailureCacheTTL := 10000000000 |};
     cmdoptions.Authorization := Some tt;
     cmdoptions.SecureServing :=
       Some {| proxyoptions.SecureServingOptionsWithLoopback_ :=
                 Some {| proxyoptions.SecureServingOptions_ := Some tt |} |};
     cmdoptions.UpstreamCluster := Some {| options.Path := path |};
     cmdoptions.Features := Some tt;
     cmdoptions.ServerRun :=
       Some {| genericoptions.AdvertiseAddress := [];
               genericoptions.ExternalHost := EmptyString;
               genericoptions.serverRunRest := tt |} |}.

(** A run of the server that ends without an error. *)
Definition served (_ : @cmdoptions.Options types) (sink : klog.Sink)
  : option error * klog.Sink :=
  (None, sink ++ [klog.InfoDepth 0 "Version: v1.0"]).

(** A run that fails. *)
Definition crashed (_ : @cmdoptions.Options types) (sink : klog.Sink)
  : option error * klog.Sink :=
  (Some (fmt.Errorf "listen tcp :6443: bind: address already in use"), sink).

(** The host name of the machine, and a failed lookup of it. *)
Definition hostname : string * option error := ("gateway-0", None).


(** The server run options after the defaults. *)
Definition defaultedServerRun : @genericoptions.ServerRunOptions types :=
  {| genericoptions.AdvertiseAddress := [x0a; x00; x00; x01];
     genericoptions.ExternalHost := EmptyString;
     genericoptions.serverRunRest := tt |}.

(** The options of [NewOptions] after [Complete]. *)
Definition completedOptions (path : string) : @cmdoptions.ProxyOptions types :=
  cmdoptions.setServerRun
    (Some (genericoptions.setExternalHost "10.0.0.1" defaultedServerRun))
    (proxyOptions path).


(** Authentication options with the given client CA file. *)
Definition authentication (clientCA : string)
  : @proxyoptions.AuthenticationOptions types :=
  {| proxyoptions.APIAudiences := ["gateway"];
     proxyoptions.ClientCert := Some clientCA;
     proxyoptions.RequestHeader := Some EmptyString;
     proxyoptions.TokenSuccessCacheTTL := 600000000000;
     proxyoptions.TokenFailureCacheTTL := 10000000000 |}.

(** Authentication options with a client CA file and a request header
    CA file. *)
Definition authenticationWith (clientCA requestHeaderCA : string)
  : @proxyoptions.AuthenticationOptions types :=
  {| proxyoptions.APIAudiences := ["gateway"];
     proxyoptions.ClientCert := Some clientCA;
     proxyoptions.RequestHeader := Some requestHeaderCA;
     proxyoptions.TokenSuccessCacheTTL := 600000000000;
     proxyoptions.TokenFailureCacheTTL := 10000000000 |}.

(** The objects of a recommended config before [ApplyTo]. *)
Definition recommended : @proxyoptions.Applied types :=
  {| proxyoptions.authenticationInfo :=
       {| genericserver.APIAudiences := [];
          genericserver.Authenticator_ := None;
          genericserver.SupportsBasicAuth := true |};
     proxyoptions.servingInfo := Some [];
     proxyoptions.openAPIConfig :=
       Some {| genericserver.SecurityDefinitions_ := None;
               genericserver.openAPIRest := tt |} |}.
End example.

(** ** Vocabulary of the completion of the options *)

Section completion_vocabulary.

Import controllers external cmdoptions.

Context `{!Types} `{!proxyoptions.Library}.

Implicit Types (o : ProxyOptions) (h : string * option error).



End completion_vocabulary.

(* ===================================================================== *)
(** * Part II: the properties                                             *)
(* ===================================================================== *)

(** ** The HTTP error-log writer *)

Section error_log_writer.

Import app.

(** [bytes.HasPrefix] decides the prefix relation on byte slices. *)
Lemma HasPrefix_prefix_of (s p : list byte) :
  bytes.HasPrefix s p = true ↔ p `prefix_of` s.
Proof.
  unfold bytes.HasPrefix. rewrite andb_true_iff, Nat.leb_le, bool_decide_eq_true.
  split.
  - intros [_ Htake]. exists (drop (length p) s).
    rewrite <- Htake at 1. symmetry. apply take_drop.
  - intros [k ->]. split.
    + rewrite length_app. lia.
    + by rewrite take_app_length.
Qed.

(** C10: [Write] returns [(0, nil)] and logs nothing when the bytes begin
    with "http: TLS handshake error from"; for every other input it logs
    the bytes as a string and returns [(len(data), nil)]. Either way the
    error it returns is nil. *)
Theorem Write_filters_handshake_noise (data : list byte) (sink : klog.Sink) :
  Write data sink =
    (if decide (tlsHandshakeNoise `prefix_of` data)
     then ((0%Z, None), sink)
     else ((Z.of_nat (length data), None),
           sink ++ [klog.InfoDepth 1 (string_of_list_byte data)]))
  ∧ (Write data sink).1.2 = None.
Proof.
  unfold Write. fold tlsHandshakeNoise.
  destruct (bytes.HasPrefix data tlsHandshakeNoise) eqn:Hp.
  - apply HasPrefix_prefix_of in Hp. by rewrite decide_True.
  - rewrite decide_False; [done|].
    intros Hpre. apply HasPrefix_prefix_of in Hpre. congruence.
Qed.

(** A handshake error line is dropped, any other line reaches the log. *)
Lemma Write_filters_handshake_noise_witness :
  Write (list_byte_of_string "http: TLS handshake error from 10.0.0.7:5531: EOF") []
    = ((0%Z, None), [])
  ∧ Write (list_byte_of_string "http: panic serving") []
    = ((19%Z, None), [klog.InfoDepth 1 "http: panic serving"]).
Proof.
  split.
  - rewrite (proj1 (Write_filters_handshake_noise _ _)). reflexivity.
  - rewrite (proj1 (Write_filters_handshake_noise _ _)). reflexivity.
Defined.

End error_log_writer.

(** ** Validation of the upstream cluster options *)

Section upstream_cluster_options.

Import options.

Lemma string_length_zero (s : string) :
  (String.length s =? 0)%nat = true ↔ s = EmptyString.
Proof. rewrite Nat.eqb_eq. destruct s; naive_solver. Qed.

(** C8: on options with an empty [Path], [Validate] returns exactly the
    error that the flag must be set; on options with any other [Path] it
    returns no error. So the list of errors is non-empty if and only if the
    path is empty. (On a nil receiver there is no path and no error.) *)
Theorem Validate_requires_path (s : UpstreamClusterOptions) :
  Validate (Some s) = (if decide (Path s = EmptyString) then [mustBeSet] else [])
  ∧ (Validate (Some s) ≠ [] ↔ Path s = EmptyString)
  ∧ Validate None = [].
Proof.
  assert (Hv : Validate (Some s)
               = if decide (Path s = EmptyString) then [mustBeSet] else []).
  { unfold Validate.
    destruct (String.length (Path s) =? 0)%nat eqn:Hlen.
    - apply string_length_zero in Hlen. by rewrite decide_True.
    - rewrite decide_False; [done|].
      intros Hempty. apply string_length_zero in Hempty. congruence. }
  split; [exact Hv|]. split; [|done].
  rewrite Hv. case_decide; naive_solver.
Qed.

Lemma Validate_requires_path_witness :
  Validate (Some NewUpstreamClusterOptions) = [mustBeSet]
  ∧ Validate (Some {| Path := "/etc/kube-gateway/upstream.yaml" |}) = [].
Proof.
  split.
  - rewrite (proj1 (Validate_requires_path _)). reflexivity.
  - rewrite (proj1 (Validate_requires_path _)). reflexivity.
Defined.

End upstream_cluster_options.

(** ** The health probe *)

Section health_probe.

Import clusters controllers.

(** The probe never asks to be stopped and never renames the endpoint. *)
Lemma GatewayHealthCheck_keeps_identity result e sink :
  let '(done, e', _) := GatewayHealthCheck result e sink in
  done = false ∧ Cluster e' = Cluster e ∧ Endpoint e' = Endpoint e.
Proof.
  unfold GatewayHealthCheck.
  destruct (ResultError result) as [err|].
  - destruct (IsTimeout err); [done|]. by destruct (APIStatus err).
  - by destruct (ResultStatusCode result =? StatusOK)%Z.
Qed.

(** C2: what a probe leaves on the endpoint. A 200 response marks it ready
    with empty reason and message. A timeout error marks it not ready with
    reason "Timeout"; an error that is no timeout and carries an API status
    marks it not ready with the reason and message of that status; any
    other error marks it not ready with reason "Failure"; a response other
    than 200 marks it not ready with reason "NotReady" and a message that
    ends in the status code. *)
Theorem GatewayHealthCheck_classifies
    (result : Result) (e : EndpointInfo) (sink : klog.Sink) :
  let e' := (GatewayHealthCheck result e sink).1.2 in
  (ResultError result = None → ResultStatusCode result = 200%Z →
     status e' = (true, EmptyString, EmptyString))
  ∧ (∀ err, ResultError result = Some err → IsTimeout err = true →
       status e' = (false, "Timeout", Error err))
  ∧ (∀ err st, ResultError result = Some err → IsTimeout err = false →
       APIStatus err = Some st →
       status e' = (false, metav1.Reason st, metav1.Message st))
  ∧ (∀ err, ResultError result = Some err → IsTimeout err = false →
       APIStatus err = None →
       status e' = (false, "Failure", Error err))
  ∧ (ResultError result = None → ResultStatusCode result ≠ 200%Z →
       status e' =
         (false, "NotReady",
          "request " +:+ Endpoint e +:+ "/readyz, got response code is "
          +:+ fmt.Sprint (ResultStatusCode result))).
Proof.
  unfold GatewayHealthCheck, StatusOK. cbn zeta.
  split; [|split; [|split; [|split]]].
  - intros -> ->. reflexivity.
  - intros err -> ->. reflexivity.
  - intros err st -> -> ->. reflexivity.
  - intros err -> -> ->. reflexivity.
  - intros -> Hcode. apply Z.eqb_neq in Hcode. rewrite Hcode. reflexivity.
Qed.

(** The five outcomes of a probe, on one endpoint. *)
Lemma GatewayHealthCheck_classifies_witness :
  status (GatewayHealthCheck (probeOf None 200) probed []).1.2
    = (true, EmptyString, EmptyString)
  ∧ status (GatewayHealthCheck (probeOf (Some timeoutError) 0) probed []).1.2
    = (false, "Timeout", "context deadline exceeded")
  ∧ status (GatewayHealthCheck (probeOf (Some statusError) 0) probed []).1.2
    = (false, "ServiceUnavailable", "etcd is not ready")
  ∧ status (GatewayHealthCheck
              (probeOf (Some (fmt.Errorf "connection refused")) 0) probed []).1.2
    = (false, "Failure", "connection refused")
  ∧ status (GatewayHealthCheck (probeOf None 204) probed []).1.2
    = (false, "NotReady",
       "request https://127.0.0.1:443/readyz, got response code is 204").
Proof.
  pose proof (GatewayHealthCheck_classifies (probeOf None 200) probed [])
    as (Hready & _).
  pose proof (GatewayHealthCheck_classifies
                (probeOf (Some timeoutError) 0) probed [])
    as (_ & Htimeout & _).
  pose proof (GatewayHealthCheck_classifies
                (probeOf (Some statusError) 0) probed [])
    as (_ & _ & Hstatus & _).
  pose proof (GatewayHealthCheck_classifies
                (probeOf (Some (fmt.Errorf "connection refused")) 0) probed [])
    as (_ & _ & _ & Hfailure & _).
  pose proof (GatewayHealthCheck_classifies (probeOf None 204) probed [])
    as (_ & _ & _ & _ & Hnotready).
  split; [|split; [|split; [|split]]].
  - apply Hready; reflexivity.
  - apply (Htimeout timeoutError); reflexivity.
  - apply (Hstatus statusError serviceUnavailable); reflexivity.
  - apply (Hfailure (fmt.Errorf "connection refused")); reflexivity.
  - apply Hnotready; [reflexivity | discriminate].
Defined.

End health_probe.

(** ** Host names and ports *)

Section host_port.

Import strings.

Lemma IndexByte_lower (s : string) (c : ascii) : (-1 <= IndexByte s c)%Z.
Proof.
  induction s as [|a s IH]; simpl; [lia|].
  destruct (Ascii.eqb a c); [lia|].
  destruct (IndexByte s c <? 0)%Z eqn:Hneg; lia.
Qed.

(** A byte that has no first occurrence has no last one. *)
Lemma LastIndexByte_absent (s : string) (c : ascii) :
  IndexByte s c = (-1)%Z → LastIndexByte s c = (-1)%Z.
Proof.
  induction s as [|a s IH]; simpl; [done|].
  destruct (Ascii.eqb a c); [discriminate|].
  pose proof (IndexByte_lower s c).
  destruct (IndexByte s c <? 0)%Z eqn:Hneg; [|lia].
  intros _. rewrite IH by lia. reflexivity.
Qed.

(** The last colon of [host:port] is the one before a colon-free port. *)
Lemma LastIndexByte_separator (host port : string) (c : ascii) :
  IndexByte port c = (-1)%Z →
  LastIndexByte (host +:+ String c port) c = len host.
Proof.
  intros Hport. unfold len.
  induction host as [|a host IH]; simpl.
  - rewrite (LastIndexByte_absent _ _ Hport). simpl.
    by rewrite Ascii.eqb_refl.
  - rewrite IH.
    destruct (0 <=? Z.of_nat (String.length host))%Z eqn:Hle; lia.
Qed.

Lemma slice_prefix (host rest : string) :
  slice (host +:+ rest) 0 (len host) = host.
Proof.
  unfold slice, len. rewrite Z.sub_0_r, Nat2Z.id.
  change (Z.to_nat 0) with 0%nat.
  induction host as [|a host IH]; simpl.
  - by destruct rest.
  - by rewrite IH.
Qed.

Lemma HostWithoutPort_strips (host port : string) :
  IndexByte port ":" = (-1)%Z →
  gatewaynet.HostWithoutPort (host +:+ ":" +:+ port) = host.
Proof.
  intros Hport. unfold gatewaynet.HostWithoutPort.
  change (host +:+ ":" +:+ port) with (host +:+ String ":" port).
  rewrite (LastIndexByte_separator _ _ _ Hport).
  assert (Hge : (len host <? 0)%Z = false)
    by (apply Z.ltb_ge; unfold len; lia).
  rewrite Hge. apply slice_prefix.
Qed.

Lemma HostWithoutPort_no_port (host : string) :
  IndexByte host ":" = (-1)%Z → gatewaynet.HostWithoutPort host = host.
Proof.
  intros Hhost. unfold gatewaynet.HostWithoutPort.
  by rewrite (LastIndexByte_absent _ _ Hhost).
Qed.

Lemma IndexByte_app_absent (h t : string) (c : ascii) :
  IndexByte h c = (-1)%Z → IndexByte t c = (-1)%Z →
  IndexByte (h +:+ t) c = (-1)%Z.
Proof.
  intros Hh Ht. induction h as [|a h IH]; simpl in *; [done|].
  destruct (Ascii.eqb a c); [discriminate|].
  pose proof (IndexByte_lower h c).
  destruct (IndexByte h c <? 0)%Z eqn:Hneg; [|lia].
  rewrite IH by lia. reflexivity.
Qed.

Lemma IndexByte_cons_absent (a c : ascii) (t : string) :
  a ≠ c → IndexByte t c = (-1)%Z → IndexByte (String a t) c = (-1)%Z.
Proof.
  intros Hne Ht. simpl. rewrite (proj2 (Ascii.eqb_neq a c) Hne), Ht. reflexivity.
Qed.

Lemma substring_all (t : string) : substring 0 (String.length t) t = t.
Proof. induction t as [|b t IH]; simpl; [done|]. by rewrite IH. Qed.

Lemma substring_skip (h t : string) (m : nat) :
  substring (String.length h) m (h +:+ t) = substring 0 m t.
Proof. induction h as [|a h IH]; simpl; done. Qed.

Lemma slice_full (s : string) : slice s 0 (len s) = s.
Proof.
  unfold slice, len. rewrite Z.sub_0_r, Nat2Z.id. apply substring_all.
Qed.

Lemma len_app (h t : string) : len (h +:+ t) = (len h + len t)%Z.
Proof.
  unfold len. induction h as [|a h IH]; simpl String.length; [done|]. lia.
Qed.

Lemma slice_after_separator (h p : string) (c : ascii) :
  slice (h +:+ String c p) (len h + 1) (len (h +:+ String c p)) = p.
Proof.
  rewrite len_app. unfold slice, len. simpl String.length.
  replace (Z.to_nat (Z.of_nat (String.length h) + 1))
    with (S (String.length h)) by lia.
  replace (Z.to_nat (Z.of_nat (String.length h) + Z.of_nat (S (String.length p))
                     - (Z.of_nat (String.length h) + 1)))
    with (String.length p) by lia.
  induction h as [|a h IH]; simpl; [apply substring_all | exact IH].
Qed.

(** On [host:port], with neither colon nor bracket in the host or in the
    port, [SplitHostPort] gives the host and the port. *)
Lemma SplitHostPort_host_port (host port : string) :
  plain host → plain port →
  net.SplitHostPort (host +:+ ":" +:+ port) = (host, port, None).
Proof.
  intros (Hhc & Hho & Hhe) (Hpc & Hpo & Hpe). unfold net.SplitHostPort.
  change (host +:+ ":" +:+ port) with (host +:+ String ":" port).
  rewrite (LastIndexByte_separator _ _ _ Hpc).
  assert (Hge : (len host <? 0)%Z = false)
    by (apply Z.ltb_ge; unfold len; lia).
  rewrite Hge.
  assert (Hfirst : bool_decide (at_ (host +:+ String ":" port) 0 = Some "["%char)
                   = false).
  { apply bool_decide_eq_false. unfold at_. simpl.
    destruct host as [|a host]; simpl; [discriminate|].
    intros [= ->]. simpl in Hho. discriminate. }
  rewrite Hfirst, slice_prefix, Hhc. simpl.
  rewrite slice_full.
  assert (Hopen : ":"%char ≠ "["%char) by discriminate.
  assert (Hclose : ":"%char ≠ "]"%char) by discriminate.
  rewrite (IndexByte_app_absent _ _ _ Hho
             (IndexByte_cons_absent _ _ _ Hopen Hpo)).
  rewrite (IndexByte_app_absent _ _ _ Hhe
             (IndexByte_cons_absent _ _ _ Hclose Hpe)).
  simpl. f_equal. f_equal. apply slice_after_separator.
Qed.

End host_port.

(** ** Verify options by SNI host *)

Section sni_verify_options.

Import clusters controllers.

(** C7: [SNIVerifyOptions] looks the cluster up under the host with its
    [:port] suffix stripped: on [hostname:port] the key is [hostname], on a
    host without a colon the key is the host itself, and the registry is
    consulted at that key only. When no cluster is registered under the
    key it returns the zero verify options and false; when one is, it
    returns what [LoadVerifyOptions] of that cluster returns. *)
Theorem SNIVerifyOptions_strips_port (m : Manager) (host : string) :
  let key := gatewaynet.HostWithoutPort host in
  (∀ hostname port, strings.IndexByte port ":" = (-1)%Z →
     host = hostname +:+ ":" +:+ port → key = hostname)
  ∧ (strings.IndexByte host ":" = (-1)%Z → key = host)
  ∧ (∀ m', Get m' key = Get m key →
       SNIVerifyOptions m' host = SNIVerifyOptions m host)
  ∧ ((Get m key).2 = false →
       SNIVerifyOptions m host = Returned (x509.zeroVerifyOptions, false))
  ∧ (∀ cluster, Get m key = (Some cluster, true) →
       SNIVerifyOptions m host = Returned (LoadVerifyOptions cluster)).
Proof.
  cbn zeta. unfold SNIVerifyOptions.
  split; [|split; [|split; [|split]]].
  - intros hostname port Hport ->. by apply HostWithoutPort_strips.
  - apply HostWithoutPort_no_port.
  - by intros m' ->.
  - destruct (Get m _) as [[c|] ok]; simpl; by intros ->.
  - by intros cluster ->.
Qed.

(** A registered host is found with or without a port; another host is
    not. *)
Lemma SNIVerifyOptions_strips_port_witness :
  SNIVerifyOptions (staticManager {["a.example" := verifying]}) "a.example:6443"
    = Returned (clientRoots, true)
  ∧ SNIVerifyOptions (staticManager {["a.example" := verifying]}) "a.example"
    = Returned (clientRoots, true)
  ∧ SNIVerifyOptions (staticManager {["a.example" := verifying]}) "b.example:6443"
    = Returned (x509.zeroVerifyOptions, false).
Proof.
  split; [|split].
  - pose proof (SNIVerifyOptions_strips_port
                  (staticManager {["a.example" := verifying]}) "a.example:6443")
      as (_ & _ & _ & _ & Hhit).
    apply (Hhit verifying). reflexivity.
  - pose proof (SNIVerifyOptions_strips_port
                  (staticManager {["a.example" := verifying]}) "a.example")
      as (_ & _ & _ & _ & Hhit).
    apply (Hhit verifying). reflexivity.
  - pose proof (SNIVerifyOptions_strips_port
                  (staticManager {["a.example" := verifying]}) "b.example:6443")
      as (_ & _ & _ & Hmiss & _).
    apply Hmiss. reflexivity.
Defined.

End sni_verify_options.

(** ** The TLS handshake callback *)

Section handshake_callback.

Import clusters controllers.

Variable m : Manager.
Variable getConfigFunc : GetConfigForClientFunc.
Variable clientHello : tls.ClientHelloInfo.
Variable sink : klog.Sink.

Abbreviation callback :=
  (WrapGetConfigForClient m getConfigFunc clientHello sink).

(** An error of the base callback is passed on, with what it returned. *)
Lemma callback_base_error base err :
  getConfigFunc clientHello = (base, Some err) →
  callback.1 = Returned (base, Some err).
Proof. unfold WrapGetConfigForClient. by intros ->. Qed.

Lemma callback_unparsed_address base host err :
  getConfigFunc clientHello = (base, None) →
  requestedHostname clientHello = (host, Some err) →
  callback.1 = Returned (base, None).
Proof. unfold WrapGetConfigForClient. by intros -> ->. Qed.

Lemma callback_miss base host :
  getConfigFunc clientHello = (base, None) →
  requestedHostname clientHello = (host, None) →
  (Get m host).2 = false →
  callback.1 = Returned (base, None).
Proof.
  unfold WrapGetConfigForClient. intros -> ->.
  destruct (Get m host) as [[c|] ok]; simpl; by intros ->.
Qed.

Lemma callback_not_loaded base host cluster :
  getConfigFunc clientHello = (base, None) →
  requestedHostname clientHello = (host, None) →
  Get m host = (Some cluster, true) →
  (LoadTLSConfig cluster).2 = false →
  callback.1 = Returned (base, None).
Proof.
  unfold WrapGetConfigForClient. intros -> -> ->.
  destruct (LoadTLSConfig cluster) as [[c|] ok]; simpl; by intros ->.
Qed.

Lemma callback_hit base host cluster tlsConfig :
  getConfigFunc clientHello = (base, None) →
  requestedHostname clientHello = (host, None) →
  Get m host = (Some cluster, true) →
  LoadTLSConfig cluster = (Some tlsConfig, true) →
  callback.1 =
    bind (overlay tlsConfig (tls.Clone base)) (λ copy, Returned (copy, None)).
Proof. unfold WrapGetConfigForClient. by intros -> -> -> ->. Qed.

(** The registry is consulted at the requested host name only. *)
Lemma callback_single_lookup m' host :
  requestedHostname clientHello = (host, None) →
  Get m' host = Get m host →
  WrapGetConfigForClient m' getConfigFunc clientHello sink = callback.
Proof.
  unfold WrapGetConfigForClient. intros -> ->. reflexivity.
Qed.

(** The callback has no error of its own: one it returns is the base
    callback's. *)
Lemma callback_error_is_base cfg err :
  callback.1 = Returned (cfg, Some err) →
  getConfigFunc clientHello = (cfg, Some err).
Proof.
  unfold WrapGetConfigForClient.
  destruct (getConfigFunc clientHello) as [base [e|]]; simpl.
  { by intros [= -> ->]. }
  destruct (requestedHostname clientHello) as [host [e|]]; simpl; [done|].
  destruct (Get m host) as [[cluster|] []]; simpl; try done.
  destruct (LoadTLSConfig cluster) as [[tlsConfig|] []]; simpl; try done.
  unfold overlay, bind, store.
  destruct base as [base|]; simpl;
    repeat case_bool_decide;
    destruct (0 <? length (tls.Certificates tlsConfig))%nat; simpl; done.
Qed.

End handshake_callback.

Section sni_routing.

Import clusters controllers.

(** What the overlay leaves in the copy of a base config. *)
Lemma overlay_fields (tlsConfig base : tls.Config) :
  ∃ cfg, overlay tlsConfig (tls.Clone (Some base)) = Returned (Some cfg)
  ∧ (tls.ClientCAs tlsConfig ≠ None →
       tls.ClientAuth cfg = tls.RequestClientCert
       ∧ tls.ClientCAs cfg = tls.ClientCAs tlsConfig)
  ∧ (tls.ClientCAs tlsConfig = None →
       tls.ClientAuth cfg = tls.ClientAuth base
       ∧ tls.ClientCAs cfg = tls.ClientCAs base)
  ∧ (tls.Certificates tlsConfig ≠ [] →
       tls.Certificates cfg = tls.Certificates tlsConfig
       ∧ tls.GetCertificate cfg = None
       ∧ tls.GetConfigForClient cfg = None)
  ∧ (tls.Certificates tlsConfig = [] →
       tls.Certificates cfg = tls.Certificates base
       ∧ tls.GetCertificate cfg = tls.GetCertificate base
       ∧ tls.GetConfigForClient cfg = tls.GetConfigForClient base)
  ∧ tls.NextProtos cfg = tls.NextProtos base
  ∧ tls.MinVersion cfg = tls.MinVersion base
  ∧ tls.CipherSuites cfg = tls.CipherSuites base.
Proof.
  unfold overlay, bind, store, tls.Clone.
  case_bool_decide as HCA;
    destruct (tls.Certificates tlsConfig) as [|crt certs] eqn:Hcerts; simpl;
    eexists; (split; [reflexivity|]); simpl; naive_solver.
Qed.

(** C1, as the code has it: when the base callback returns a config and no
    error, and the requested host name resolves to a registered cluster
    with a loaded TLS config, the callback returns a clone of the base
    config in which
    - ClientAuth is RequestClientCert and ClientCAs is the cluster's pool
      when the cluster's TLS config has a client-CA pool, and both are the
      base's when it has none;
    - Certificates are the cluster's, and GetCertificate and
      GetConfigForClient are nil, when the cluster's TLS config holds a
      certificate, and all three are the base's when it holds none;
    - every other field is the base's.
    When no cluster is registered under the host name, the base config is
    returned as it is. *)
Theorem WrapGetConfigForClient_overlays_cluster_config
    (m : Manager) (getConfigFunc : GetConfigForClientFunc)
    (clientHello : tls.ClientHelloInfo) (sink : klog.Sink) (host : string) :
  requestedHostname clientHello = (host, None) →
  (∀ base cluster tlsConfig,
     getConfigFunc clientHello = (Some base, None) →
     Get m host = (Some cluster, true) →
     LoadTLSConfig cluster = (Some tlsConfig, true) →
     ∃ cfg,
       (WrapGetConfigForClient m getConfigFunc clientHello sink).1
         = Returned (Some cfg, None)
       ∧ (tls.ClientCAs tlsConfig ≠ None →
            tls.ClientAuth cfg = tls.RequestClientCert
            ∧ tls.ClientCAs cfg = tls.ClientCAs tlsConfig)
       ∧ (tls.ClientCAs tlsConfig = None →
            tls.ClientAuth cfg = tls.ClientAuth base
            ∧ tls.ClientCAs cfg = tls.ClientCAs base)
       ∧ (tls.Certificates tlsConfig ≠ [] →
            tls.Certificates cfg = tls.Certificates tlsConfig
            ∧ tls.GetCertificate cfg = None
            ∧ tls.GetConfigForClient cfg = None)
       ∧ (tls.Certificates tlsConfig = [] →
            tls.Certificates cfg = tls.Certificates base
            ∧ tls.GetCertificate cfg = tls.GetCertificate base
            ∧ tls.GetConfigForClient cfg = tls.GetConfigForClient base)
       ∧ tls.NextProtos cfg = tls.NextProtos base
       ∧ tls.MinVersion cfg = tls.MinVersion base
       ∧ tls.CipherSuites cfg = tls.CipherSuites base)
  ∧ (∀ base,
       getConfigFunc clientHello = (base, None) →
       (Get m host).2 = false →
       (WrapGetConfigForClient m getConfigFunc clientHello sink).1
         = Returned (base, None)).
Proof.
  intros Hhost. split.
  - intros base cluster tlsConfig Hbase Hget Hload.
    rewrite (callback_hit _ _ _ _ _ _ _ _ Hbase Hhost Hget Hload).
    destruct (overlay_fields tlsConfig base) as (cfg & -> & Hfields).
    exists cfg. split; [reflexivity | exact Hfields].
  - intros base Hbase Hmiss. by eapply callback_miss.
Qed.

End sni_routing.

Section sni_routing_examples.

Import clusters controllers.

(** C1 as stated fails: the handshake names a registered cluster whose
    loaded TLS config has a key pair and no client CA; the config the
    callback returns keeps the ClientAuth of the base, NoClientCert, so no
    client certificate is requested. *)
Lemma WrapGetConfigForClient_keeps_base_ClientAuth :
  baseCallback (helloFor "a.example") = (Some gatewayConfig, None)
  ∧ requestedHostname (helloFor "a.example") = ("a.example", None)
  ∧ (∃ cluster,
       Get (registryWith keyPairOnly) "a.example" = (Some cluster, true)
       ∧ LoadTLSConfig cluster = (Some keyPairOnly, true))
  ∧ (∃ cfg,
       (WrapGetConfigForClient (registryWith keyPairOnly) baseCallback
          (helloFor "a.example") []).1 = Returned (Some cfg, None)
       ∧ tls.Certificates cfg = tls.Certificates keyPairOnly
       ∧ tls.ClientAuth cfg = tls.NoClientCert
       ∧ tls.ClientAuth cfg ≠ tls.RequestClientCert).
Proof.
  split; [reflexivity|]. split; [reflexivity|]. split.
  - eexists. split; reflexivity.
  - eexists. split; [reflexivity|]. split; [reflexivity|].
    split; [reflexivity | discriminate].
Qed.

(** With a client CA in the cluster's config the client certificate is
    requested; a host that names no cluster gets the base config. *)
Lemma WrapGetConfigForClient_overlays_cluster_config_witness :
  (∃ cfg,
     (WrapGetConfigForClient (registryWith keyPairAndCA) baseCallback
        (helloFor "a.example") []).1 = Returned (Some cfg, None)
     ∧ tls.ClientAuth cfg = tls.RequestClientCert
     ∧ tls.ClientCAs cfg = tls.ClientCAs keyPairAndCA
     ∧ tls.Certificates cfg = tls.Certificates keyPairAndCA
     ∧ tls.NextProtos cfg = ["h2"; "http/1.1"])
  ∧ (WrapGetConfigForClient (registryWith keyPairAndCA) baseCallback
       (helloFor "b.example") []).1 = Returned (Some gatewayConfig, None).
Proof.
  split.
  - destruct (WrapGetConfigForClient_overlays_cluster_config
                (registryWith keyPairAndCA) baseCallback (helloFor "a.example")
                [] "a.example" eq_refl) as [Hhit _].
    destruct (Hhit gatewayConfig (servingWith keyPairAndCA)
                keyPairAndCA eq_refl eq_refl eq_refl)
      as (cfg & Hcfg & HCA & _ & Hcerts & _ & Hprotos & _).
    exists cfg. split; [exact Hcfg|].
    destruct (HCA ltac:(discriminate)) as [-> ->].
    destruct (Hcerts ltac:(discriminate)) as [-> _].
    rewrite Hprotos. repeat split.
  - destruct (WrapGetConfigForClient_overlays_cluster_config
                (registryWith keyPairAndCA) baseCallback (helloFor "b.example")
                [] "b.example" eq_refl) as [_ Hmiss].
    apply Hmiss; reflexivity.
Defined.

End sni_routing_examples.

Section handshake_fallback.

Import clusters controllers.

Lemma len_zero (s : string) : (strings.len s =? 0)%Z = true ↔ s = EmptyString.
Proof.
  unfold strings.len. rewrite Z.eqb_eq. destruct s; simpl; [done|].
  split; [lia | discriminate].
Qed.

(** C5: the host name the callback looks up is the SNI name, and for an
    empty SNI name the host [net.SplitHostPort] finds in the local address
    of the connection, which is [host] for a local address [host:port];
    the registry is consulted at that name only, and it is consulted: a
    cluster registered under that name with a loaded TLS config is the one
    whose certificates and client CAs the returned config carries, so for
    a handshake without SNI the cluster registered under the host of the
    local address is served. When the base callback gave a config without
    error, the callback returns that config and a nil error on a registry
    miss, on a cluster without a loaded TLS config, and when the local
    address cannot be parsed. An error the callback returns is the base
    callback's own. *)
Theorem WrapGetConfigForClient_falls_back
    (m : Manager) (getConfigFunc : GetConfigForClientFunc)
    (clientHello : tls.ClientHelloInfo) (sink : klog.Sink) :
  let result := (WrapGetConfigForClient m getConfigFunc clientHello sink).1 in
  (tls.ServerName clientHello ≠ EmptyString →
     requestedHostname clientHello = (tls.ServerName clientHello, None))
  ∧ (tls.ServerName clientHello = EmptyString →
       requestedHostname clientHello =
         ((net.SplitHostPort (tls.LocalAddr clientHello)).1.1,
          (net.SplitHostPort (tls.LocalAddr clientHello)).2))
  ∧ (∀ host port,
       tls.ServerName clientHello = EmptyString →
       tls.LocalAddr clientHello = host +:+ ":" +:+ port →
       plain host → plain port →
       requestedHostname clientHello = (host, None))
  ∧ (∀ host m',
       requestedHostname clientHello = (host, None) →
       Get m' host = Get m host →
       WrapGetConfigForClient m' getConfigFunc clientHello sink
         = WrapGetConfigForClient m getConfigFunc clientHello sink)
  ∧ (∀ base host,
       getConfigFunc clientHello = (base, None) →
       requestedHostname clientHello = (host, None) →
       (Get m host).2 = false →
       result = Returned (base, None))
  ∧ (∀ base host cluster,
       getConfigFunc clientHello = (base, None) →
       requestedHostname clientHello = (host, None) →
       Get m host = (Some cluster, true) →
       (LoadTLSConfig cluster).2 = false →
       result = Returned (base, None))
  ∧ (∀ base host err,
       getConfigFunc clientHello = (base, None) →
       requestedHostname clientHello = (host, Some err) →
       result = Returned (base, None))
  ∧ (∀ cfg err,
       result = Returned (cfg, Some err) →
       getConfigFunc clientHello = (cfg, Some err))
  ∧ (∀ base host cluster tlsConfig,
       getConfigFunc clientHello = (base, None) →
       requestedHostname clientHello = (host, None) →
       Get m host = (Some cluster, true) →
       LoadTLSConfig cluster = (Some tlsConfig, true) →
       result =
         bind (overlay tlsConfig (tls.Clone base))
              (λ copy, Returned (copy, None)))
  ∧ (∀ host port base cluster tlsConfig,
       tls.ServerName clientHello = EmptyString →
       tls.LocalAddr clientHello = host +:+ ":" +:+ port →
       plain host → plain port →
       getConfigFunc clientHello = (Some base, None) →
       Get m host = (Some cluster, true) →
       LoadTLSConfig cluster = (Some tlsConfig, true) →
       ∃ cfg,
         result = Returned (Some cfg, None)
         ∧ (tls.ClientCAs tlsConfig ≠ None →
              tls.ClientAuth cfg = tls.RequestClientCert
              ∧ tls.ClientCAs cfg = tls.ClientCAs tlsConfig)
         ∧ (tls.ClientCAs tlsConfig = None →
              tls.ClientAuth cfg = tls.ClientAuth base
              ∧ tls.ClientCAs cfg = tls.ClientCAs base)
         ∧ (tls.Certificates tlsConfig ≠ [] →
              tls.Certificates cfg = tls.Certificates tlsConfig
              ∧ tls.GetCertificate cfg = None
              ∧ tls.GetConfigForClient cfg = None)
         ∧ (tls.Certificates tlsConfig = [] →
              tls.Certificates cfg = tls.Certificates base
              ∧ tls.GetCertificate cfg = tls.GetCertificate base
              ∧ tls.GetConfigForClient cfg = tls.GetConfigForClient base)
         ∧ tls.NextProtos cfg = tls.NextProtos base
         ∧ tls.MinVersion cfg = tls.MinVersion base
         ∧ tls.CipherSuites cfg = tls.CipherSuites base).
Proof.
  cbn zeta.
  assert (Hlocal : ∀ host port,
            tls.ServerName clientHello = EmptyString →
            tls.LocalAddr clientHello = host +:+ ":" +:+ port →
            plain host → plain port →
            requestedHostname clientHello = (host, None)).
  { intros host port Hname Haddr Hhost Hport. unfold requestedHostname.
    rewrite (proj2 (len_zero _) Hname), Haddr.
    by rewrite (SplitHostPort_host_port _ _ Hhost Hport). }
  split; [|split; [|split; [|split; [|split; [|split; [|split;
    [|split; [|split]]]]]]]].
  - intros Hname. unfold requestedHostname.
    destruct (strings.len (tls.ServerName clientHello) =? 0)%Z eqn:Hlen; [|done].
    by apply len_zero in Hlen.
  - intros Hname. unfold requestedHostname.
    rewrite (proj2 (len_zero _) Hname).
    by destruct (net.SplitHostPort _) as [[h p] e].
  - exact Hlocal.
  - intros host m'. apply callback_single_lookup.
  - intros base host. apply callback_miss.
  - intros base host cluster. apply callback_not_loaded.
  - intros base host err. apply callback_unparsed_address.
  - apply callback_error_is_base.
  - intros base host cluster tlsConfig. apply callback_hit.
  - intros host port base cluster tlsConfig Hname Haddr Hhost Hport
      Hbase Hget Hload.
    pose proof (Hlocal host port Hname Haddr Hhost Hport) as Hrequested.
    rewrite (callback_hit _ _ _ _ _ _ _ _ Hbase Hrequested Hget Hload).
    destruct (overlay_fields tlsConfig base) as (cfg & -> & Hfields).
    exists cfg. split; [reflexivity | exact Hfields].
Qed.

(** Without SNI the host of the local address is looked up: a miss, a
    cluster that has no TLS config, and a local address without a port all
    end in the base config and no error; and a cluster registered under
    the address is served with its own certificates and client CAs, not
    with those of the gateway. *)
Lemma WrapGetConfigForClient_falls_back_witness :
  requestedHostname (helloFor EmptyString) = ("10.0.0.1", None)
  ∧ (WrapGetConfigForClient (registryWith keyPairOnly) baseCallback
       (helloFor EmptyString) []).1 = Returned (Some gatewayConfig, None)
  ∧ (WrapGetConfigForClient unloaded baseCallback (helloFor EmptyString) []).1
    = Returned (Some gatewayConfig, None)
  ∧ (WrapGetConfigForClient unloaded baseCallback
       {| tls.ServerName := EmptyString; tls.LocalAddr := "@" |} []).1
    = Returned (Some gatewayConfig, None)
  ∧ (∃ cfg,
       (WrapGetConfigForClient (mappedByAddress keyPairAndCA) baseCallback
          (helloFor EmptyString) []).1 = Returned (Some cfg, None)
       ∧ tls.Certificates cfg = tls.Certificates keyPairAndCA
       ∧ tls.Certificates cfg ≠ tls.Certificates gatewayConfig
       ∧ tls.ClientAuth cfg = tls.RequestClientCert
       ∧ tls.ClientCAs cfg = tls.ClientCAs keyPairAndCA).
Proof.
  split; [|split; [|split; [|split]]].
  - destruct (WrapGetConfigForClient_falls_back
                unloaded baseCallback (helloFor EmptyString) [])
      as (_ & _ & Hlocal & _).
    apply (Hlocal "10.0.0.1" "6443"); repeat split.
  - destruct (WrapGetConfigForClient_falls_back
                (registryWith keyPairOnly) baseCallback (helloFor EmptyString) [])
      as (_ & _ & _ & _ & Hmiss & _).
    apply (Hmiss _ "10.0.0.1"); reflexivity.
  - destruct (WrapGetConfigForClient_falls_back
                unloaded baseCallback (helloFor EmptyString) [])
      as (_ & _ & _ & _ & _ & Hnotloaded & _).
    apply (Hnotloaded _ "10.0.0.1" (NewClusterInfo "10.0.0.1")); reflexivity.
  - destruct (WrapGetConfigForClient_falls_back unloaded baseCallback
                {| tls.ServerName := EmptyString; tls.LocalAddr := "@" |} [])
      as (_ & _ & _ & _ & _ & _ & Hparse & _).
    apply (Hparse _ EmptyString (net.AddrError "@" net.missingPort));
      reflexivity.
  - destruct (WrapGetConfigForClient_falls_back
                (mappedByAddress keyPairAndCA) baseCallback
                (helloFor EmptyString) [])
      as (_ & _ & _ & _ & _ & _ & _ & _ & _ & Hserved).
    destruct (Hserved "10.0.0.1" "6443" gatewayConfig
                (setServing (Some keyPairAndCA) None (NewClusterInfo "10.0.0.1"))
                keyPairAndCA)
      as (cfg & Hcfg & HCA & _ & Hcerts & _); try reflexivity; try (repeat split).
    exists cfg. split; [exact Hcfg|].
    destruct (HCA ltac:(discriminate)) as [Hauth Hpool].
    destruct (Hcerts ltac:(discriminate)) as [Hcertificates _].
    split; [exact Hcertificates|]. split; [|split; [exact Hauth | exact Hpool]].
    rewrite Hcertificates. discriminate.
Defined.

End handshake_fallback.

(** ** Secure serving *)

Section secure_serving_sync.

Import proxyv1alpha1 clusters.

Variable X509KeyPair : list byte → list byte → tls.Certificate * option error.
Variable NewPoolFromBytes : list byte → x509.CertPool * option error.

Abbreviation sync := (syncSecureServingConfigLocked X509KeyPair NewPoolFromBytes).

(** C6: after a sync from a [SecureServing] whose key, certificate and
    client-CA data are all empty, which succeeds, [LoadTLSConfig] returns a
    nil config and not-ok and [LoadVerifyOptions] returns not-ok. *)
Theorem syncSecureServingConfigLocked_empty (c : ClusterInfo) :
  let synced :=
    sync {| KeyData := []; CertData := []; ClientCAData := [] |} c in
  synced.2 = None
  ∧ LoadTLSConfig synced.1 = (None, false)
  ∧ (LoadVerifyOptions synced.1).2 = false
  ∧ LoadVerifyOptions synced.1 = (x509.zeroVerifyOptions, false).
Proof. cbn zeta. repeat split. Qed.

(** The test "replace serving key and crt": a key pair that parses and no
    client CA leave a TLS config with the certificate and no client CAs,
    and no verify options. *)
Lemma syncSecureServingConfigLocked_key_pair key crt pair (c : ClusterInfo) :
  key ≠ [] → crt ≠ [] → X509KeyPair crt key = (pair, None) →
  let synced := sync {| KeyData := key; CertData := crt; ClientCAData := [] |} c in
  synced.2 = None
  ∧ (LoadVerifyOptions synced.1).2 = false
  ∧ ∃ cfg, LoadTLSConfig synced.1 = (Some cfg, true)
           ∧ tls.ClientCAs cfg = None ∧ tls.Certificates cfg = [pair].
Proof.
  intros Hkey Hcrt Hpair. cbn zeta. unfold syncSecureServingConfigLocked. simpl.
  destruct key; [done|]. simpl. rewrite Hpair. simpl.
  repeat split. eexists. repeat split.
Qed.

(** The test "replace ca": a client CA that parses and no key pair leave
    verify options and a TLS config with client CAs and no certificate. *)
Lemma syncSecureServingConfigLocked_client_ca ca pool (c : ClusterInfo) :
  ca ≠ [] → NewPoolFromBytes ca = (pool, None) →
  let synced := sync {| KeyData := []; CertData := []; ClientCAData := ca |} c in
  synced.2 = None
  ∧ (LoadVerifyOptions synced.1).2 = true
  ∧ ∃ cfg, LoadTLSConfig synced.1 = (Some cfg, true)
           ∧ tls.ClientCAs cfg = Some pool ∧ tls.Certificates cfg = [].
Proof.
  intros Hca Hpool. cbn zeta. unfold syncSecureServingConfigLocked. simpl.
  destruct ca; [done|]. simpl. rewrite Hpool. simpl.
  repeat split. eexists. repeat split.
Qed.

End secure_serving_sync.

(** ** Endpoints *)

Section endpoint_mirroring.

Import proxyv1alpha1 clusters.

Lemma lookup_foldl_insert {A} (f : string → A) (l : list string)
    (es : gmap string A) (k : string) :
  foldl (λ es url, <[url := f url]> es) es l !! k
  = if decide (k ∈ l) then Some (f k) else es !! k.
Proof.
  revert es. induction l as [|x l IH]; intros es; cbn [foldl].
  - rewrite decide_False; [done|]. apply not_elem_of_nil.
  - rewrite IH. destruct (decide (k ∈ l)) as [Hin|Hnotin].
    + rewrite decide_True; [done|]. by apply elem_of_cons; right.
    + destruct (decide (k = x)) as [->|Hne].
      * rewrite lookup_insert_eq, decide_True; [done|]. by apply elem_of_cons; left.
      * rewrite lookup_insert_ne by done.
        rewrite decide_False; [done|]. rewrite elem_of_cons. tauto.
Qed.

Lemma lookup_foldl_delete {A} (l : list string) (es : gmap string A) (k : string) :
  foldl (λ es url, delete url es) es l !! k
  = if decide (k ∈ l) then None else es !! k.
Proof.
  revert es. induction l as [|x l IH]; intros es; cbn [foldl].
  - rewrite decide_False; [done|]. apply not_elem_of_nil.
  - rewrite IH. destruct (decide (k ∈ l)) as [Hin|Hnotin].
    + rewrite decide_True; [done|]. by apply elem_of_cons; right.
    + destruct (decide (k = x)) as [->|Hne].
      * rewrite lookup_delete_eq, decide_True; [done|]. by apply elem_of_cons; left.
      * rewrite lookup_delete_ne by done.
        rewrite decide_False; [done|]. rewrite elem_of_cons. tauto.
Qed.

Lemma elem_of_keys {A} (es : gmap string A) (k : string) :
  k ∈ (map_to_list es).*1 ↔ is_Some (es !! k).
Proof.
  rewrite list_elem_of_fmap. split.
  - intros [[k' e] [-> Hin]]. apply elem_of_map_to_list in Hin. by exists e.
  - intros [e He]. exists (k, e). split; [done|]. by apply elem_of_map_to_list.
Qed.

Lemma elem_of_enabledURLs (servers : list UpstreamClusterServer) (url : string) :
  url ∈ enabledURLs servers
  ↔ ∃ s, s ∈ servers ∧ Disabled s = false ∧ proxyv1alpha1.Endpoint s = url.
Proof.
  unfold enabledURLs. rewrite list_elem_of_fmap. split.
  - intros (s & -> & [Hen Hs]%list_elem_of_filter). by exists s.
  - intros (s & Hs & Hen & <-). exists s. split; [done|].
    by apply list_elem_of_filter.
Qed.

(** The [EndpointInfo] under each URL after a sync. *)
Lemma syncEndpoints_lookup servers (c : ClusterInfo) (url : string) :
  Endpoints (syncEndpoints servers c).1 !! url
  = if decide (url ∈ enabledURLs servers)
    then match Endpoints c !! url with
         | Some e => Some e
         | None => Some (newEndpointInfo (ClusterName c) url)
         end
    else None.
Proof.
  unfold syncEndpoints. simpl.
  rewrite lookup_foldl_delete, lookup_foldl_insert.
  destruct (decide (url ∈ enabledURLs servers)) as [Hwanted|Hunwanted].
  - rewrite decide_False.
    2: { rewrite list_elem_of_filter. tauto. }
    destruct (Endpoints c !! url) as [e|] eqn:He.
    + rewrite decide_False; [done|].
      rewrite list_elem_of_filter, elem_of_keys, He. intros [Hnew _].
      by apply Hnew.
    + rewrite decide_True; [done|].
      rewrite list_elem_of_filter, elem_of_keys, He.
      split; [|done]. by intros [? ?].
  - destruct (decide (url ∈ filter _ (map_to_list (Endpoints c)).*1))
      as [Hrem|Hkeep]; [done|].
    rewrite decide_False.
    2: { rewrite list_elem_of_filter. tauto. }
    destruct (Endpoints c !! url) as [e|] eqn:He; [|done].
    exfalso. apply Hkeep. rewrite list_elem_of_filter, elem_of_keys, He.
    by split.
Qed.

(** C4: after [syncEndpoints(servers)], which returns no error,
    [AllEndpoints()] lists, without repetition, exactly the endpoint URLs
    of the servers of the list that are not disabled: every such URL is
    there, and no other URL is left. An endpoint that stays keeps its
    [EndpointInfo]. *)
Theorem syncEndpoints_mirrors_servers
    (servers : list UpstreamClusterServer) (c : ClusterInfo) :
  let synced := syncEndpoints servers c in
  synced.2 = None
  ∧ list_to_set (AllEndpoints synced.1) =@{gset string}
      list_to_set (enabledURLs servers)
  ∧ NoDup (AllEndpoints synced.1)
  ∧ (∀ url, url ∈ AllEndpoints synced.1
       ↔ ∃ s, s ∈ servers ∧ Disabled s = false ∧ proxyv1alpha1.Endpoint s = url)
  ∧ (∀ url e, url ∈ AllEndpoints synced.1 → Endpoints c !! url = Some e →
       Endpoints synced.1 !! url = Some e).
Proof.
  cbn zeta.
  assert (Hmem : ∀ url, url ∈ AllEndpoints (syncEndpoints servers c).1
                        ↔ url ∈ enabledURLs servers).
  { intros url. unfold AllEndpoints.
    rewrite elem_of_keys, syncEndpoints_lookup.
    case_decide as Hwanted.
    - split; [done|]. intros _. by destruct (Endpoints c !! url).
    - split; [|done]. by intros [? ?]. }
  split; [done|]. split; [|split; [|split]].
  - apply set_eq. intros url. by rewrite !elem_of_list_to_set.
  - apply NoDup_fst_map_to_list.
  - intros url. by rewrite Hmem, elem_of_enabledURLs.
  - intros url e Hin He. apply Hmem in Hin.
    rewrite syncEndpoints_lookup, decide_True, He; done.
Qed.

(** The two cases of the test of [syncEndpoints], the second with a
    disabled server besides: 127.0.0.2 is added; 127.0.0.1 is removed. *)
Lemma syncEndpoints_mirrors_servers_witness :
  (∀ url,
     url ∈ AllEndpoints
             (syncEndpoints
                [{| proxyv1alpha1.Endpoint := "https://127.0.0.1:443";
                    Disabled := false |};
                 {| proxyv1alpha1.Endpoint := "https://127.0.0.2:443";
                    Disabled := false |}] oneEndpoint).1
     ↔ url ∈ ["https://127.0.0.1:443"; "https://127.0.0.2:443"])
  ∧ (∀ url,
       url ∈ AllEndpoints
               (syncEndpoints
                  [{| proxyv1alpha1.Endpoint := "https://127.0.0.2:443";
                      Disabled := false |};
                   {| proxyv1alpha1.Endpoint := "https://127.0.0.3:443";
                      Disabled := true |}] oneEndpoint).1
       ↔ url ∈ ["https://127.0.0.2:443"]).
Proof.
  split; intros url.
  - rewrite <- (elem_of_list_to_set (C := gset string)).
    rewrite (proj1 (proj2 (syncEndpoints_mirrors_servers _ oneEndpoint))).
    by rewrite elem_of_list_to_set.
  - rewrite <- (elem_of_list_to_set (C := gset string)).
    rewrite (proj1 (proj2 (syncEndpoints_mirrors_servers _ oneEndpoint))).
    by rewrite elem_of_list_to_set.
Defined.

End endpoint_mirroring.

(** ** Flow control *)

Section limiter_store.

Import proxyv1alpha1 clusters.

Implicit Types (c : ClusterInfo) (n : string) (a : nat)
  (l : flowcontrol.FlowControl) (s : FlowControlSchema).

Lemma limiterAt_Some c n a l :
  limiterAt n c = Some (a, l)
  ↔ flowcontrol c !! n = Some a ∧ objects c !! a = Some l.
Proof.
  unfold limiterAt.
  destruct (flowcontrol c !! n) as [a'|]; [|by split; [|intros [? _]]].
  destruct (objects c !! a') as [l'|] eqn:Hobj; split.
  - by intros [= -> ->].
  - intros [[= ->] Hl]. congruence.
  - done.
  - intros [[= ->] Hl]. congruence.
Qed.

Lemma limiterAt_unbound c n : flowcontrol c !! n = None → limiterAt n c = None.
Proof. unfold limiterAt. by intros ->. Qed.

Lemma bound_name c n a l :
  bound c → limiterAt n c = Some (a, l) → flowcontrol.name l = n.
Proof.
  intros Hb [Hn Ha]%limiterAt_Some.
  destruct (Hb _ _ Hn) as (l' & Hl' & Hname). congruence.
Qed.

Lemma bound_None c n : bound c → limiterAt n c = None → flowcontrol c !! n = None.
Proof.
  intros Hb. unfold limiterAt.
  destruct (flowcontrol c !! n) as [a|] eqn:Hn; [|done].
  destruct (Hb _ _ Hn) as (l & -> & _). done.
Qed.

Lemma liveLimiter_Some c n a l :
  liveLimiter n c = Some (a, l)
  ↔ limiterAt n c = Some (a, l) ∧ flowcontrol.retired l = false.
Proof.
  unfold liveLimiter. destruct (limiterAt n c) as [[a' l']|]; [|by split; [|intros [? _]]].
  destruct (flowcontrol.retired l') eqn:Hr; split.
  - done.
  - intros [[= -> ->] Hl]. congruence.
  - by intros [= -> ->].
  - by intros [-> _].
Qed.

Lemma bound_new name : bound (NewClusterInfo name).
Proof. intros n a. simpl. by rewrite lookup_empty. Qed.

(** *** The three writes: update in place, allocate, unbind *)

Section update.
Variables (c : ClusterInfo) (n : string) (a : nat)
  (l l' : flowcontrol.FlowControl).
Hypothesis Hbound : bound c.
Hypothesis Hat : limiterAt n c = Some (a, l).
Hypothesis Hname : flowcontrol.name l' = flowcontrol.name l.

Let c' := setFlowControl (<[a := l']> (objects c)) (flowcontrol c) c.

Lemma update_bound : bound c'.
Proof using Hbound Hat Hname.
  pose proof (bound_name _ _ _ _ Hbound Hat) as Hn.
  apply limiterAt_Some in Hat as [Hfc Hobj].
  intros m b Hm. simpl in *.
  destruct (Hbound _ _ Hm) as (lm & Hlm & Hnm).
  destruct (decide (b = a)) as [->|Hne].
  - exists l'. split.
    + apply list_lookup_insert_eq. by eapply lookup_lt_Some.
    + congruence.
  - exists lm. by rewrite list_lookup_insert_ne.
Qed.

Lemma update_same : limiterAt n c' = Some (a, l').
Proof using Hat.
  apply limiterAt_Some in Hat as [Hfc Hobj].
  apply limiterAt_Some. simpl. split; [done|].
  apply list_lookup_insert_eq. by eapply lookup_lt_Some.
Qed.

Lemma update_other m : m ≠ n → limiterAt m c' = limiterAt m c.
Proof using Hbound Hat.
  intros Hne. pose proof (bound_name _ _ _ _ Hbound Hat) as Hn.
  apply limiterAt_Some in Hat as [Hfc Hobj].
  unfold limiterAt. simpl.
  destruct (flowcontrol c !! m) as [b|] eqn:Hm; [|done].
  destruct (Hbound _ _ Hm) as (lm & Hlm & Hnm).
  rewrite list_lookup_insert_ne; [done|]. intros ->. congruence.
Qed.
End update.

Section allocate.
Variables (c : ClusterInfo) (s : FlowControlSchema).
Hypothesis Hbound : bound c.

Lemma create_bound : bound (createLimiter s c).
Proof using Hbound.
  intros m b. unfold createLimiter. simpl.
  destruct (decide (m = Name s)) as [->|Hne].
  - rewrite lookup_insert_eq. intros [= <-].
    exists (flowcontrol.NewFlowControl s). split; [|done].
    by rewrite lookup_app_r, Nat.sub_diag.
  - rewrite lookup_insert_ne by done. intros Hm.
    destruct (Hbound _ _ Hm) as (lm & Hlm & Hnm).
    exists lm. split; [|done]. by apply lookup_app_l_Some.
Qed.

Lemma create_same :
  limiterAt (Name s) (createLimiter s c)
  = Some (length (objects c), flowcontrol.NewFlowControl s).
Proof.
  apply limiterAt_Some. unfold createLimiter. simpl.
  rewrite lookup_insert_eq. split; [done|].
  by rewrite lookup_app_r, Nat.sub_diag.
Qed.

Lemma create_other m :
  m ≠ Name s → limiterAt m (createLimiter s c) = limiterAt m c.
Proof using Hbound.
  intros Hne. unfold limiterAt, createLimiter. simpl.
  rewrite lookup_insert_ne by done.
  destruct (flowcontrol c !! m) as [b|] eqn:Hm; [|done].
  destruct (Hbound _ _ Hm) as (lm & Hlm & Hnm).
  by rewrite (lookup_app_l_Some _ _ _ _ Hlm), Hlm.
Qed.
End allocate.

Section unbind.
Variables (c : ClusterInfo) (n : string).
Hypothesis Hbound : bound c.

Let c' := setFlowControl (objects c) (delete n (flowcontrol c)) c.

Lemma unbind_bound : bound c'.
Proof using Hbound.
  intros m b. simpl. destruct (decide (m = n)) as [->|Hne].
  - by rewrite lookup_delete_eq.
  - rewrite lookup_delete_ne by done. apply Hbound.
Qed.

Lemma unbind_same : limiterAt n c' = None.
Proof. unfold limiterAt. simpl. by rewrite lookup_delete_eq. Qed.

Lemma unbind_other m : m ≠ n → limiterAt m c' = limiterAt m c.
Proof.
  intros Hne. unfold limiterAt. simpl. by rewrite lookup_delete_ne.
Qed.
End unbind.

End limiter_store.

Section flow_control_sync.

Import proxyv1alpha1 clusters.

Implicit Types (c : ClusterInfo) (n : string) (a : nat)
  (l : flowcontrol.FlowControl) (s : FlowControlSchema).

(** *** Configurations *)

Lemma sameVariant_sym cfg1 cfg2 :
  flowcontrol.sameVariant cfg1 cfg2 = flowcontrol.sameVariant cfg2 cfg1.
Proof. by destruct cfg1, cfg2. Qed.

Lemma sameVariant_trans cfg1 cfg2 cfg3 :
  flowcontrol.sameVariant cfg1 cfg2 = true →
  flowcontrol.sameVariant cfg2 cfg3 = true →
  flowcontrol.sameVariant cfg1 cfg3 = true.
Proof. by destruct cfg1, cfg2, cfg3. Qed.

Lemma lastConfig_snoc_same schemas s :
  lastConfig (Name s) (schemas ++ [s]) = Some (Configuration s).
Proof.
  unfold lastConfig. rewrite filter_app, filter_cons_True, filter_nil by done.
  by rewrite last_snoc.
Qed.

Lemma lastConfig_snoc_other schemas s n :
  n ≠ Name s → lastConfig n (schemas ++ [s]) = lastConfig n schemas.
Proof.
  intros Hne. unfold lastConfig.
  rewrite filter_app, filter_cons_False, filter_nil by congruence.
  by rewrite app_nil_r.
Qed.

Lemma lastConfig_None schemas n :
  lastConfig n schemas = None ↔ n ∉ Name <$> schemas.
Proof.
  unfold lastConfig. rewrite fmap_None, last_None. split.
  - intros Hnil [s [-> Hs]]%list_elem_of_fmap.
    assert (Hin : s ∈ filter (λ s', Name s' = Name s) schemas)
      by by apply list_elem_of_filter.
    rewrite Hnil in Hin. by apply elem_of_nil in Hin.
  - intros Hnotin. apply elem_of_nil_inv. intros s [Hn Hs]%list_elem_of_filter.
    apply Hnotin, list_elem_of_fmap. by exists s.
Qed.

Lemma lastConfig_Some schemas n cfg :
  lastConfig n schemas = Some cfg →
  ∃ s, s ∈ schemas ∧ Name s = n ∧ Configuration s = cfg.
Proof.
  unfold lastConfig. intros (s & Hlast & ->)%fmap_Some.
  exists s. apply last_Some_elem_of, list_elem_of_filter in Hlast.
  by destruct Hlast.
Qed.

(** *** One schema *)

Lemma Resize_Some l cfg l' :
  flowcontrol.Resize l cfg = Some l' →
  flowcontrol.sameVariant (flowcontrol.config l) cfg = true
  ∧ flowcontrol.name l' = flowcontrol.name l
  ∧ flowcontrol.config l' = cfg
  ∧ flowcontrol.outstanding l' = flowcontrol.outstanding l
  ∧ flowcontrol.tokens l' = flowcontrol.tokens l
  ∧ flowcontrol.retired l' = flowcontrol.retired l.
Proof.
  unfold flowcontrol.Resize.
  destruct (flowcontrol.sameVariant _ _); [|done]. by intros [= <-].
Qed.

Lemma Resize_None l cfg :
  flowcontrol.Resize l cfg = None ↔
  flowcontrol.sameVariant (flowcontrol.config l) cfg = false.
Proof.
  unfold flowcontrol.Resize. by destruct (flowcontrol.sameVariant _ _).
Qed.

(** The binding of the schema's name after [syncSchema]. *)
Lemma syncSchema_same c s :
  bound c →
  limiterAt (Name s) (syncSchema c s) =
    match liveLimiter (Name s) c with
    | Some (a, l) =>
        match flowcontrol.Resize l (Configuration s) with
        | Some l' => Some (a, l')
        | None => Some (length (objects c), flowcontrol.NewFlowControl s)
        end
    | None => Some (length (objects c), flowcontrol.NewFlowControl s)
    end.
Proof.
  intros Hb. unfold syncSchema.
  destruct (liveLimiter (Name s) c) as [[a l]|] eqn:Hlive; [|apply create_same].
  destruct (flowcontrol.Resize l (Configuration s)) as [l'|] eqn:Hres;
    [|apply create_same].
  apply liveLimiter_Some in Hlive as [Hat _].
  by eapply update_same.
Qed.

Lemma syncSchema_other c s n :
  bound c → n ≠ Name s → limiterAt n (syncSchema c s) = limiterAt n c.
Proof.
  intros Hb Hne. unfold syncSchema.
  destruct (liveLimiter (Name s) c) as [[a l]|] eqn:Hlive;
    [|by apply create_other].
  destruct (flowcontrol.Resize l (Configuration s)) as [l'|] eqn:Hres;
    [|by apply create_other].
  apply liveLimiter_Some in Hlive as [Hat _].
  apply Resize_Some in Hres as (_ & Hname & _).
  by eapply update_other.
Qed.

Lemma syncSchema_bound c s : bound c → bound (syncSchema c s).
Proof.
  intros Hb. unfold syncSchema.
  destruct (liveLimiter (Name s) c) as [[a l]|] eqn:Hlive;
    [|by apply create_bound].
  destruct (flowcontrol.Resize l (Configuration s)) as [l'|] eqn:Hres;
    [|by apply create_bound].
  apply liveLimiter_Some in Hlive as [Hat _].
  apply Resize_Some in Hres as (_ & Hname & _).
  by eapply update_bound.
Qed.

Lemma syncSchema_length c s :
  (length (objects c) ≤ length (objects (syncSchema c s)))%nat.
Proof.
  unfold syncSchema, createLimiter.
  destruct (liveLimiter (Name s) c) as [[a l]|]; simpl.
  - destruct (flowcontrol.Resize l (Configuration s)); simpl.
    + by rewrite length_insert.
    + rewrite length_app. lia.
  - rewrite length_app. lia.
Qed.

End flow_control_sync.

Section flow_control_schemas.

Import proxyv1alpha1 clusters.

Implicit Types (c : ClusterInfo) (n : string) (a : nat)
  (l : flowcontrol.FlowControl) (s : FlowControlSchema).

Lemma liveLimiter_ext c1 c2 n :
  limiterAt n c1 = limiterAt n c2 → liveLimiter n c1 = liveLimiter n c2.
Proof. unfold liveLimiter. by intros ->. Qed.

Lemma elem_of_names_snoc n s (schemas : list FlowControlSchema) :
  n ∈ Name <$> (schemas ++ [s]) ↔ n ∈ Name <$> schemas ∨ n = Name s.
Proof.
  rewrite fmap_app, elem_of_app. simpl. by rewrite list_elem_of_singleton.
Qed.

Lemma foldl_syncSchema c (new : list FlowControlSchema) :
  bound c →
  bound (foldl syncSchema c new)
  ∧ (length (objects c) ≤ length (objects (foldl syncSchema c new)))%nat
  ∧ (∀ n, n ∉ Name <$> new →
       limiterAt n (foldl syncSchema c new) = limiterAt n c)
  ∧ (∀ n, n ∈ Name <$> new → synced_name c (foldl syncSchema c new) new n).
Proof.
  intros Hb. induction new as [|s new IH] using rev_ind.
  { simpl. split; [done|]. split; [done|]. split; [done|].
    intros n Hn. by apply elem_of_nil in Hn. }
  destruct IH as (Hb1 & Hlen1 & Hout1 & Hin1).
  rewrite foldl_snoc. set (c1 := foldl syncSchema c new) in *.
  split; [by apply syncSchema_bound|].
  split; [etrans; [exact Hlen1 | apply syncSchema_length]|].
  split.
  { intros n Hn. rewrite elem_of_names_snoc in Hn.
    rewrite syncSchema_other; [|done|tauto]. apply Hout1. tauto. }
  intros n Hn. destruct (decide (n = Name s)) as [->|Hne].
  2: { apply elem_of_names_snoc in Hn as [Hn|Hn]; [|done].
       destruct (Hin1 n Hn) as (a & l & Hat & Hlive & Hcfg & Hfresh & Hkept).
       exists a, l. rewrite syncSchema_other, lastConfig_snoc_other by done.
       split; [done|]. split; [done|]. split; [done|]. split; [done|].
       intros a0 l0 Hl0 Hsame. apply Hkept; [done|].
       intros s' Hs'. apply Hsame. apply elem_of_app. by left. }
  clear Hn. unfold synced_name.
  rewrite syncSchema_same, lastConfig_snoc_same by done.
  destruct (decide (Name s ∈ Name <$> new)) as [Hold|Hnew].
  - destruct (Hin1 _ Hold) as (a1 & l1 & Hat1 & Hlive1 & Hcfg1 & Hfresh1 & Hkept1).
    rewrite (proj2 (liveLimiter_Some c1 _ _ _) (conj Hat1 Hlive1)).
    destruct (flowcontrol.Resize l1 (Configuration s)) as [l'|] eqn:Hres.
    + apply Resize_Some in Hres as (_ & _ & Hcfg' & Hout' & Htok' & Hret').
      exists a1, l'. split; [done|]. split; [congruence|].
      split; [congruence|]. split.
      * intros Hnone. destruct (Hfresh1 Hnone). split; [done|congruence].
      * intros a0 l0 Hl0 Hsame.
        destruct (Hkept1 a0 l0 Hl0) as (-> & Ho & Ht).
        { intros s' Hs'. apply Hsame. apply elem_of_app. by left. }
        split; [done|]. split; congruence.
    + apply Resize_None in Hres.
      eexists _, _. split; [done|]. split; [done|]. split; [done|]. split.
      * intros _. split; [exact Hlen1 | done].
      * intros a0 l0 Hl0 Hsame. exfalso.
        apply lastConfig_Some in Hcfg1 as (s1 & Hs1 & Hn1 & Hc1).
        assert (flowcontrol.sameVariant (flowcontrol.config l1) (Configuration s)
                = true) as Htrue; [|congruence].
        apply (sameVariant_trans _ (flowcontrol.config l0)).
        -- rewrite sameVariant_sym, <- Hc1. apply Hsame; [|done].
           apply elem_of_app. by left.
        -- apply Hsame; [|done]. apply elem_of_app. right.
           by apply list_elem_of_singleton.
  - rewrite (liveLimiter_ext c1 c _ (Hout1 _ Hnew)).
    destruct (liveLimiter (Name s) c) as [[a0 l0]|] eqn:Hlive0.
    + pose proof Hlive0 as [_ Hret0]%liveLimiter_Some.
      destruct (flowcontrol.Resize l0 (Configuration s)) as [l'|] eqn:Hres.
      * apply Resize_Some in Hres as (_ & _ & Hcfg' & Hout' & Htok' & Hret').
        exists a0, l'. split; [done|]. split; [congruence|].
        split; [congruence|]. split; [done|].
        by intros ? ? [= <- <-] _.
      * apply Resize_None in Hres.
        eexists _, _. split; [done|]. split; [done|]. split; [done|].
        split; [done|].
        intros ? ? [= <- <-] Hsame. exfalso.
        rewrite Hsame in Hres; [done| |done].
        apply elem_of_app. right. by apply list_elem_of_singleton.
    + eexists _, _. split; [done|]. split; [done|]. split; [done|].
      split; [|done]. intros _. split; [exact Hlen1 | done].
Qed.

End flow_control_schemas.

Section flow_control_retire.

Import proxyv1alpha1 clusters.

Implicit Types (c : ClusterInfo) (n : string) (a : nat)
  (l : flowcontrol.FlowControl) (s : FlowControlSchema).

Lemma retiredBinding_idem b : retiredBinding (retiredBinding b) = retiredBinding b.
Proof.
  destruct b as [[a l]|]; simpl; [|done].
  destruct (flowcontrol.outstanding l =? 0)%nat eqn:Hout; simpl; [done|].
  by rewrite Hout.
Qed.

Lemma retireSchema_same c n :
  limiterAt n (retireSchema c n) = retiredBinding (limiterAt n c).
Proof.
  unfold retireSchema.
  destruct (limiterAt n c) as [[a l]|] eqn:Hat; simpl.
  - pose proof Hat as [-> Hobj]%limiterAt_Some. rewrite Hobj.
    destruct (flowcontrol.outstanding l =? 0)%nat; [apply unbind_same|].
    apply limiterAt_Some. simpl. apply limiterAt_Some in Hat as [Hfc _].
    split; [done|]. apply list_lookup_insert_eq. by eapply lookup_lt_Some.
  - unfold limiterAt in Hat.
    destruct (flowcontrol c !! n) as [a|] eqn:Hfc; [|by apply limiterAt_unbound].
    destruct (objects c !! a); [done|]. apply unbind_same.
Qed.

Lemma retireSchema_other c n m :
  bound c → m ≠ n → limiterAt m (retireSchema c n) = limiterAt m c.
Proof.
  intros Hb Hne. unfold retireSchema.
  destruct (flowcontrol c !! n) as [a|] eqn:Hfc; [|done].
  destruct (objects c !! a) as [l|] eqn:Hobj; [|by apply unbind_other].
  destruct (flowcontrol.outstanding l =? 0)%nat; [by apply unbind_other|].
  eapply update_other; [done| |done].
  apply limiterAt_Some. by split.
Qed.

Lemma retireSchema_bound c n : bound c → bound (retireSchema c n).
Proof.
  intros Hb. unfold retireSchema.
  destruct (flowcontrol c !! n) as [a|] eqn:Hfc; [|done].
  destruct (objects c !! a) as [l|] eqn:Hobj; [|by apply unbind_bound].
  destruct (flowcontrol.outstanding l =? 0)%nat; [by apply unbind_bound|].
  apply (update_bound c n a l); [done| |done].
  apply limiterAt_Some. by split.
Qed.

Lemma foldl_retireSchema c (gone : list string) :
  bound c →
  bound (foldl retireSchema c gone)
  ∧ ∀ n, limiterAt n (foldl retireSchema c gone)
         = if decide (n ∈ gone) then retiredBinding (limiterAt n c)
           else limiterAt n c.
Proof.
  revert c. induction gone as [|m gone IH]; intros c Hb; cbn [foldl].
  { split; [done|]. intros n. rewrite decide_False; [done|]. apply not_elem_of_nil. }
  destruct (IH _ (retireSchema_bound c m Hb)) as [Hb' Hat'].
  split; [done|]. intros n. rewrite Hat'.
  destruct (decide (n = m)) as [->|Hne].
  - rewrite retireSchema_same, retiredBinding_idem.
    rewrite (decide_True (P := m ∈ m :: gone)) by (apply elem_of_cons; by left).
    by case_decide.
  - rewrite retireSchema_other by done.
    destruct (decide (n ∈ gone)) as [Hin|Hnotin].
    + rewrite decide_True; [done|]. apply elem_of_cons. by right.
    + rewrite decide_False; [done|]. rewrite elem_of_cons. tauto.
Qed.

(** *** The whole sync *)

(** The sync keeps the limiters well bound; a name that is not in the new
    list is retired; a name of the new list is as the pass over the
    schemas left it. *)
Lemma syncFlowControlLocked_bindings (new : list FlowControlSchema) c :
  bound c →
  bound (syncFlowControlLocked new c)
  ∧ (∀ n, n ∉ Name <$> new →
       limiterAt n (syncFlowControlLocked new c) = retiredBinding (limiterAt n c))
  ∧ (∀ n, n ∈ Name <$> new → synced_name c (syncFlowControlLocked new c) new n).
Proof.
  intros Hb. unfold syncFlowControlLocked.
  destruct (foldl_syncSchema c new Hb) as (Hb1 & Hlen1 & Hout1 & Hin1).
  set (c1 := foldl syncSchema c new) in *.
  set (gone := filter _ _).
  destruct (foldl_retireSchema c1 gone Hb1) as [Hb2 Hat2].
  split; [done|]. split.
  - intros n Hn. rewrite Hat2, (Hout1 _ Hn).
    case_decide as Hgone; [done|].
    destruct (limiterAt n c) as [[a l]|] eqn:Hat; [|done].
    exfalso. apply Hgone. unfold gone.
    rewrite list_elem_of_filter, elem_of_keys. split; [done|].
    rewrite <- (Hout1 _ Hn) in Hat. apply limiterAt_Some in Hat as [-> _]. done.
  - intros n Hn.
    destruct (Hin1 n Hn) as (a & l & Hat & Hrest).
    exists a, l. split; [|done]. rewrite Hat2, decide_False; [done|].
    unfold gone. rewrite list_elem_of_filter. tauto.
Qed.

Lemma retiredBinding_not_live c' n b :
  limiterAt n c' = retiredBinding b → liveLimiter n c' = None.
Proof.
  unfold liveLimiter. intros ->.
  destruct b as [[a l]|]; simpl; [|done].
  by destruct (flowcontrol.outstanding l =? 0)%nat.
Qed.

(** After a sync the cluster is in sync with the new list. *)
Lemma syncFlowControlLocked_inSync (new : list FlowControlSchema) c :
  bound c → inSync new (syncFlowControlLocked new c).
Proof.
  intros Hb.
  destruct (syncFlowControlLocked_bindings new c Hb) as (Hb' & Hout & Hin).
  split; [done|]. intros n.
  destruct (decide (n ∈ Name <$> new)) as [Hn|Hn].
  - destruct (Hin n Hn) as (a & l & Hat & Hlive & Hcfg & _).
    by rewrite (proj2 (liveLimiter_Some _ _ _ _) (conj Hat Hlive)), Hcfg.
  - rewrite (retiredBinding_not_live _ _ _ (Hout n Hn)).
    symmetry. by apply lastConfig_None.
Qed.

End flow_control_retire.

Section flow_control_permits.

Import proxyv1alpha1 clusters.

Implicit Types (c : ClusterInfo) (n : string) (a : nat)
  (l : flowcontrol.FlowControl) (s : FlowControlSchema).

Lemma Load_limiterAt c n :
  Load n c = match limiterAt n c with
             | Some (_, l) => (Some l, true)
             | None => (None, false)
             end.
Proof.
  unfold Load, limiterAt.
  destruct (flowcontrol c !! n) as [a|]; [|done]. by destruct (objects c !! a).
Qed.

Lemma TryAcquire_Some l l' :
  flowcontrol.TryAcquire l = Some l' →
  flowcontrol.name l' = flowcontrol.name l
  ∧ flowcontrol.config l' = flowcontrol.config l
  ∧ flowcontrol.retired l' = flowcontrol.retired l
  ∧ flowcontrol.outstanding l' = S (flowcontrol.outstanding l).
Proof.
  unfold flowcontrol.TryAcquire. destruct (flowcontrol.config l) eqn:Hcfg.
  - by intros [= <-].
  - destruct (_ <? _)%Z; [|done]. by intros [= <-].
  - destruct (_ <=? _)%Z; [|done]. by intros [= <-].
Qed.

(** Admission leaves the cluster in sync with its schemas. *)
Lemma Admit_inSync (schemas : list FlowControlSchema) c n :
  inSync schemas c → inSync schemas (Admit n c).2.
Proof.
  intros [Hb Hcfg]. unfold Admit.
  destruct (liveLimiter n c) as [[a l]|] eqn:Hlive; [|done].
  destruct (flowcontrol.TryAcquire l) as [l'|] eqn:Hacq; [|done]. simpl.
  apply TryAcquire_Some in Hacq as (Hname & Hconfig & Hretired & _).
  pose proof Hlive as [Hat Hret]%liveLimiter_Some.
  split; [by apply (update_bound c n a l)|].
  intros m. rewrite <- Hcfg. destruct (decide (m = n)) as [->|Hne].
  - rewrite Hlive.
    rewrite (proj2 (liveLimiter_Some _ n a l')); [simpl; congruence|].
    split; [by apply (update_same c n a l)|congruence].
  - f_equal. apply liveLimiter_ext. by apply (update_other c n a l).
Qed.

(** A retired limiter is unbound when the last of its permits is back. *)
Lemma Release_drains k c n a l :
  bound c → limiterAt n c = Some (a, l) →
  flowcontrol.retired l = true → flowcontrol.outstanding l = S k →
  limiterAt n (Nat.iter (S k) (Release (Held a)) c) = None.
Proof.
  revert c l. induction k as [|k IH]; intros c l Hb Hat Hret Hout.
  - simpl. pose proof (bound_name _ _ _ _ Hb Hat) as Hn.
    apply limiterAt_Some in Hat as [Hfc Hobj]. rewrite Hobj. simpl.
    rewrite Hret, Hout, Hn, Hfc. simpl. rewrite bool_decide_eq_true_2 by done.
    unfold limiterAt. simpl. by rewrite lookup_delete_eq.
  - rewrite Nat.iter_succ_r.
    assert (Hstep : Release (Held a) c
                    = setFlowControl (<[a := flowcontrol.Release l]> (objects c))
                                     (flowcontrol c) c).
    { pose proof Hat as [Hfc Hobj]%limiterAt_Some.
      unfold Release. rewrite Hobj. simpl. by rewrite Hret, Hout. }
    rewrite Hstep. apply (IH _ (flowcontrol.Release l)).
    + by apply (update_bound c n a l).
    + by apply (update_same c n a l).
    + done.
    + simpl. by rewrite Hout.
Qed.

End flow_control_permits.

Section flow_control_reconfiguration.

Import proxyv1alpha1 clusters.

(** C3: on a cluster whose flow control is in sync with the schemas [old],
    the sync to the schemas [new] leaves
    - under every name in [new] and not in [old] a limiter that the sync
      allocated, live, with no permit out and the configuration [new]
      gives to the name;
    - under every name in [old] and not in [new] no limiter when no permit
      of its limiter was out, and otherwise that limiter, marked as
      retired, which is gone once its permits are released;
    - under every name in both, when the schemas of the name in [new]
      differ from the old one in numeric parameters only, the same limiter
      object, with the configuration [new] gives to the name and with the
      permits and tokens it had.
    The cluster is then in sync with [new]. *)
Theorem syncFlowControlLocked_reconfigures
    (old new : list FlowControlSchema) (c : ClusterInfo) :
  inSync old c →
  let c' := syncFlowControlLocked new c in
  (∀ n, n ∈ Name <$> new → n ∉ Name <$> old →
     ∃ a l, limiterAt n c' = Some (a, l)
            ∧ Load n c' = (Some l, true)
            ∧ (length (objects c) ≤ a)%nat
            ∧ flowcontrol.retired l = false
            ∧ flowcontrol.outstanding l = 0%nat
            ∧ lastConfig n new = Some (flowcontrol.config l))
  ∧ (∀ n, n ∈ Name <$> old → n ∉ Name <$> new →
       Load n c' = (None, false)
       ∨ ∃ a l, limiterAt n c' = Some (a, l)
                ∧ flowcontrol.retired l = true
                ∧ (0 < flowcontrol.outstanding l)%nat
                ∧ Load n (Nat.iter (flowcontrol.outstanding l)
                                   (Release (Held a)) c') = (None, false))
  ∧ (∀ n cfg, lastConfig n old = Some cfg → n ∈ Name <$> new →
       (∀ s, s ∈ new → Name s = n →
          flowcontrol.sameVariant cfg (Configuration s) = true) →
       ∃ a l0 l, liveLimiter n c = Some (a, l0)
                 ∧ limiterAt n c' = Some (a, l)
                 ∧ Load n c' = (Some l, true)
                 ∧ lastConfig n new = Some (flowcontrol.config l)
                 ∧ flowcontrol.outstanding l = flowcontrol.outstanding l0
                 ∧ flowcontrol.tokens l = flowcontrol.tokens l0
                 ∧ flowcontrol.retired l = false)
  ∧ inSync new c'.
Proof.
  intros [Hb Hsync]. cbn zeta.
  destruct (syncFlowControlLocked_bindings new c Hb) as (Hb' & Hout & Hin).
  split; [|split; [|split]].
  - intros n Hnew Hold.
    destruct (Hin n Hnew) as (a & l & Hat & Hlive & Hcfg & Hfresh & _).
    destruct Hfresh as [Hlen Hzero].
    { specialize (Hsync n). rewrite (proj2 (lastConfig_None _ _) Hold) in Hsync.
      by apply fmap_None in Hsync. }
    exists a, l. by rewrite Load_limiterAt, Hat.
  - intros n Hold Hnew. rewrite Load_limiterAt, (Hout n Hnew).
    destruct (liveLimiter n c) as [[a l0]|] eqn:Hlive0.
    2: { exfalso. specialize (Hsync n). rewrite Hlive0 in Hsync.
         symmetry in Hsync. by apply lastConfig_None in Hsync. }
    apply liveLimiter_Some in Hlive0 as [Hat0 Hret0]. rewrite Hat0. simpl.
    destruct (flowcontrol.outstanding l0) as [|k] eqn:Hk; simpl; [by left|].
    right. exists a, (flowcontrol.retire l0).
    split; [done|]. split; [done|]. simpl. split; [lia|].
    rewrite Hk, Load_limiterAt.
    rewrite (Release_drains k _ n a (flowcontrol.retire l0)); try done.
    by rewrite (Hout n Hnew), Hat0; simpl; rewrite Hk.
  - intros n cfg Hold Hnew Hsame.
    specialize (Hsync n). rewrite Hold in Hsync.
    apply fmap_Some in Hsync as ([a l0] & Hlive0 & Hcfg0). simpl in Hcfg0.
    destruct (Hin n Hnew) as (a' & l & Hat & Hlive & Hcfg & _ & Hkept).
    destruct (Hkept a l0 Hlive0) as (-> & Hpermits & Htokens).
    { intros s Hs Hn. rewrite <- Hcfg0. by apply Hsame. }
    exists a, l0, l. by rewrite Load_limiterAt, Hat.
  - by apply syncFlowControlLocked_inSync.
Qed.

Lemma busy_inSync : inSync [exempt; maxInflight10; tokenBucket10] busy.
Proof.
  unfold busy. do 3 apply Admit_inSync.
  apply syncFlowControlLocked_inSync, bound_new.
Qed.

(** From exempt, max-inflight 10 and tokenbucket 10/20 to max-inflight 20,
    tokenbucket 20/40 and batch: batch gets a new limiter, max-inflight
    keeps its limiter and the permit that is out, and exempt is retired
    until its two permits are back. *)
Lemma syncFlowControlLocked_reconfigures_witness :
  let c' := syncFlowControlLocked [maxInflight20; tokenBucket20; batch] busy in
  limiterAt "batch" c'
    = Some (3%nat, flowcontrol.NewFlowControl batch)
  ∧ limiterAt "max-inflight" busy
    = Some (1%nat, {| flowcontrol.name := "max-inflight";
                      flowcontrol.config := MaxRequestsInflight 10;
                      flowcontrol.outstanding := 1; flowcontrol.tokens := 0;
                      flowcontrol.retired := false |})
  ∧ limiterAt "max-inflight" c'
    = Some (1%nat, {| flowcontrol.name := "max-inflight";
                      flowcontrol.config := MaxRequestsInflight 20;
                      flowcontrol.outstanding := 1; flowcontrol.tokens := 0;
                      flowcontrol.retired := false |})
  ∧ (Load "exempt" c').2 = true
  ∧ Load "exempt" (Release (Held 0) (Release (Held 0) c')) = (None, false)
  ∧ inSync [maxInflight20; tokenBucket20; batch] c'.
Proof.
  cbn zeta.
  split; [reflexivity|]. split; [reflexivity|]. split; [reflexivity|].
  split; [reflexivity|]. split; [reflexivity|].
  apply (syncFlowControlLocked_reconfigures
           [exempt; maxInflight10; tokenBucket10]
           [maxInflight20; tokenBucket20; batch] busy busy_inSync).
Defined.

(** The three cases of the test of [syncFlowControlLocked], each a sync to
    the old and then to the new schemas on the cluster of the tests: the
    three limiters are there; none is left; both are resized. *)
Example syncFlowControlLocked_test_add :
  let c := syncFlowControlLocked [exempt; maxInflight10; tokenBucket10]
             (syncFlowControlLocked [] (NewClusterInfo "testing.cluster")) in
  (Load "exempt" c).2 = true
  ∧ (Load "max-inflight" c).2 = true
  ∧ (Load "tokenbucket" c).2 = true.
Proof. repeat split. Qed.

Example syncFlowControlLocked_test_delete :
  let c := syncFlowControlLocked []
             (syncFlowControlLocked [exempt; maxInflight10; tokenBucket10]
                (NewClusterInfo "testing.cluster")) in
  size (flowcontrol c) = 0%nat.
Proof. reflexivity. Qed.

Example syncFlowControlLocked_test_resize :
  let c := syncFlowControlLocked [maxInflight20; tokenBucket20]
             (syncFlowControlLocked [maxInflight10; tokenBucket10]
                (NewClusterInfo "testing.cluster")) in
  flowcontrol.config <$> (Load "max-inflight" c).1
    = Some (flowcontrol.config (flowcontrol.NewFlowControl maxInflight20))
  ∧ flowcontrol.config <$> (Load "tokenbucket" c).1
    = Some (flowcontrol.config (flowcontrol.NewFlowControl tokenBucket20))
  ∧ limiterAt "max-inflight" c = Some (0%nat, flowcontrol.NewFlowControl maxInflight20).
Proof. repeat split. Qed.

End flow_control_reconfiguration.


(* ===================================================================== *)
(** * Part III: further properties of the sources                         *)
(* ===================================================================== *)

(** ** The error log of the server *)

Section error_log.

Import app.

Lemma tlsHandshakeNoise_last : last tlsHandshakeNoise ≠ Some x0a.
Proof. discriminate. Qed.

(** The newline the logger appends does not make a line handshake noise,
    nor stop it from being one. *)
Lemma noise_withNewline (s : list byte) :
  tlsHandshakeNoise `prefix_of` stdlog.withNewline s
  ↔ tlsHandshakeNoise `prefix_of` s.
Proof.
  unfold stdlog.withNewline.
  assert (Hs : tlsHandshakeNoise `prefix_of` s ++ [x0a]
               ↔ tlsHandshakeNoise `prefix_of` s).
  { split; [|apply prefix_app_r].
    intros Hpre.
    destruct (prefix_weak_total _ _ _ Hpre (prefix_app_r s s [x0a] (reflexivity s)))
      as [Hps|Hsp]; [done|].
    destruct (decide (length tlsHandshakeNoise ≤ length s)%nat) as [Hle|Hgt].
    - by rewrite (prefix_length_eq _ _ Hsp Hle).
    - exfalso. apply tlsHandshakeNoise_last.
      rewrite (prefix_length_eq _ _ Hpre); [apply last_snoc|].
      rewrite length_app. change (length [x0a]) with 1%nat. lia. }
  destruct (last s) as [b|]; [|exact Hs].
  destruct (decide (b = x0a)) as [->|Hne]; [done|].
  by destruct b.
Qed.

(** X8: through the error log [CreateProxyConfig] installs, a message that
    begins with "http: TLS handshake error from", whatever follows it,
    writes nothing to the log; any other message is logged once, as it is
    but for a newline at its end. The logger is never given an error. *)
Theorem Output_drops_handshake_errors (s : list byte) (sink : klog.Sink) :
  stdlog.Output s sink =
    (None,
     if decide (tlsHandshakeNoise `prefix_of` s) then sink
     else sink ++ [klog.InfoDepth 1 (string_of_list_byte (stdlog.withNewline s))])
  ∧ (∀ peer, stdlog.Output (tlsHandshakeNoise ++ peer) sink = (None, sink)).
Proof.
  assert (Hout : stdlog.Output s sink =
    (None,
     if decide (tlsHandshakeNoise `prefix_of` s) then sink
     else sink ++ [klog.InfoDepth 1 (string_of_list_byte (stdlog.withNewline s))])).
  { unfold stdlog.Output, Write. fold tlsHandshakeNoise.
    destruct (bytes.HasPrefix (stdlog.withNewline s) tlsHandshakeNoise) eqn:Hp.
    - apply (proj1 (HasPrefix_prefix_of _ _)), (proj1 (noise_withNewline _)) in Hp.
      by rewrite decide_True.
    - rewrite decide_False; [done|]. intros Hpre.
      apply (proj2 (noise_withNewline _)), (proj2 (HasPrefix_prefix_of _ _)) in Hpre.
      congruence. }
  split; [exact Hout|].
  intros peer. unfold stdlog.Output, Write. fold tlsHandshakeNoise.
  rewrite (proj2 (HasPrefix_prefix_of _ _)); [done|].
  apply noise_withNewline. by apply prefix_app_r.
Qed.

(** X9: [Write] reports fewer bytes than it was given, with a nil error,
    exactly on the lines it drops, each of which has at least 30 bytes; it
    keeps the entries of the log and adds at most one. *)
Theorem Write_short_count_iff_dropped (data : list byte) (sink : klog.Sink) :
  let n := (Write data sink).1.1 in
  let sink' := (Write data sink).2 in
  ((n < Z.of_nat (length data))%Z ↔ tlsHandshakeNoise `prefix_of` data)
  ∧ ((n < Z.of_nat (length data))%Z → n = 0%Z ∧ sink' = sink
       ∧ (30 ≤ length data)%nat)
  ∧ (n = Z.of_nat (length data) ∨ n = 0%Z)
  ∧ sink `prefix_of` sink'
  ∧ (length sink' ≤ S (length sink))%nat.
Proof.
  cbn zeta. unfold Write. fold tlsHandshakeNoise.
  destruct (bytes.HasPrefix data tlsHandshakeNoise) eqn:Hp; simpl.
  - apply HasPrefix_prefix_of in Hp.
    pose proof (prefix_length _ _ Hp) as Hlen.
    change (length tlsHandshakeNoise) with 30%nat in Hlen.
    split; [split; [done | lia]|]. split; [by intros _|].
    split; [by right|]. split; [done | lia].
  - assert (Hnot : ¬ tlsHandshakeNoise `prefix_of` data).
    { intros Hpre. apply HasPrefix_prefix_of in Hpre. congruence. }
    split; [split; [lia | done]|]. split; [lia|].
    split; [by left|]. unfold klog.log. split; [by apply prefix_app_r|].
    rewrite length_app. simpl. lia.
Qed.

End error_log.

(** ** More on the TLS handshake callback *)

Section handshake_callback_edges.

Import clusters controllers.

Variable m : Manager.
Variable getConfigFunc : GetConfigForClientFunc.
Variable clientHello : tls.ClientHelloInfo.
Variable sink : klog.Sink.

Abbreviation wrapped :=
  (WrapGetConfigForClient m getConfigFunc clientHello sink).

Lemma staticManager_answersWithCluster registered hello :
  answersWithCluster (staticManager registered) hello.
Proof.
  intros host _. simpl. by destruct (registered !! host).
Qed.

Lemma overlay_nil tlsConfig :
  overlay tlsConfig None =
    if decide (hasMaterial tlsConfig) then Panicked else Returned None.
Proof.
  unfold overlay, bind, store, hasMaterial.
  case_bool_decide as HCA.
  - rewrite decide_True; [done | by left].
  - destruct (tls.Certificates tlsConfig) as [|crt certs] eqn:Hcerts; simpl.
    + rewrite decide_False; [done|]. intros [Hn|Hn]; [by apply Hn | done].
    + rewrite decide_True; [done | by right].
Qed.

(** X1: the callback returns an error exactly when the base callback
    does, and then it returns what the base callback returned, writes
    nothing to the log and does not consult the registry. *)
Theorem WrapGetConfigForClient_error_iff_base_error :
  (∀ cfg err,
     wrapped.1 = Returned (cfg, Some err)
     ↔ getConfigFunc clientHello = (cfg, Some err))
  ∧ (∀ cfg err m',
       getConfigFunc clientHello = (cfg, Some err) →
       WrapGetConfigForClient m' getConfigFunc clientHello sink
         = (Returned (cfg, Some err), sink)).
Proof.
  split.
  - intros cfg err. split; [apply callback_error_is_base|].
    apply callback_base_error.
  - intros cfg err m' Hbase. unfold WrapGetConfigForClient. by rewrite Hbase.
Qed.

(** X4: what a handshake writes to the log does not depend on the
    registry: nothing when the base callback fails; one error entry with
    the parse error when the local address cannot be parsed; and otherwise
    one entry at verbosity 5 with the host name that is looked up. Earlier
    entries are kept. *)
Theorem WrapGetConfigForClient_log :
  wrapped.2 =
    sink ++
    match getConfigFunc clientHello with
    | (_, Some _) => []
    | (_, None) =>
        match requestedHostname clientHello with
        | (_, Some err) =>
            [klog.Errorf "failed to get hostname from clientHello's conn: %v"
                         [Error err]]
        | (hostname, None) =>
            [klog.VInfof 5 "get tls config for %q" [hostname]]
        end
    end.
Proof.
  unfold WrapGetConfigForClient, klog.log.
  destruct (getConfigFunc clientHello) as [base [e|]]; simpl.
  { by rewrite app_nil_r. }
  destruct (requestedHostname clientHello) as [host [e|]]; simpl; [done|].
  destruct (Get m host) as [[cluster|] []]; simpl; try done.
  by destruct (LoadTLSConfig cluster) as [[tlsConfig|] []].
Qed.

(** Every way a handshake with a base config can end. *)
Lemma callback_with_base base :
  answersWithCluster m clientHello →
  getConfigFunc clientHello = (Some base, None) →
  wrapped.1 = Returned (Some base, None)
  ∨ ∃ host cluster tlsConfig cfg,
      requestedHostname clientHello = (host, None)
      ∧ Get m host = (Some cluster, true)
      ∧ LoadTLSConfig cluster = (Some tlsConfig, true)
      ∧ overlay tlsConfig (tls.Clone (Some base)) = Returned (Some cfg)
      ∧ wrapped.1 = Returned (Some cfg, None).
Proof.
  intros Hm Hbase.
  destruct (requestedHostname clientHello) as [host [e|]] eqn:Hhost.
  { left. by eapply callback_unparsed_address. }
  destruct (Get m host) as [[cluster|] []] eqn:Hget.
  - destruct (LoadTLSConfig cluster) as [[tlsConfig|] []] eqn:Hload.
    + right. destruct (overlay_fields tlsConfig base) as (cfg & Hcfg & _).
      exists host, cluster, tlsConfig, cfg.
      rewrite (callback_hit _ _ _ _ _ _ _ _ Hbase Hhost Hget Hload), Hcfg.
      done.
    + left. eapply callback_not_loaded; [done..|]. by rewrite Hload.
    + unfold LoadTLSConfig in Hload. by destruct (tlsConfig cluster).
    + left. eapply callback_not_loaded; [done..|]. by rewrite Hload.
  - left. eapply callback_miss; [done..|]. by rewrite Hget.
  - by destruct (Hm host).
  - left. eapply callback_miss; [done..|]. by rewrite Hget.
Qed.

(** X3: when the base callback gives a config and no error, and the
    registry does not answer ok with a nil cluster, the callback neither
    panics nor fails: it returns a config and a nil error. *)
Theorem WrapGetConfigForClient_returns_config (base : tls.Config) :
  answersWithCluster m clientHello →
  getConfigFunc clientHello = (Some base, None) →
  ∃ cfg, wrapped.1 = Returned (Some cfg, None).
Proof.
  intros Hm Hbase.
  destruct (callback_with_base base Hm Hbase)
    as [Hsame|(host & cluster & tlsConfig & cfg & _ & _ & _ & _ & Hcfg)];
    eauto.
Qed.

(** X2: the callback never asks for more than a request of the client
    certificate. The config it returns has the ClientAuth and the
    ClientCAs of the base config, or else ClientAuth RequestClientCert
    together with a client-CA pool. *)
Theorem WrapGetConfigForClient_never_requires_certificate
    (base cfg : tls.Config) :
  getConfigFunc clientHello = (Some base, None) →
  wrapped.1 = Returned (Some cfg, None) →
  (tls.ClientAuth cfg = tls.ClientAuth base
   ∧ tls.ClientCAs cfg = tls.ClientCAs base)
  ∨ (tls.ClientAuth cfg = tls.RequestClientCert
     ∧ tls.ClientCAs cfg ≠ None).
Proof.
  intros Hbase. unfold WrapGetConfigForClient. rewrite Hbase.
  destruct (requestedHostname clientHello) as [host [e|]];
    cbn -[overlay tls.Clone].
  { intros [= <-]. by left. }
  destruct (Get m host) as [[cluster|] []]; cbn -[overlay tls.Clone];
    try (intros [= <-]; by left); try done.
  destruct (LoadTLSConfig cluster) as [[tlsConfig|] []];
    cbn -[overlay tls.Clone]; try (intros [= <-]; by left); try done.
  destruct (overlay_fields tlsConfig base)
    as (cfg' & -> & HCA & HnoCA & _). simpl. intros [= <-].
  destruct (tls.ClientCAs tlsConfig) as [pool|] eqn:Hpool.
  - right. destruct HCA as [HA HC]; [done|]. by rewrite HA, HC.
  - left. by apply HnoCA.
Qed.

(** X5: when the base callback gives a nil config and a nil error, the
    callback panics exactly when the host name resolves to a cluster with
    a loaded TLS config that has a client-CA pool or a certificate, the
    overlay then being written through the nil copy; in every other case it
    returns the nil config and a nil error. *)
Theorem WrapGetConfigForClient_nil_base :
  answersWithCluster m clientHello →
  getConfigFunc clientHello = (None, None) →
  (wrapped.1 = Panicked
   ↔ ∃ host cluster tlsConfig,
       requestedHostname clientHello = (host, None)
       ∧ Get m host = (Some cluster, true)
       ∧ LoadTLSConfig cluster = (Some tlsConfig, true)
       ∧ hasMaterial tlsConfig)
  ∧ (wrapped.1 ≠ Panicked → wrapped.1 = Returned (None, None)).
Proof.
  intros Hm Hbase.
  destruct (requestedHostname clientHello) as [host [e|]] eqn:Hhost.
  { rewrite (callback_unparsed_address _ _ _ _ _ _ _ Hbase Hhost).
    split; [|done]. split; [done|]. by intros (? & ? & ? & [=] & _). }
  destruct (Get m host) as [[cluster|] ok] eqn:Hget.
  2: { destruct ok; [by destruct (Hm host)|].
       rewrite (callback_miss _ _ _ _ _ _ Hbase Hhost); [|by rewrite Hget].
       split; [|done]. split; [done|].
       intros (h & c & t & [= <-] & Hget' & _). congruence. }
  destruct ok.
  2: { rewrite (callback_miss _ _ _ _ _ _ Hbase Hhost); [|by rewrite Hget].
       split; [|done]. split; [done|].
       intros (h & c & t & [= <-] & Hget' & _). congruence. }
  destruct (LoadTLSConfig cluster) as [[tlsConfig|] ok] eqn:Hload.
  2: { assert (ok = false) as ->.
       { unfold LoadTLSConfig in Hload. destruct (tlsConfig cluster); congruence. }
       rewrite (callback_not_loaded _ _ _ _ _ _ _ Hbase Hhost Hget);
         [|by rewrite Hload].
       split; [|done]. split; [done|].
       intros (h & c & t & [= <-] & Hget' & Hload' & _). congruence. }
  assert (ok = true) as ->.
  { unfold LoadTLSConfig in Hload. destruct (clusters.tlsConfig cluster); congruence. }
  rewrite (callback_hit _ _ _ _ _ _ _ _ Hbase Hhost Hget Hload).
  simpl tls.Clone. rewrite overlay_nil.
  destruct (decide (hasMaterial tlsConfig)) as [Hmat|Hnone]; simpl.
  - split; [|done]. split; [|done]. intros _. by exists host, cluster, tlsConfig.
  - split; [|done]. split; [done|].
    intros (h & c & t & [= <-] & Hget' & Hload' & Hmat). congruence.
Qed.

End handshake_callback_edges.

Section handshake_callback_edge_examples.

Import clusters controllers.

(** With the gateway's base config, a handshake for a registered cluster
    ends in a config. *)
Lemma WrapGetConfigForClient_returns_config_witness :
  ∃ cfg,
    (WrapGetConfigForClient (registryWith keyPairAndCA) baseCallback
       (helloFor "a.example") []).1 = Returned (Some cfg, None).
Proof.
  apply (WrapGetConfigForClient_returns_config
           (registryWith keyPairAndCA) baseCallback (helloFor "a.example") []
           gatewayConfig).
  - apply staticManager_answersWithCluster.
  - reflexivity.
Defined.

(** For a cluster with a client CA the certificate is requested; for one
    without, the base's NoClientCert stays. *)
Lemma WrapGetConfigForClient_never_requires_certificate_witness :
  (∃ cfg,
     (WrapGetConfigForClient (registryWith keyPairAndCA) baseCallback
        (helloFor "a.example") []).1 = Returned (Some cfg, None)
     ∧ ((tls.ClientAuth cfg = tls.ClientAuth gatewayConfig
         ∧ tls.ClientCAs cfg = tls.ClientCAs gatewayConfig)
        ∨ (tls.ClientAuth cfg = tls.RequestClientCert
           ∧ tls.ClientCAs cfg ≠ None))).
Proof.
  eexists. split; [reflexivity|].
  apply (WrapGetConfigForClient_never_requires_certificate
           (registryWith keyPairAndCA) baseCallback (helloFor "a.example") []);
    reflexivity.
Defined.

(** With a nil base config, a handshake for a cluster with a key pair
    panics, and one for an unknown host returns the nil config. *)
Lemma WrapGetConfigForClient_nil_base_witness :
  (WrapGetConfigForClient (registryWith keyPairOnly) nilCallback
     (helloFor "a.example") []).1 = Panicked
  ∧ (WrapGetConfigForClient (registryWith keyPairOnly) nilCallback
       (helloFor "b.example") []).1 = Returned (None, None).
Proof.
  split.
  - apply (WrapGetConfigForClient_nil_base
             (registryWith keyPairOnly) nilCallback (helloFor "a.example") []).
    + apply staticManager_answersWithCluster.
    + reflexivity.
    + exists "a.example", (servingWith keyPairOnly), keyPairOnly.
      repeat split. right. discriminate.
  - apply (WrapGetConfigForClient_nil_base
             (registryWith keyPairOnly) nilCallback (helloFor "b.example") []).
    + apply staticManager_answersWithCluster.
    + reflexivity.
    + discriminate.
Defined.

End handshake_callback_edge_examples.

(** ** More on the health probe *)

Section health_probe_edges.

Import clusters controllers clusterstest.

(** X6: a probe marks the endpoint ready exactly when the request had no
    error and the status code is 200, and then writes nothing to the log;
    when it marks the endpoint not ready it logs one error entry with the
    cluster, the endpoint and the very reason and message it publishes. It
    never asks for the probing to stop. *)
Theorem GatewayHealthCheck_ready_iff_200
    (result : Result) (e : EndpointInfo) (sink : klog.Sink) :
  let done := (GatewayHealthCheck result e sink).1.1 in
  let e' := (GatewayHealthCheck result e sink).1.2 in
  let sink' := (GatewayHealthCheck result e sink).2 in
  done = false
  ∧ (ready e' = true
     ↔ ResultError result = None ∧ ResultStatusCode result = 200%Z)
  ∧ sink' =
      (if ready e' then sink
       else sink ++
            [klog.Errorf
               "upstream health check failed, cluster=%q endpoint=%q reason=%q message=%q"
               [Cluster e; Endpoint e; reason e'; message e']]).
Proof.
  cbn zeta. unfold GatewayHealthCheck, StatusOK, klog.log.
  destruct (ResultError result) as [err|].
  - destruct (IsTimeout err); [|destruct (APIStatus err)]; simpl;
      (split; [done|]); (split; [|done]); (split; [done | by intros [? _]]).
  - destruct (ResultStatusCode result =? 200)%Z eqn:Hcode; simpl.
    + apply Z.eqb_eq in Hcode. by rewrite Hcode.
    + apply Z.eqb_neq in Hcode. split; [done|]. split; [|done].
      split; [done|]. by intros [_ ?].
Qed.

(** X7: the health check of the tests leaves every endpoint ready, leaves
    a ready endpoint as it is, and is idempotent; run after a probe of
    [GatewayHealthCheck], whatever its result, it leaves the endpoint ready
    with an empty reason and message. *)
Theorem alwaysReadyHealthCheck_makes_ready (e : EndpointInfo) :
  let e' := (alwaysReadyHealthCheck e).2 in
  (alwaysReadyHealthCheck e).1 = false
  ∧ ready e' = true
  ∧ Cluster e' = Cluster e ∧ Endpoint e' = Endpoint e
  ∧ (ready e = true → e' = e)
  ∧ (ready e = false → status e' = (true, EmptyString, EmptyString))
  ∧ alwaysReadyHealthCheck e' = (false, e')
  ∧ (∀ result sink,
       status (alwaysReadyHealthCheck
                 (GatewayHealthCheck result e sink).1.2).2
       = (true, EmptyString, EmptyString)).
Proof.
  cbn zeta. unfold alwaysReadyHealthCheck, IsReady.
  destruct (ready e) eqn:Hready; simpl; rewrite ?Hready;
    (repeat (split; [done|])); intros result sink.
  all: unfold GatewayHealthCheck, StatusOK;
    destruct (ResultError result) as [err|];
    [ destruct (IsTimeout err); [|destruct (APIStatus err)]; reflexivity
    | by destruct (ResultStatusCode result =? 200)%Z ].
Qed.

End health_probe_edges.

(** ** Validation of the options of the command *)

Section options_validation.

Import controllers external cmdoptions.

Context `{!Types} `{!proxyoptions.Library}.

(** The errors of an optional group of options. *)
Abbreviation errorsOf validate group := (from_option validate [] group).

Lemma bind_Returned {A B} (o : Outcome A) (k : A → Outcome B) (b : B) :
  bind o k = Returned b ↔ ∃ a, o = Returned a ∧ k a = Returned b.
Proof.
  destruct o as [a|]; simpl; split.
  - intros Hk. by exists a.
  - by intros (a' & [= <-] & Hk).
  - done.
  - by intros (a' & [=] & _).
Qed.

(** What [ProxyOptions.Validate] returns when it returns. *)
Lemma ProxyValidate_Returned (o : ProxyOptions) (errs : list error) :
  ProxyValidate o = Returned errs
  ↔ ∃ a z sv,
      proxyoptions.AuthenticationValidate (Authentication o) = Returned a
      ∧ proxyoptions.AuthorizationValidate (Authorization o) = Returned z
      ∧ proxyoptions.SecureServingValidate (SecureServing o) = Returned sv
      ∧ errs = a ++ z ++ sv ++ options.Validate (UpstreamCluster o)
               ++ errorsOf proxyoptions.FeaturesValidate (Features o)
               ++ errorsOf proxyoptions.ServerRunValidate (ServerRun o).
Proof.
  unfold ProxyValidate. rewrite bind_Returned. split.
  - intros (a & Ha & Hrest). apply bind_Returned in Hrest as (z & Hz & Hrest).
    apply bind_Returned in Hrest as (sv & Hsv & Hrest).
    exists a, z, sv. split; [done|]. split; [done|]. split; [done|].
    destruct (Features o), (ServerRun o); simpl in *;
      injection Hrest as <-; by rewrite <- ?app_assoc, ?app_nil_r.
  - intros (a & z & sv & Ha & Hz & Hsv & ->). exists a. split; [done|].
    rewrite Hz. simpl. rewrite Hsv. simpl.
    destruct (Features o), (ServerRun o); simpl;
      by rewrite <- ?app_assoc, ?app_nil_r.
Qed.

(** X10: when [ProxyOptions.Validate] returns, its errors are those of
    authentication, authorization, secure serving, the upstream cluster
    options, the features and the server run options, in this order and
    none left out. So an unset upstream cluster file is reported whatever
    the other options are, and an empty result means that the file is
    set. *)
Theorem ProxyValidate_reports_every_group
    (o : ProxyOptions) (errs : list error) :
  ProxyValidate o = Returned errs →
  (∃ a z sv,
     proxyoptions.AuthenticationValidate (Authentication o) = Returned a
     ∧ proxyoptions.AuthorizationValidate (Authorization o) = Returned z
     ∧ proxyoptions.SecureServingValidate (SecureServing o) = Returned sv
     ∧ errs = a ++ z ++ sv ++ options.Validate (UpstreamCluster o)
              ++ errorsOf proxyoptions.FeaturesValidate (Features o)
              ++ errorsOf proxyoptions.ServerRunValidate (ServerRun o))
  ∧ (∀ u, UpstreamCluster o = Some u → options.Path u = EmptyString →
       mustBeSet ∈ errs)
  ∧ (errs = [] →
       ∀ u, UpstreamCluster o = Some u → options.Path u ≠ EmptyString).
Proof.
  intros Hv. pose proof Hv as (a & z & sv & Ha & Hz & Hsv & ->)%ProxyValidate_Returned.
  split; [by exists a, z, sv|].
  assert (Hreported : ∀ u, UpstreamCluster o = Some u →
            options.Path u = EmptyString →
            mustBeSet ∈ options.Validate (UpstreamCluster o)).
  { intros u -> Hpath. unfold options.Validate. rewrite Hpath. simpl.
    by apply list_elem_of_singleton. }
  split.
  - intros u Hu Hpath. rewrite !elem_of_app. right. right. right. left.
    by eapply Hreported.
  - intros Hnil u Hu Hpath.
    apply app_eq_nil in Hnil as [_ Hnil]. apply app_eq_nil in Hnil as [_ Hnil].
    apply app_eq_nil in Hnil as [_ Hnil]. apply app_eq_nil in Hnil as [Hnil _].
    pose proof (Hreported u Hu Hpath) as Hin. rewrite Hnil in Hin.
    by apply elem_of_nil in Hin.
Qed.

(** X11: [ProxyOptions.Validate] panics on nil authentication options,
    which it reads without a check. Nil secure serving, upstream cluster,
    feature and server run options are passed over without an error: with
    all four nil the errors are those of the request header and of
    authorization alone, and nothing is said about the upstream cluster
    file. *)
Theorem ProxyValidate_nil_groups (o : ProxyOptions) :
  (Authentication o = None → ProxyValidate o = Panicked)
  ∧ (∀ a, Authentication o = Some a →
       SecureServing o = None → UpstreamCluster o = None →
       Features o = None → ServerRun o = None →
       ProxyValidate o =
         bind (proxyoptions.AuthorizationValidate (Authorization o))
              (λ z, Returned
                      (errorsOf proxyoptions.RequestHeaderValidate
                                (proxyoptions.RequestHeader a) ++ z))).
Proof.
  unfold ProxyValidate. split.
  - by intros ->.
  - intros a -> -> -> -> ->. simpl.
    destruct (proxyoptions.AuthorizationValidate (Authorization o)) as [z|];
      simpl; [|done].
    destruct (proxyoptions.RequestHeader a); simpl; by rewrite ?app_nil_r.
Qed.

End options_validation.

(** ** Completion of the options of the command *)

Section options_completion.

Import controllers external cmdoptions.

Context `{!Types} `{!proxyoptions.Library}.

Implicit Types (o : ProxyOptions) (h : string * option error)
  (sink : klog.Sink).





(** What [Complete] leaves alone. *)
Lemma ProxyComplete_frame o h sink o' err sink' :
  ProxyComplete o h sink = (Returned (o', err), sink') →
  Authentication o' = Authentication o
  ∧ Authorization o' = Authorization o
  ∧ UpstreamCluster o' = UpstreamCluster o
  ∧ Features o' = Features o
  ∧ sink `prefix_of` sink'.
Proof.
  unfold ProxyComplete.
  assert (Hfirst : ∀ o1 e sink1,
            completeServerRun o h sink = (Returned (o1, e), sink1) →
            Authentication o1 = Authentication o
            ∧ Authorization o1 = Authorization o
            ∧ UpstreamCluster o1 = UpstreamCluster o
            ∧ Features o1 = Features o
            ∧ sink `prefix_of` sink1).
  { intros o1 e sink1. unfold completeServerRun.
    destruct (ServerRun o) as [sr|]; [|by intros [= <- <- <-]].
    destruct (match SecureServing o with Some _ => _ | None => _ end)
      as [[sr1 [e1|]]|]; [by intros [= <- <- <-]| |done].
    destruct (strings.len _ =? 0)%Z; [|by intros [= <- <- <-]].
    destruct (0 <? length _)%nat.
    - intros [= <- <- <-]. repeat split; try done. by apply prefix_app_r.
    - destruct h as [hostname [e2|]]; intros [= <- <- <-];
        repeat split; try done. by apply prefix_app_r. }
  destruct (completeServerRun o h sink) as [[[o1 [e|]]|] sink1] eqn:Hone.
  - intros [= <- <- <-]. by apply (Hfirst _ _ _ eq_refl).
  - destruct (Hfirst _ _ _ eq_refl) as (Ha & Hz & Hu & Hf & Hsink).
    intros [= Hsecond <-]. unfold completeSecureServing in Hsecond.
    destruct (SecureServing o1) as [ss|]; [|by injection Hsecond as <- <-].
    destruct (ServerRun o1) as [sr|]; [|done].
    destruct (proxyoptions.MaybeDefaultWithSelfSignedCerts _ _ _ _)
      as [[ss' e]|]; [|done].
    simpl in Hsecond. by injection Hsecond as <- <-.
  - done.
Qed.

(** X13: [Complete] panics on options without server run options and with
    secure serving options, whose certificates are defaulted from the
    advertise address of the missing options; it leaves options without
    either as they are. When it returns, authentication, authorization,
    upstream cluster options and features are as they were, and the log has
    only grown. *)
Theorem ProxyComplete_nil_server_run o h sink :
  (ServerRun o = None → is_Some (SecureServing o) →
     ProxyComplete o h sink = (Panicked, sink))
  ∧ (ServerRun o = None → SecureServing o = None →
       ProxyComplete o h sink = (Returned (o, None), sink))
  ∧ (∀ o' err sink',
       ProxyComplete o h sink = (Returned (o', err), sink') →
       Authentication o' = Authentication o
       ∧ Authorization o' = Authorization o
       ∧ UpstreamCluster o' = UpstreamCluster o
       ∧ Features o' = Features o
       ∧ sink `prefix_of` sink').
Proof.
  split; [|split].
  - intros Hsr [ss Hss]. unfold ProxyComplete, completeServerRun.
    rewrite Hsr. unfold completeSecureServing. by rewrite Hss, Hsr.
  - intros Hsr Hss. unfold ProxyComplete, completeServerRun.
    rewrite Hsr. unfold completeSecureServing. by rewrite Hss.
  - intros o' err sink'. apply ProxyComplete_frame.
Qed.


End options_completion.

(** ** The command *)

Section command_run.

Import controllers external cmdoptions cmdapp.

Context `{!Types} `{!proxyoptions.Library}.

Implicit Types (s : Options) (h : string * option error) (sink : klog.Sink)
  (Run : Options → klog.Sink → option error * klog.Sink).

(** What [Options.Complete] returns when it returns. *)
Lemma Complete_Returned s h sink s' err sink' :
  Complete s h sink = (Returned (s', err), sink') →
  ∃ proxy proxy',
    Proxy s = Some proxy ∧ s' = {| Proxy := Some proxy' |}
    ∧ ProxyComplete proxy h sink = (Returned (proxy', err), sink').
Proof.
  unfold Complete. destruct (Proxy s) as [proxy|] eqn:Hproxy; [|done].
  destruct (ProxyComplete proxy h sink) as [[[proxy' e]|] sink1] eqn:Hpc;
    [|done].
  simpl. intros [= <- <- <-]. by exists proxy, proxy'.
Qed.

(** An unset upstream cluster file is among the errors of validation. *)
Lemma ProxyValidate_unset_path (o : ProxyOptions) errs u :
  ProxyValidate o = Returned errs →
  UpstreamCluster o = Some u → options.Path u = EmptyString → errs ≠ [].
Proof.
  intros (a & z & sv & _ & _ & _ & ->)%ProxyValidate_Returned Hu Hpath Hnil.
  apply app_eq_nil in Hnil as [_ Hnil]. apply app_eq_nil in Hnil as [_ Hnil].
  apply app_eq_nil in Hnil as [_ Hnil]. apply app_eq_nil in Hnil as [Hnil _].
  rewrite Hu in Hnil. unfold options.Validate in Hnil.
  by rewrite Hpath in Hnil.
Qed.

(** How [RunE] comes to run the server. *)
Lemma RunE_Ran v printed Run s h sink s' err sink' :
  RunE v printed Run s h sink = (Returned (Ran s' err), sink') →
  v = false
  ∧ Validate s' = Returned []
  ∧ ∃ sink1,
      Complete s h (sink ++ printed) = (Returned (s', None), sink1)
      ∧ Run s' sink1 = (err, sink').
Proof.
  unfold RunE. destruct v; [done|].
  destruct (Complete s h (sink ++ printed)) as [[[s1 [e|]]|] sink1]; [done| |done].
  destruct (Validate s1) as [errs|] eqn:Hvalid; [|done].
  destruct errs as [|e errs]; simpl; [|done].
  destruct (Run s1 sink1) as [err1 sink2] eqn:Hrun.
  intros [= <- <- <-]. split; [done|]. split; [done|]. by exists sink1.
Qed.

(** X15: [RunE] runs the server only when the version was not asked for,
    [Complete] returned no error and [Validate] found nothing wrong with
    the completed options, which are the options the server is run with;
    the log the server writes to holds the flags and what [Complete]
    logged. In particular the upstream cluster file of the options, which
    [Complete] leaves as it is, is set. *)
Theorem RunE_runs_validated_options v printed Run s h sink s' err sink' :
  RunE v printed Run s h sink = (Returned (Ran s' err), sink') →
  v = false
  ∧ Validate s' = Returned []
  ∧ (∃ sink1,
       Complete s h (sink ++ printed) = (Returned (s', None), sink1)
       ∧ (sink ++ printed) `prefix_of` sink1
       ∧ Run s' sink1 = (err, sink'))
  ∧ ∃ proxy proxy',
      Proxy s = Some proxy ∧ Proxy s' = Some proxy'
      ∧ UpstreamCluster proxy' = UpstreamCluster proxy
      ∧ ∀ u, UpstreamCluster proxy = Some u → options.Path u ≠ EmptyString.
Proof.
  intros (Hv & Hvalid & sink1 & Hcomplete & Hrun)%RunE_Ran.
  destruct (Complete_Returned _ _ _ _ _ _ Hcomplete)
    as (proxy & proxy' & Hproxy & -> & Hpc).
  destruct (ProxyComplete_frame _ _ _ _ _ _ Hpc) as (_ & _ & Hu & _ & Hsink).
  split; [done|]. split; [done|]. split; [by exists sink1|].
  exists proxy, proxy'. split; [done|]. split; [done|]. split; [done|].
  intros u Hsome Hpath. unfold Validate in Hvalid. simpl in Hvalid.
  apply bind_Returned in Hvalid as (errs & Hpv & [= Hnil]).
  rewrite <- Hu in Hsome.
  by apply (ProxyValidate_unset_path _ _ _ Hpv Hsome Hpath).
Qed.

(** X16: when the version is asked for, or the upstream cluster file is
    unset, what [RunE] returns and logs does not depend on the function
    that runs the server: the server is not run. *)
Theorem RunE_stops_before_run v printed s h sink :
  v = true
  ∨ (∃ proxy u, Proxy s = Some proxy ∧ UpstreamCluster proxy = Some u
                ∧ options.Path u = EmptyString) →
  ∀ Run1 Run2,
    RunE v printed Run1 s h sink = RunE v printed Run2 s h sink.
Proof.
  intros Hstop Run1 Run2. unfold RunE. destruct v; [done|].
  destruct Hstop as [|(proxy & u & Hproxy & Hu & Hpath)]; [done|].
  destruct (Complete s h (sink ++ printed)) as [[[s1 [e|]]|] sink1] eqn:Hcomplete;
    [done| |done].
  destruct (Complete_Returned _ _ _ _ _ _ Hcomplete)
    as (proxy0 & proxy' & Hproxy0 & -> & Hpc).
  assert (proxy0 = proxy) as -> by congruence.
  destruct (ProxyComplete_frame _ _ _ _ _ _ Hpc) as (_ & _ & Hu' & _ & _).
  unfold Validate. simpl.
  destruct (ProxyValidate proxy') as [errs|] eqn:Hpv; simpl; [|done].
  destruct errs as [|e errs]; simpl; [|done].
  rewrite <- Hu' in Hu.
  by destruct (ProxyValidate_unset_path _ _ _ Hpv Hu Hpath).
Qed.

End command_run.

(** ** The authentication options *)

Section authentication_options.

Import controllers external proxyoptions.

Context `{!Types} `{!Library}.

Implicit Types (o : AuthenticationOptions) (st : Applied)
  (sni : option SNIVerifyOptionsProvider) (cp : option ClientProvider).

(** The CA provider and the request header config the options give, when
    both lookups succeed. *)
Lemma ToAuthenticationConfig_Some o sni cp cfg err :
  ToAuthenticationConfig (Some o) sni cp = (Some cfg, err) →
  err = None
  ∧ (∀ cc, ClientCert o = Some cc → (GetClientCAContentProvider cc).2 = None)
  ∧ (∀ rh, RequestHeader o = Some rh →
       (ToAuthenticationRequestHeaderConfig rh).2 = None)
  ∧ cfg =
      {| proxyauthenticator.TokenSuccessCacheTTL := TokenSuccessCacheTTL o;
         proxyauthenticator.TokenFailureCacheTTL := TokenFailureCacheTTL o;
         proxyauthenticator.APIAudiences := APIAudiences o;
         proxyauthenticator.Anonymous := true;
         proxyauthenticator.ClientCert :=
           match ClientCert o, sni with
           | None, None => None
           | cc, _ =>
               Some {| proxyauthenticator.CAContentProvider_ :=
                         cc ≫= λ cc, (GetClientCAContentProvider cc).1;
                       proxyauthenticator.SNIVerifyOptionsPorvider := sni |}
           end;
         proxyauthenticator.RequestHeaderConfig_ :=
           RequestHeader o ≫= λ rh, (ToAuthenticationRequestHeaderConfig rh).1;
         proxyauthenticator.TokenRequest :=
           (λ provider,
              {| proxyauthenticator.ClusterClientProvider := Some provider |})
           <$> cp |}.
Proof.
  unfold ToAuthenticationConfig.
  destruct (ClientCert o) as [cc|]; simpl.
  - destruct (GetClientCAContentProvider cc) as [ca [e|]] eqn:Hca; [done|].
    destruct (RequestHeader o) as [rh|]; simpl.
    + destruct (ToAuthenticationRequestHeaderConfig rh) as [c [e|]] eqn:Hrh;
        [done|].
      destruct sni, cp; simpl; intros [= <- <-];
        (split; [done|]); (split; [intros ? [= <-]; by rewrite Hca|]);
        (split; [intros ? [= <-]; by rewrite Hrh|]); done.
    + destruct sni, cp; simpl; intros [= <- <-];
        (split; [done|]); (split; [intros ? [= <-]; by rewrite Hca|]);
        (split; [by intros ? [=]|]); done.
  - destruct (RequestHeader o) as [rh|]; simpl.
    + destruct (ToAuthenticationRequestHeaderConfig rh) as [c [e|]] eqn:Hrh;
        [done|].
      destruct sni, cp; simpl; intros [= <- <-];
        (split; [done|]); (split; [by intros ? [=]|]);
        (split; [intros ? [= <-]; by rewrite Hrh|]); done.
    + destruct sni, cp; simpl; intros [= <- <-];
        (split; [done|]); (split; [by intros ? [=]|]);
        (split; [by intros ? [=]|]); done.
Qed.

(** The error of [ToAuthenticationConfig] is the error of a lookup. *)
Lemma ToAuthenticationConfig_None o sni cp err :
  ToAuthenticationConfig (Some o) sni cp = (None, err) →
  is_Some err
  ∧ ((∃ cc, ClientCert o = Some cc ∧ (GetClientCAContentProvider cc).2 = err)
     ∨ (∃ rh, RequestHeader o = Some rh
              ∧ (ToAuthenticationRequestHeaderConfig rh).2 = err
              ∧ ∀ cc, ClientCert o = Some cc →
                      (GetClientCAContentProvider cc).2 = None)).
Proof.
  unfold ToAuthenticationConfig.
  destruct (ClientCert o) as [cc|]; simpl.
  - destruct (GetClientCAContentProvider cc) as [ca [e|]] eqn:Hca.
    { intros [= <-]. split; [done|]. left. exists cc. by rewrite Hca. }
    destruct (RequestHeader o) as [rh|]; simpl; [|done].
    destruct (ToAuthenticationRequestHeaderConfig rh) as [c [e|]] eqn:Hrh; [|done].
    intros [= <-]. split; [done|]. right. exists rh. rewrite Hrh.
    split; [done|]. split; [done|]. intros ? [= <-]. by rewrite Hca.
  - destruct (RequestHeader o) as [rh|]; simpl; [|done].
    destruct (ToAuthenticationRequestHeaderConfig rh) as [c [e|]] eqn:Hrh; [|done].
    intros [= <-]. split; [done|]. right. exists rh. rewrite Hrh. by repeat split.
Qed.

(** X17: [ToAuthenticationConfig] returns a nil config and a nil error for
    nil options. For other options it returns either a config or an error,
    never both and never neither; the error is the one of the client CA
    lookup, or, when that lookup succeeds or there are no client-cert
    options, the one of the request header lookup. *)
Theorem ToAuthenticationConfig_config_or_error sni cp :
  ToAuthenticationConfig None sni cp = (None, None)
  ∧ ∀ o cfg err,
      ToAuthenticationConfig (Some o) sni cp = (cfg, err) →
      (is_Some cfg ↔ err = None)
      ∧ (cfg = None →
         (∃ cc, ClientCert o = Some cc
                ∧ (GetClientCAContentProvider cc).2 = err)
         ∨ (∃ rh, RequestHeader o = Some rh
                  ∧ (ToAuthenticationRequestHeaderConfig rh).2 = err
                  ∧ ∀ cc, ClientCert o = Some cc →
                          (GetClientCAContentProvider cc).2 = None)).
Proof.
  split; [done|]. intros o [cfg|] err Hto.
  - destruct (ToAuthenticationConfig_Some _ _ _ _ _ Hto) as (-> & _).
    split; [|done]. split; [done|]. by exists cfg.
  - destruct (ToAuthenticationConfig_None _ _ _ _ Hto) as ([e ->] & Horigin).
    split; [|done]. split; [by intros [? [=]]|done].
Qed.

(** X18: a config [ToAuthenticationConfig] returns allows anonymous
    requests and carries the cache TTLs and the audiences of the options;
    it has a client-cert section exactly when the options have client-cert
    options or an SNI verify options provider is given, and the section
    carries that provider; it has a token request section exactly when a
    client provider is given, and the section carries it. *)
Theorem ToAuthenticationConfig_sections o sni cp cfg :
  ToAuthenticationConfig (Some o) sni cp = (Some cfg, None) →
  proxyauthenticator.Anonymous cfg = true
  ∧ proxyauthenticator.TokenSuccessCacheTTL cfg = TokenSuccessCacheTTL o
  ∧ proxyauthenticator.TokenFailureCacheTTL cfg = TokenFailureCacheTTL o
  ∧ proxyauthenticator.APIAudiences cfg = APIAudiences o
  ∧ (is_Some (proxyauthenticator.ClientCert cfg)
     ↔ is_Some (ClientCert o) ∨ is_Some sni)
  ∧ (∀ section, proxyauthenticator.ClientCert cfg = Some section →
       proxyauthenticator.SNIVerifyOptionsPorvider section = sni
       ∧ (ClientCert o = None →
          proxyauthenticator.CAContentProvider_ section = None))
  ∧ (is_Some (proxyauthenticator.TokenRequest cfg) ↔ is_Some cp)
  ∧ (∀ section, proxyauthenticator.TokenRequest cfg = Some section →
       proxyauthenticator.ClusterClientProvider section = cp).
Proof.
  intros (_ & _ & _ & ->)%ToAuthenticationConfig_Some. simpl.
  do 4 (split; [done|]). split; [|split; [|split]].
  - destruct (ClientCert o), sni; simpl; split; try done;
      try (intros _; by left); try (intros _; by right).
    by intros [?|?].
  - intros section. destruct (ClientCert o), sni; simpl; intros [= <-]; by split.
  - destruct cp; simpl; split; done.
  - intros section. by destruct cp; simpl; intros [= <-].
Qed.

(** X19: when [ApplyTo] returns no error for options that are not nil,
    the config of the options was built and its authenticator created:
    the authentication info has that authenticator and the audiences of
    the options, basic auth is off, and the security definitions of an
    OpenAPI config that is given are those of the authenticator. *)
Theorem ApplyTo_success o st sni cp st' :
  ApplyTo (Some o) st sni cp = (st', None) →
  ∃ cfg req securityDefinitions,
    ToAuthenticationConfig (Some o) sni cp = (Some cfg, None)
    ∧ New cfg = (req, securityDefinitions, None)
    ∧ genericserver.Authenticator_ (authenticationInfo st') = req
    ∧ genericserver.SupportsBasicAuth (authenticationInfo st') = false
    ∧ genericserver.APIAudiences (authenticationInfo st') = APIAudiences o
    ∧ openAPIConfig st' =
        (λ openAPI,
           {| genericserver.SecurityDefinitions_ := securityDefinitions;
              genericserver.openAPIRest := genericserver.openAPIRest openAPI |})
        <$> openAPIConfig st.
Proof.
  unfold ApplyTo.
  destruct (ToAuthenticationConfig (Some o) sni cp) as [[cfg|] [e|]] eqn:Hto;
    [done| |done|by destruct (ToAuthenticationConfig_None _ _ _ _ Hto) as [[? [=]] _]].
  assert (proxyauthenticator.APIAudiences cfg = APIAudiences o) as Haudiences.
  { by destruct (ToAuthenticationConfig_Some _ _ _ _ _ Hto) as (_ & _ & _ & ->). }
  clear Hto.
  repeat case_match; intros; simplify_eq; simpl in *;
    exists cfg; eexists _, _; (split; [done|]); (split; [done|]);
    repeat split; try done;
    match goal with Hq : openAPIConfig _ = _ |- _ => by rewrite Hq end.
Qed.

(** X20: an error of [ApplyTo] arises for options that are not nil only,
    and is one of these. The error of [ToAuthenticationConfig], with
    nothing written. The error [ApplyClientCert] returned for the CA
    provider of the client-cert section of the config, under the message
    of the client CA file. The error [ApplyClientCert] returned for the CA
    provider of the request header config, called on the objects as the
    first call left them when there was one, under the message of the
    request header CA file. The error of the creation of the
    authenticator, as it is, after the audiences were written. After a
    failed [ApplyClientCert] the authentication and serving info are as
    that call left them. In none of these cases is the OpenAPI config
    written. *)
Theorem ApplyTo_errors (o : option AuthenticationOptions) st sni cp st' err :
  ApplyTo o st sni cp = (st', Some err) →
  openAPIConfig st' = openAPIConfig st
  ∧ ∃ o', o = Some o'
    ∧ ((ToAuthenticationConfig o sni cp = (None, Some err) ∧ st' = st)
       ∨ ∃ cfg,
           ToAuthenticationConfig o sni cp = (Some cfg, None)
           ∧ ((∃ section provider info serving e,
                 proxyauthenticator.ClientCert cfg = Some section
                 ∧ proxyauthenticator.CAContentProvider_ section = Some provider
                 ∧ ApplyClientCert (Some provider)
                     (authenticationInfo st) (servingInfo st)
                   = (info, serving, Some e)
                 ∧ err = fmt.Errorf ("unable to assign client CA file: "
                                     +:+ Error e)
                 ∧ authenticationInfo st' = info
                 ∧ servingInfo st' = serving)
              ∨ (∃ rh st1 info serving e,
                   (((∀ section,
                        proxyauthenticator.ClientCert cfg = Some section →
                        proxyauthenticator.CAContentProvider_ section = None)
                     ∧ st1 = st)
                    ∨ (∃ section provider info1 serving1,
                         proxyauthenticator.ClientCert cfg = Some section
                         ∧ proxyauthenticator.CAContentProvider_ section
                           = Some provider
                         ∧ ApplyClientCert (Some provider)
                             (authenticationInfo st) (servingInfo st)
                           = (info1, serving1, None)
                         ∧ st1 = {| authenticationInfo := info1;
                                    servingInfo := serving1;
                                    openAPIConfig := openAPIConfig st |}))
                   ∧ proxyauthenticator.RequestHeaderConfig_ cfg = Some rh
                   ∧ ApplyClientCert (RequestHeaderCAContentProvider rh)
                       (authenticationInfo st1) (servingInfo st1)
                     = (info, serving, Some e)
                   ∧ err = fmt.Errorf
                             ("unable to load request-header-client-ca-file: "
                              +:+ Error e)
                   ∧ authenticationInfo st' = info
                   ∧ servingInfo st' = serving)
              ∨ (∃ req securityDefinitions,
                   New cfg = (req, securityDefinitions, Some err)
                   ∧ genericserver.APIAudiences (authenticationInfo st')
                     = APIAudiences o'))).
Proof.
  destruct o as [o|]; [|done]. unfold ApplyTo.
  destruct (ToAuthenticationConfig (Some o) sni cp) as [[cfg|] [e|]] eqn:Hto.
  - by destruct (ToAuthenticationConfig_Some _ _ _ _ _ Hto) as ([=] & _).
  - assert (proxyauthenticator.APIAudiences cfg = APIAudiences o) as Haudiences.
    { by destruct (ToAuthenticationConfig_Some _ _ _ _ _ Hto) as (_ & _ & _ & ->). }
    clear Hto.
    destruct (proxyauthenticator.ClientCert cfg) as [[[provider|] sniP]|] eqn:Hcc.
    + (* a client CA: the first call of ApplyClientCert *)
      destruct (ApplyClientCert (Some provider) _ _)
        as [[info1 serving1] [e1|]] eqn:Hone; simpl.
      { intros [= <- <-]. split; [done|]. exists o. split; [done|]. right.
        exists cfg. split; [done|]. left.
        eexists _, provider, info1, serving1, e1. by repeat split. }
      destruct (proxyauthenticator.RequestHeaderConfig_ cfg) as [rh|] eqn:Hrh;
        [destruct (ApplyClientCert (RequestHeaderCAContentProvider rh) _ _)
           as [[info serving] [e2|]] eqn:Htwo; simpl|].
      * intros [= <- <-]. split; [done|]. exists o. split; [done|]. right.
        exists cfg. split; [done|]. right. left.
        exists rh, {| authenticationInfo := info1; servingInfo := serving1;
                      openAPIConfig := openAPIConfig st |}, info, serving, e2.
        split; [|by repeat split].
        right. eexists _, provider, info1, serving1. by repeat split.
      * destruct (New cfg) as [[req securityDefinitions] [e3|]] eqn:Hnew;
          simpl; [|done].
        intros [= <- <-]. split; [done|]. exists o. split; [done|]. right.
        exists cfg. split; [done|]. right. right.
        by exists req, securityDefinitions.
      * destruct (New cfg) as [[req securityDefinitions] [e3|]] eqn:Hnew;
          simpl; [|done].
        intros [= <- <-]. split; [done|]. exists o. split; [done|]. right.
        exists cfg. split; [done|]. right. right.
        by exists req, securityDefinitions.
    + (* a client-cert section without a CA *)
      destruct (proxyauthenticator.RequestHeaderConfig_ cfg) as [rh|] eqn:Hrh;
        [destruct (ApplyClientCert (RequestHeaderCAContentProvider rh) _ _)
           as [[info serving] [e2|]] eqn:Htwo; simpl|].
      * intros [= <- <-]. split; [done|]. exists o. split; [done|]. right.
        exists cfg. split; [done|]. right. left.
        exists rh, st, info, serving, e2.
        split; [|by repeat split].
        left. split; [|done]. intros section ?. by simplify_eq.
      * destruct (New cfg) as [[req securityDefinitions] [e3|]] eqn:Hnew;
          simpl; [|done].
        intros [= <- <-]. split; [done|]. exists o. split; [done|]. right.
        exists cfg. split; [done|]. right. right.
        by exists req, securityDefinitions.
      * destruct (New cfg) as [[req securityDefinitions] [e3|]] eqn:Hnew;
          simpl; [|done].
        intros [= <- <-]. split; [done|]. exists o. split; [done|]. right.
        exists cfg. split; [done|]. right. right.
        by exists req, securityDefinitions.
    + (* no client-cert section *)
      destruct (proxyauthenticator.RequestHeaderConfig_ cfg) as [rh|] eqn:Hrh;
        [destruct (ApplyClientCert (RequestHeaderCAContentProvider rh) _ _)
           as [[info serving] [e2|]] eqn:Htwo; simpl|].
      * intros [= <- <-]. split; [done|]. exists o. split; [done|]. right.
        exists cfg. split; [done|]. right. left.
        exists rh, st, info, serving, e2.
        split; [|by repeat split].
        left. split; [|done]. intros section ?. by simplify_eq.
      * destruct (New cfg) as [[req securityDefinitions] [e3|]] eqn:Hnew;
          simpl; [|done].
        intros [= <- <-]. split; [done|]. exists o. split; [done|]. right.
        exists cfg. split; [done|]. right. right.
        by exists req, securityDefinitions.
      * destruct (New cfg) as [[req securityDefinitions] [e3|]] eqn:Hnew;
          simpl; [|done].
        intros [= <- <-]. split; [done|]. exists o. split; [done|]. right.
        exists cfg. split; [done|]. right. right.
        by exists req, securityDefinitions.
  - intros [= <- <-]. split; [done|]. exists o. split; [done|]. by left.
  - done.
Qed.

(** X21: [ApplyTo] goes to the serving info only with a CA: when neither
    the client-cert options nor the request header options of the options
    give one, and for nil options, the serving info is as it was whatever
    else happens; for nil options the authenticator is cleared and no
    error returned. *)
Theorem ApplyTo_without_ca (o : option AuthenticationOptions) st sni cp :
  (∀ o' cc, o = Some o' → ClientCert o' = Some cc →
            (GetClientCAContentProvider cc).1 = None) →
  (∀ o' rh, o = Some o' → RequestHeader o' = Some rh →
            (ToAuthenticationRequestHeaderConfig rh).1 = None) →
  servingInfo (ApplyTo o st sni cp).1 = servingInfo st
  ∧ (o = None →
     ApplyTo o st sni cp =
       ({| authenticationInfo := setAuthenticator None (authenticationInfo st);
           servingInfo := servingInfo st;
           openAPIConfig := openAPIConfig st |}, None)).
Proof.
  destruct o as [o|]; [|done]. intros Hcc Hrh. split; [|done].
  unfold ApplyTo.
  destruct (ToAuthenticationConfig (Some o) sni cp) as [[cfg|] [e|]] eqn:Hto;
    [done| |done..].
  destruct (ToAuthenticationConfig_Some _ _ _ _ _ Hto) as (_ & _ & _ & Hcfg).
  assert (∀ section, proxyauthenticator.ClientCert cfg = Some section →
            proxyauthenticator.CAContentProvider_ section = None) as Hsection.
  { intros section. rewrite Hcfg. simpl.
    destruct (ClientCert o) as [cc|] eqn:Hsome, sni; simpl; intros [= <-];
      simpl; try done; by apply (Hcc o cc). }
  assert (proxyauthenticator.RequestHeaderConfig_ cfg = None) as Hheader.
  { rewrite Hcfg. simpl. destruct (RequestHeader o) as [rh|] eqn:Hsome; [|done].
    simpl. by apply (Hrh o rh). }
  clear Hto Hcfg. rewrite Hheader.
  destruct (proxyauthenticator.ClientCert cfg) as [[[provider|] ?]|].
  { by specialize (Hsection _ eq_refl). }
  all: simpl; by repeat case_match.
Qed.

End authentication_options.




(** ** The options and the command on examples *)

Section options_examples.

Import controllers external.

#[local] Existing Instance example.types.
#[local] Existing Instance example.library.

(** The options of [NewOptions] without the flag of the upstream cluster
    file: validation returns the one error. *)
Lemma ProxyValidate_reports_every_group_witness :
  cmdoptions.ProxyValidate (example.proxyOptions EmptyString)
    = Returned [mustBeSet]
  ∧ mustBeSet ∈ [mustBeSet].
Proof.
  split; [reflexivity|].
  destruct (ProxyValidate_reports_every_group
              (example.proxyOptions EmptyString) [mustBeSet])
    as (_ & Hreported & _); [reflexivity|].
  apply (Hreported {| options.Path := EmptyString |}); reflexivity.
Defined.



(** The command on the options of [NewOptions] with the upstream cluster
    file: the server is run with the completed options, which are valid. *)
Lemma RunE_runs_validated_options_witness :
  cmdapp.RunE false [] example.served
      {| cmdoptions.Proxy := Some (example.proxyOptions "clusters.yaml") |}
      example.hostname []
    = (Returned
         (cmdapp.Ran
            {| cmdoptions.Proxy := Some (example.completedOptions "clusters.yaml") |}
            None),
       [klog.InfoDepth 0 "external host was not specified, using 10.0.0.1";
        klog.InfoDepth 0 "Version: v1.0"])
  ∧ cmdoptions.Validate
      {| cmdoptions.Proxy := Some (example.completedOptions "clusters.yaml") |}
    = Returned [].
Proof.
  split; [reflexivity|].
  destruct (RunE_runs_validated_options false [] example.served
              {| cmdoptions.Proxy := Some (example.proxyOptions "clusters.yaml") |}
              example.hostname []
              {| cmdoptions.Proxy :=
                   Some (example.completedOptions "clusters.yaml") |}
              None
              [klog.InfoDepth 0 "external host was not specified, using 10.0.0.1";
               klog.InfoDepth 0 "Version: v1.0"])
    as (_ & Hvalid & _); [reflexivity|].
  exact Hvalid.
Defined.

(** Without the upstream cluster file the command ends in the same way
    whether the server would run or crash. *)
Lemma RunE_stops_before_run_witness :
  cmdapp.RunE false [] example.served
      {| cmdoptions.Proxy := Some (example.proxyOptions EmptyString) |}
      example.hostname []
  = cmdapp.RunE false [] example.crashed
      {| cmdoptions.Proxy := Some (example.proxyOptions EmptyString) |}
      example.hostname [].
Proof.
  apply (RunE_stops_before_run false []
           {| cmdoptions.Proxy := Some (example.proxyOptions EmptyString) |}
           example.hostname []).
  right. exists (example.proxyOptions EmptyString), {| options.Path := EmptyString |}.
  repeat split.
Defined.

(** With a client CA file, an SNI provider and no client provider, the
    config has a client-cert section and no token request section. *)
Lemma ToAuthenticationConfig_sections_witness :
  ∃ cfg,
    proxyoptions.ToAuthenticationConfig
      (Some (example.authentication "ca.crt")) (Some "clusters") None
      = (Some cfg, None)
    ∧ proxyauthenticator.Anonymous cfg = true
    ∧ is_Some (proxyauthenticator.ClientCert cfg)
    ∧ ¬ is_Some (proxyauthenticator.TokenRequest cfg).
Proof.
  eexists. split; [reflexivity|].
  edestruct (ToAuthenticationConfig_sections
               (example.authentication "ca.crt") (Some "clusters") None)
    as (Hanonymous & _ & _ & _ & Hsection & _ & Htoken & _); [reflexivity|].
  split; [exact Hanonymous|]. split.
  - apply Hsection. left. by eexists.
  - intros Hsome. apply Htoken in Hsome. by destruct Hsome.
Defined.

(** With a client CA file, [ApplyTo] sets the authenticator of the example
    library and turns basic auth off. *)
Lemma ApplyTo_success_witness :
  ∃ st',
    proxyoptions.ApplyTo (Some (example.authentication "ca.crt"))
      example.recommended (Some "clusters") (Some "clusters")
      = (st', None)
    ∧ ∃ cfg req securityDefinitions,
        proxyoptions.ToAuthenticationConfig
          (Some (example.authentication "ca.crt"))
          (Some "clusters") (Some "clusters") = (Some cfg, None)
        ∧ proxyoptions.New cfg = (req, securityDefinitions, None)
        ∧ genericserver.Authenticator_ (proxyoptions.authenticationInfo st') = req
        ∧ genericserver.SupportsBasicAuth (proxyoptions.authenticationInfo st')
          = false
        ∧ genericserver.APIAudiences (proxyoptions.authenticationInfo st')
          = proxyoptions.APIAudiences (example.authentication "ca.crt")
        ∧ proxyoptions.openAPIConfig st' =
            (λ openAPI,
               {| genericserver.SecurityDefinitions_ := securityDefinitions;
                  genericserver.openAPIRest :=
                    genericserver.openAPIRest openAPI |})
            <$> proxyoptions.openAPIConfig example.recommended.
Proof.
  eexists. split; [reflexivity|].
  apply (ApplyTo_success (example.authentication "ca.crt")
           example.recommended (Some "clusters") (Some "clusters")).
  reflexivity.
Defined.

(** With a client CA file that is missing, [ApplyTo] returns the error of
    the lookup and writes nothing. With a client CA that cannot be applied
    it returns the error of [ApplyClientCert] under the message of the
    client CA file; with a request header CA that cannot be applied, the
    same error under the message of the request header CA file, after the
    client CA was added to the serving info. The OpenAPI config is as it
    was each time. *)
Lemma ApplyTo_errors_witness :
  (proxyoptions.ApplyTo (Some (example.authentication "missing.crt"))
     example.recommended None None
     = (example.recommended,
        Some (fmt.Errorf "open missing.crt: no such file or directory"))
   ∧ proxyoptions.openAPIConfig example.recommended
     = proxyoptions.openAPIConfig example.recommended)
  ∧ (∃ st',
       proxyoptions.ApplyTo (Some (example.authentication "expired.crt"))
         example.recommended None None
         = (st',
            Some (fmt.Errorf
                    "unable to assign client CA file: x509: certificate has expired"))
       ∧ proxyoptions.openAPIConfig st'
         = proxyoptions.openAPIConfig example.recommended)
  ∧ (∃ st',
       proxyoptions.ApplyTo
         (Some (example.authenticationWith "ca.crt" "expired.crt"))
         example.recommended None None
         = (st',
            Some (fmt.Errorf
                    "unable to load request-header-client-ca-file: x509: certificate has expired"))
       ∧ proxyoptions.servingInfo st' = Some ["ca.crt"]
       ∧ proxyoptions.openAPIConfig st'
         = proxyoptions.openAPIConfig example.recommended).
Proof.
  split; [|split].
  - split; [reflexivity|].
    destruct (ApplyTo_errors (Some (example.authentication "missing.crt"))
                example.recommended None None example.recommended
                (fmt.Errorf "open missing.crt: no such file or directory"))
      as (Hopen & _); [reflexivity|].
    exact Hopen.
  - eexists. split; [reflexivity|].
    edestruct (ApplyTo_errors (Some (example.authentication "expired.crt"))
                 example.recommended None None)
      as (Hopen & _); [reflexivity|].
    exact Hopen.
  - eexists. split; [reflexivity|]. split; [reflexivity|].
    edestruct (ApplyTo_errors
                 (Some (example.authenticationWith "ca.crt" "expired.crt"))
                 example.recommended None None)
      as (Hopen & _); [reflexivity|].
    exact Hopen.
Defined.

(** Without CA files the serving info stays as it is. *)
Lemma ApplyTo_without_ca_witness :
  proxyoptions.servingInfo
    (proxyoptions.ApplyTo (Some (example.authentication EmptyString))
       example.recommended (Some "clusters") None).1
  = proxyoptions.servingInfo example.recommended.
Proof.
  destruct (ApplyTo_without_ca (Some (example.authentication EmptyString))
              example.recommended (Some "clusters") None) as (Hserving & _).
  - intros o' cc [= <-] [= <-]. reflexivity.
  - intros o' rh [= <-] [= <-]. reflexivity.
  - exact Hserving.
Defined.

End options_examples.

